(** * Forecast pipeline: strategy simulator, evaluation harness and models

    A shallow embedding of the algorithmic core of the forecasting bot
    ([trading_strategy.py], [model_evaluator.py], [models/arima_model.py],
    [models/ml_model.py], [models/lstm_model.py]) and of [logger.py],
    together with the properties its specification states about it and
    further properties read off the code.

    Numbers.  The Python code computes on IEEE doubles.  The strategy
    simulator only multiplies, divides, subtracts and compares, so it is
    embedded over the rationals [Q], where every definition evaluates.  The
    metrics and the feature engineering need a square root and are embedded
    over the reals [R]; a division by zero there gives a value that is not a
    finite number.  Rounding and overflow are outside both models.

    Libraries.  What [statsmodels], [sklearn] and [keras] compute is not
    part of the repository: their calls are parameters of the model that uses them, each
    returning a value or raising.  Where a property is about which calls are
    made, the model keeps a log of them.

    Layout.  The first part embeds the code, module by module, each
    followed by the definitions that word the specification; the second
    part proves the properties. *)

From Stdlib Require Import String List Arith Bool Lia ZArith.
From Stdlib Require Import QArith Qfield Qround Reals Lra.
From Stdlib Require Import Permutation Sorted.
From Stdlib Require Lqa.
Import ListNotations.
Close Scope R_scope.
Close Scope Q_scope.

(** ** Python helpers shared by the modules *)

(** [range(lo, hi)]: empty when [hi <= lo]. *)
Definition range (lo hi : nat) : list nat := seq lo (hi - lo).

(** [l.append(x)] on an immutable list. *)
Definition append {A : Type} (l : list A) (x : A) : list A := l ++ [x].

(** [int(x)] on a float: truncation towards zero. *)
Definition py_int (x : Q) : Z :=
  if Qle_bool 0 x then Qfloor x else Qceiling x.

(** [int(n * (1 - test_size))], the split index of every [train]. *)
Definition split_index (n : nat) (test_size : Q) : Z :=
  py_int (inject_Z (Z.of_nat n) * (1 - test_size))%Q.

(** The slices [l[:i]] and [l[i:]]: a negative index counts from the end. *)
Definition slice_to {A : Type} (l : list A) (i : Z) : list A :=
  if (0 <=? i)%Z then firstn (Z.to_nat i) l
  else firstn (length l - Z.to_nat (- i)) l.

Definition slice_from {A : Type} (l : list A) (i : Z) : list A :=
  if (0 <=? i)%Z then skipn (Z.to_nat i) l
  else skipn (length l - Z.to_nat (- i)) l.

(** What a method call ends with: a returned value or a raised exception. *)
Inductive Exn : Type :=
  | ValueError
  | NotFittedError
  | IndexError
  | LibraryError.

Inductive Outcome (A : Type) : Type :=
  | Returned (a : A)
  | Raised (e : Exn).

Arguments Returned {A}.
Arguments Raised {A}.

(** A [dict] with string keys.  Iteration follows insertion order and
    [min] over the keys depends on it, so the dictionary is the list of its
    items in that order. *)
Definition dict (V : Type) : Type := list (string * V).

(** [d[k] = v]: a key already present keeps its place. *)
Fixpoint dict_set {V : Type} (d : dict V) (k : string) (v : V) : dict V :=
  match d with
  | [] => [(k, v)]
  | (k', v') :: rest =>
      if String.eqb k' k then (k', v) :: rest
      else (k', v') :: dict_set rest k v
  end.

(** [d[k]]; [None] is Python's [KeyError]. *)
Fixpoint dict_get {V : Type} (d : dict V) (k : string) : option V :=
  match d with
  | [] => None
  | (k', v) :: rest => if String.eqb k' k then Some v else dict_get rest k
  end.

(** [d.keys()], in iteration order. *)
Definition keys {V : Type} (d : dict V) : list string := map fst d.

(** * trading_strategy.py *)

Module Trading.

Open Scope Q_scope.

(** Strict comparison of two prices as a boolean. *)
Definition Qlt_bool (x y : Q) : bool := negb (Qle_bool y x).

(** [forecast[i]] for an index inside the array. *)
Definition at_index (forecast : list Q) (i : nat) : Q := nth i forecast 0.

(** The test of the first loop: a strict local minimum at [i]. *)
Definition is_local_min (forecast : list Q) (i : nat) : bool :=
  Qlt_bool (at_index forecast i) (at_index forecast (i - 1)) &&
  Qlt_bool (at_index forecast i) (at_index forecast (i + 1)).

(** The test of the second loop: a strict local maximum at [i]. *)
Definition is_local_max (forecast : list Q) (i : nat) : bool :=
  Qlt_bool (at_index forecast (i - 1)) (at_index forecast i) &&
  Qlt_bool (at_index forecast (i + 1)) (at_index forecast i).

(** One run of [for i in range(1, len(forecast) - 1)] with its
    [if test: acc.append((i + 1, forecast[i]))]. *)
Definition collect (test : list Q -> nat -> bool) (forecast : list Q)
  : list (nat * Q) :=
  fold_left
    (fun acc i =>
       if test forecast i then append acc ((i + 1)%nat, at_index forecast i)
       else acc)
    (range 1 (length forecast - 1)) [].

(** [find_local_extrema]: (buy points, sell points) as (day, price) pairs. *)
Definition find_local_extrema (forecast : list Q)
  : list (nat * Q) * list (nat * Q) :=
  let local_minima := collect is_local_min forecast in
  let local_maxima := collect is_local_max forecast in
  (local_minima, local_maxima).

(** The tag of an entry of [all_events]: the strings ['buy'] and ['sell']. *)
Inductive EventAction : Type := buy | sell.

Definition Event : Type := (nat * Q * EventAction)%type.

Definition event_day (e : Event) : nat := fst (fst e).
Definition event_price (e : Event) : Q := snd (fst e).
Definition event_action (e : Event) : EventAction := snd e.

(** The ['action'] of a recommendation: ['Купить'], ['Продать'] and
    ['Продать (конец периода)']. *)
Inductive Action : Type := Buy | Sell | SellEndOfPeriod.

(** One dictionary of the [trades] list. *)
Record Trade : Type := mkTrade {
  day : nat;
  action : Action;
  price : Q;
  shares : Q
}.

(** [all_events.sort(key=lambda x: x[0])]: Python's sort is stable, and a
    stable sort has one result; insertion from the right computes it. *)
Fixpoint insert_event (e : Event) (l : list Event) : list Event :=
  match l with
  | [] => [e]
  | x :: r =>
      if (event_day e <=? event_day x)%nat then e :: l
      else x :: insert_event e r
  end.

Fixpoint sort_by_day (l : list Event) : list Event :=
  match l with
  | [] => []
  | e :: r => insert_event e (sort_by_day r)
  end.

(** The merged list: buy points first, then sell points, then sorted by day. *)
Definition all_events (buy_points sell_points : list (nat * Q)) : list Event :=
  sort_by_day
    (map (fun dp => (fst dp, snd dp, buy)) buy_points ++
     map (fun dp => (fst dp, snd dp, sell)) sell_points).

(** The three local variables the simulation loop updates. *)
Record SimState : Type := mkSim {
  sim_trades : list Trade;
  sim_cash : Q;
  sim_shares : Q
}.

Definition is_buy (a : EventAction) : bool :=
  match a with buy => true | sell => false end.

Definition is_sell (a : EventAction) : bool :=
  match a with sell => true | buy => false end.

(** The body of [for day, price, action in all_events].  Forecast values
    are prices; at a price of zero numpy's [cash / price] is an infinity,
    which [Q] does not have, so the properties of the loop are stated for
    positive prices.  The quotient and the product are exact here; the code
    rounds them to doubles (a quotient can underflow to 0.0, a product can
    round back to the cash that was invested), so a property that depends
    on their exact values is a property of the exact arithmetic. *)
Definition trade_step (st : SimState) (ev : Event) : SimState :=
  let '(d, p, a) := ev in
  if is_buy a && Qeq_bool (sim_shares st) 0 then
    let shares' := sim_cash st / p in
    mkSim (append (sim_trades st) (mkTrade d Buy p shares')) 0 shares'
  else if is_sell a && Qlt_bool 0 (sim_shares st) then
    let cash' := sim_shares st * p in
    mkSim (append (sim_trades st) (mkTrade d Sell p (sim_shares st))) cash' 0
  else st.

(** [forecast[-1]] (only reached on a forecast with an extremum, hence
    of at least three values). *)
Definition last_price (forecast : list Q) : Q := last forecast 0.

(** [if shares > 0:] after the loop. *)
Definition liquidate (forecast : list Q) (st : SimState) : SimState :=
  if Qlt_bool 0 (sim_shares st) then
    let final_price := last_price forecast in
    let cash' := sim_shares st * final_price in
    mkSim (append (sim_trades st)
             (mkTrade (length forecast) SellEndOfPeriod final_price
                (sim_shares st)))
          cash' 0
  else st.

(** The state after the loop over [events], before the end-of-period test. *)
Definition run_events (investment_amount : Q) (events : list Event)
  : SimState :=
  fold_left trade_step events (mkSim [] investment_amount 0).

(** The state the result is computed from. *)
Definition simulate (forecast : list Q) (investment_amount : Q) : SimState :=
  let '(buy_points, sell_points) := find_local_extrema forecast in
  liquidate forecast
    (run_events investment_amount (all_events buy_points sell_points)).

(** The returned dictionary.  The early return has no ['buy_points'] and
    ['sell_points'] keys, hence the option. *)
Record StrategyResult : Type := mkResult {
  recommendations : list Trade;
  total_profit : Q;
  profit_percentage : Q;
  final_amount : Q;
  trades_count : nat;
  extrema_points : option (list (nat * Q) * list (nat * Q))
}.

Definition is_empty {A : Type} (l : list A) : bool :=
  match l with [] => true | _ => false end.

Definition calculate_investment_strategy
    (current_price : Q) (forecast : list Q) (investment_amount : Q)
  : StrategyResult :=
  let '(buy_points, sell_points) := find_local_extrema forecast in
  if is_empty buy_points && is_empty sell_points then
    mkResult [] 0 0 investment_amount 0 None
  else
    let st := simulate forecast investment_amount in
    let final_amount :=
      if Qeq_bool (sim_shares st) 0 then sim_cash st
      else sim_shares st * last_price forecast in
    let total_profit := final_amount - investment_amount in
    let profit_percentage := (total_profit / investment_amount) * 100 in
    mkResult (sim_trades st) total_profit profit_percentage final_amount
      (length (sim_trades st)) (Some (buy_points, sell_points)).

End Trading.

(** * The strategy simulator as the specification words it

    The specification describes the simulation as a walk over the merged
    event list "holding one of two states - flat (all cash) or long (all
    shares)", and asks that "replaying trades against the forecast
    reproduces final_amount exactly".  The definitions of this module
    follow those sentences, not the code; they are what the code of
    [Trading] is compared with. *)

Module StrategySpec.
Import Trading.
Open Scope Q_scope.

(** The two states: all cash, or all shares. *)
Inductive Position : Type :=
  | Flat (cash : Q)
  | Long (held : Q).

(** "on a buy event while flat, convert all cash to shares at that event's
    price and transition to long; on a sell event while long, convert all
    shares to cash at that event's price and transition to flat; any event
    that does not match the current state is ignored". *)
Definition machine_step (s : Position * list Trade) (ev : Event)
  : Position * list Trade :=
  let '(d, p, a) := ev in
  match fst s, a with
  | Flat cash, buy =>
      (Long (cash / p), snd s ++ [mkTrade d Buy p (cash / p)])
  | Long held, sell =>
      (Flat (held * p), snd s ++ [mkTrade d Sell p held])
  | _, _ => s
  end.

(** "If still long after the last event, force-liquidate at the final
    Forecast value, recorded as a distinguished end of period sell". *)
Definition force_liquidate (forecast : list Q) (s : Position * list Trade)
  : Position * list Trade :=
  match fst s with
  | Long held =>
      (Flat (held * last forecast 0),
       snd s ++ [mkTrade (length forecast) SellEndOfPeriod (last forecast 0)
                   held])
  | Flat _ => s
  end.

Definition walk (forecast : list Q) (investment_amount : Q)
    (events : list Event) : Position * list Trade :=
  force_liquidate forecast
    (fold_left machine_step events (Flat investment_amount, [])).

(** Replaying a trade list: "each buy converting all cash to shares at the
    trade's price and each sell converting all shares to cash at the trade's
    price".  The state is (cash, shares). *)
Definition replay_step (st : Q * Q) (t : Trade) : Q * Q :=
  match action t with
  | Buy => (0, fst st / price t)
  | Sell | SellEndOfPeriod => (snd st * price t, 0)
  end.

Definition replay (investment_amount : Q) (trades : list Trade) : Q * Q :=
  fold_left replay_step trades (investment_amount, 0).


(** Candidates tagged the way the merge loop tags them. *)
Definition tagged (a : EventAction) (points : list (nat * Q)) : list Event :=
  map (fun dp => (fst dp, snd dp, a)) points.

(** The event list of a forecast: what the loop walks. *)
Definition candidate_events (forecast : list Q) : list Event :=
  all_events (fst (find_local_extrema forecast))
             (snd (find_local_extrema forecast)).

(** The literal sequence of the specification's extrema example. *)
Definition sample_forecast : list Q := [10; 8; 12; 7; 15; 15; 9].

(** Chronological order of events, weak and strict. *)
Definition day_le (a b : Event) : Prop := (event_day a <= event_day b)%nat.
Definition day_lt (a b : Event) : Prop := (event_day a < event_day b)%nat.

(** "fully invested or fully in cash": the two shapes of the loop's
    variables. *)
Definition in_cash (st : SimState) : Prop :=
  sim_shares st = 0 /\ 0 < sim_cash st.

Definition invested (st : SimState) : Prop :=
  sim_cash st = 0 /\ 0 < sim_shares st.

(** The loop's variables [st] represent the machine state [s]. *)
Definition represents (st : SimState) (s : Position * list Trade) : Prop :=
  snd s = sim_trades st /\
  match fst s with
  | Flat cash => sim_cash st = cash /\ in_cash st
  | Long held => sim_shares st = held /\ invested st
  end.



(** Replaying the trades executed so far gives the loop's variables. *)
Definition replay_agrees (investment_amount : Q) (st : SimState) : Prop :=
  replay investment_amount (sim_trades st) = (sim_cash st, sim_shares st).

(** A trade carries the forecast value of its own day. *)
Definition priced_by (forecast : list Q) (t : Trade) : Prop :=
  (1 <= day t <= length forecast)%nat /\
  price t = at_index forecast (day t - 1).

End StrategySpec.

(** * model_evaluator.py: the metrics *)

Module Metrics.

Open Scope R_scope.

(** The value of a floating-point expression: a real number, or not a
    finite number ([nan] or an infinity).  The arrays handed in hold finite
    values; a non-finite value can only come out of a division by zero. *)
Inductive number : Type :=
  | fin (r : R)
  | nonfinite.

(** Elementwise [/] of numpy: a zero denominator gives [inf] or [nan] (with
    a warning, not an exception). *)
Definition fdiv (a b : R) : number :=
  if Req_dec_T b 0 then nonfinite else fin (a / b).

(** Numpy's broadcasting of a binary operation on two one-dimensional
    arrays: equal lengths go elementwise, an array of length one is
    stretched, anything else raises [ValueError] ([None]). *)
Definition broadcast {A : Type} (f : R -> R -> A) (xs ys : list R)
  : option (list A) :=
  if (length xs =? length ys)%nat then
    Some (map (fun xy => f (fst xy) (snd xy)) (combine xs ys))
  else
    match xs, ys with
    | [x], _ => Some (map (f x) ys)
    | _, [y] => Some (map (fun x => f x y) xs)
    | _, _ => None
    end.

(** [np.sum]. *)
Definition np_sum (xs : list R) : R := fold_right Rplus 0 xs.

(** [np.mean] of finite values: [nan] on the empty array (0/0). *)
Definition np_mean (xs : list R) : number :=
  match xs with
  | [] => nonfinite
  | _ => fin (np_sum xs / INR (length xs))
  end.

(** An array of float results as an array of reals, when all are finite. *)
Fixpoint all_finite (xs : list number) : option (list R) :=
  match xs with
  | [] => Some []
  | fin r :: rest =>
      match all_finite rest with
      | Some rs => Some (r :: rs)
      | None => None
      end
  | nonfinite :: _ => None
  end.

(** [np.mean] of an array that may hold non-finite values: one such value
    makes the mean non-finite. *)
Definition np_mean_numbers (xs : list number) : number :=
  match all_finite xs with
  | Some rs => np_mean rs
  | None => nonfinite
  end.

(** A scalar operation on a float result. *)
Definition number_map (f : R -> R) (x : number) : number :=
  match x with
  | fin r => fin (f r)
  | nonfinite => nonfinite
  end.

(** [y_true - np.mean(y_true)]: the empty array stays empty. *)
Definition centered (y_true : list R) : list R :=
  match np_mean y_true with
  | fin m => map (fun y => y - m) y_true
  | nonfinite => []
  end.

(** [ss_tot] of [calculate_metrics]. *)
Definition total_variance (y_true : list R) : R :=
  np_sum (map (fun d => d ^ 2) (centered y_true)).

(** The returned dictionary. *)
Record MetricsDict : Type := mkMetrics {
  RMSE : number;
  MAE : number;
  MAPE : number;
  R2 : R
}.

(** [calculate_metrics]; [None] is the [ValueError] of two arrays that do
    not broadcast. *)
Definition calculate_metrics (y_true y_pred : list R) : option MetricsDict :=
  match broadcast Rminus y_true y_pred with
  | None => None
  | Some diff =>
      let rmse := number_map sqrt (np_mean (map (fun d => d ^ 2) diff)) in
      let mae := np_mean (map Rabs diff) in
      match broadcast fdiv diff y_true with
      | None => None
      | Some ratios =>
          let mape :=
            number_map (fun m => m * 100)
              (np_mean_numbers (map (number_map Rabs) ratios)) in
          let ss_res := np_sum (map (fun d => d ^ 2) diff) in
          let ss_tot := total_variance y_true in
          let r2 :=
            if Req_dec_T ss_tot 0 then 0 else 1 - ss_res / ss_tot in
          Some (mkMetrics rmse mae mape r2)
      end
  end.

(** [a < b] on float results: a comparison with [nan] is false. *)
Definition number_lt (a b : number) : bool :=
  match a, b with
  | fin x, fin y => if Rlt_dec x y then true else false
  | _, _ => false
  end.

End Metrics.

(** * model_evaluator.py: the evaluation harness *)

Module Harness.
Import Metrics.

Section Evaluator.

(** The [pd.DataFrame] of historical data; the harness only passes it on. *)
Variable DataFrame : Type.

(** What the harness uses of a model object: its [name] and its [train],
    called with [test_size=TEST_SIZE].  [train] returns [(y_test, y_pred)]
    or raises ([None]).  The fitted state [train] leaves in the object is
    not part of this model. *)
Record Model : Type := mkModel {
  name : string;
  train : DataFrame -> option (list R * list R)
}.

(** Python's [min(first :: rest, key=key)]: the running best is replaced
    only by an item whose key is strictly smaller. *)
Fixpoint min_by {A : Type} (key : A -> number) (best : A) (rest : list A)
  : A :=
  match rest with
  | [] => best
  | x :: rest' =>
      if number_lt (key x) (key best) then min_by key x rest'
      else min_by key best rest'
  end.

(** The body of [for model in models]: the [try] covers [train] and
    [calculate_metrics]; on an exception the model is skipped. *)
Definition try_model (df : DataFrame)
    (acc : dict (Model * MetricsDict) * dict MetricsDict) (model : Model)
  : dict (Model * MetricsDict) * dict MetricsDict :=
  let '(results, all_metrics) := acc in
  match train model df with
  | None => acc
  | Some (y_test, y_pred) =>
      match calculate_metrics y_test y_pred with
      | None => acc
      | Some metrics =>
          (dict_set results (name model) (model, metrics),
           dict_set all_metrics (name model) metrics)
      end
  end.

(** The two dictionaries after the loop. *)
Definition train_all (models : list Model) (df : DataFrame)
  : dict (Model * MetricsDict) * dict MetricsDict :=
  fold_left (try_model df) models ([], []).

(** [lambda x: results[x]['metrics']['RMSE']]. *)
Definition rmse_of (results : dict (Model * MetricsDict)) (x : string)
  : number :=
  match dict_get results x with
  | Some (_, metrics) => RMSE metrics
  | None => nonfinite
  end.

(** Lines 57-90 of [evaluate_models] for a given list of model objects;
    [None] is the [ValueError] raised when no model could be trained. *)
Definition evaluate (models : list Model) (df : DataFrame)
  : option (Model * string * MetricsDict * dict MetricsDict) :=
  let '(results, all_metrics) := train_all models df in
  match keys results with
  | [] => None
  | k :: ks =>
      let best_model_name := min_by (rmse_of results) k ks in
      match dict_get results best_model_name with
      | Some (best_model, best_metrics) =>
          Some (best_model, best_model_name, best_metrics, all_metrics)
      | None => None
      end
  end.

(** The [train] methods of the three model classes. *)
Variable ml_train arima_train lstm_train
  : DataFrame -> option (list R * list R).

Definition MLModel : Model := mkModel "Random Forest" ml_train.
Definition ARIMAModel : Model := mkModel "ARIMA" arima_train.
Definition LSTMModel : Model := mkModel "LSTM" lstm_train.

(** [models = [MLModel(), ARIMAModel(), LSTMModel()]]. *)
Definition models : list Model := [MLModel; ARIMAModel; LSTMModel].

Definition evaluate_models (df : DataFrame)
  : option (Model * string * MetricsDict * dict MetricsDict) :=
  evaluate models df.

End Evaluator.

Arguments mkModel {DataFrame}.
Arguments name {DataFrame}.
Arguments train {DataFrame}.
Arguments try_model {DataFrame}.
Arguments train_all {DataFrame}.
Arguments rmse_of {DataFrame}.
Arguments evaluate {DataFrame}.
Arguments MLModel {DataFrame}.
Arguments ARIMAModel {DataFrame}.
Arguments LSTMModel {DataFrame}.
Arguments models {DataFrame}.
Arguments evaluate_models {DataFrame}.

End Harness.

(** * The harness as the specification words it

    The definitions of this module say what "surviving variant", "globally
    minimum RMSE" and "first minimal value wins" mean; they are what
    [Harness.evaluate] is compared with. *)

Module HarnessSpec.
Import Metrics Harness.

Section Spec.

Context {DataFrame : Type}.

(** What the failure boundary of the loop yields for one model: its
    metrics, or nothing when [train] (or the metric computation) raised. *)
Definition outcome (df : DataFrame) (m : Model DataFrame)
  : option MetricsDict :=
  match train m df with
  | Some (y_test, y_pred) => calculate_metrics y_test y_pred
  | None => None
  end.

(** The contract of [train]: the held-out actual values come "alongside the
    model's predictions for that same span". *)
Definition same_span (df : DataFrame) (m : Model DataFrame) : Prop :=
  forall y_test y_pred,
    train m df = Some (y_test, y_pred) -> length y_test = length y_pred.

(** ... and the held-out segment is not empty (the series has at least 100
    points). *)
Definition well_trained (df : DataFrame) (m : Model DataFrame) : Prop :=
  forall y_test y_pred,
    train m df = Some (y_test, y_pred) ->
    length y_test = length y_pred /\ y_test <> [].

(** The surviving variants with their metrics, in enumeration order. *)
Definition survivors (models : list (Model DataFrame)) (df : DataFrame)
  : list (Model DataFrame * MetricsDict) :=
  flat_map
    (fun m => match outcome df m with Some mt => [(m, mt)] | None => [] end)
    models.

(** The items the two dictionaries hold for one survivor. *)
Definition results_item (s : Model DataFrame * MetricsDict)
  : string * (Model DataFrame * MetricsDict) := (name (fst s), s).

Definition metrics_item (s : Model DataFrame * MetricsDict)
  : string * MetricsDict := (name (fst s), snd s).

(** [best], at RMSE [rmse], is the first variant of [models] with the
    minimal RMSE among the surviving ones: every survivor listed earlier
    has a strictly larger RMSE, every survivor listed later has one at
    least as large. *)
Definition first_minimum (df : DataFrame) (models : list (Model DataFrame))
    (best : Model DataFrame) (rmse : R) : Prop :=
  exists earlier later,
    models = earlier ++ best :: later /\
    (exists mt, outcome df best = Some mt /\ RMSE mt = fin rmse) /\
    (forall m mt, In m earlier -> outcome df m = Some mt ->
                  exists r, RMSE mt = fin r /\ (rmse < r)%R) /\
    (forall m mt, In m later -> outcome df m = Some mt ->
                  exists r, RMSE mt = fin r /\ (rmse <= r)%R).

End Spec.

(** Stand-ins for a [train] method on a series nothing is read from: one
    that returns a given pair of arrays, one that raises. *)
Definition returning (y_test y_pred : list R)
  : unit -> option (list R * list R) :=
  fun _ => Some (y_test, y_pred).

Definition raising : unit -> option (list R * list R) := fun _ => None.

End HarnessSpec.

(** * models/arima_model.py *)

Module Arima.

(** The [order] of an ARIMA model: (p, d, q). *)
Definition Order : Type := (nat * nat * nat)%type.

(** The [trend] and [seasonal] arguments of [ExponentialSmoothing]. *)
Inductive Component : Type := add | mul.

(** What the model uses of [statsmodels].  Every call may raise ([None]).
    [ExponentialSmoothing] stands for the three calls of the last fallback:
    the constructor, [fit()] and [forecast(steps)]. *)
Class Statsmodels (Price : Type) : Type := {
  ArimaObject : Type;
  ArimaResults : Type;
  ARIMA : list Price -> Order -> option ArimaObject;
  fit : ArimaObject -> option ArimaResults;
  forecast : ArimaResults -> nat -> option (list Price);
  ExponentialSmoothing :
    list Price -> option Component -> option Component -> nat ->
    option (list Price)
}.

(** One fitting attempt, as recorded in the log of library calls. *)
Inductive Attempt : Type :=
  | TryARIMA (o : Order)
  | TrySmoothing (trend seasonal : option Component).

Section Model.

Context {Price : Type} `{Statsmodels Price}.

(** The attributes of an [ARIMAModel] object ([name] is the constant
    ["ARIMA"]). *)
Record ARIMAModel : Type := mkARIMA {
  model : option ArimaObject;
  order : Order;
  fitted_model : option ArimaResults
}.

(** [__init__(self, order=(5, 1, 0))]. *)
Definition default_order : Order := (5, 1, 0).

Definition init : ARIMAModel := mkARIMA None default_order None.

Definition set_model (self : ARIMAModel) (m : ArimaObject) : ARIMAModel :=
  mkARIMA (Some m) (order self) (fitted_model self).

Definition set_order (self : ARIMAModel) (o : Order) : ARIMAModel :=
  mkARIMA (model self) o (fitted_model self).

Definition set_fitted (self : ARIMAModel) (r : ArimaResults) : ARIMAModel :=
  mkARIMA (model self) (order self) (Some r).

(** The three statements every [try] block starts with:
    [self.model = ARIMA(data, order=self.order)],
    [self.fitted_model = self.model.fit()],
    [forecast = self.fitted_model.forecast(steps=steps)].
    Returns the object as the block leaves it, the attempt made, and the
    forecast unless a call raised. *)
Definition fit_and_forecast (self : ARIMAModel) (data : list Price)
    (steps : nat) : ARIMAModel * list Attempt * option (list Price) :=
  let log := [TryARIMA (order self)] in
  match ARIMA data (order self) with
  | None => (self, log, None)
  | Some m =>
      let self := set_model self m in
      match fit m with
      | None => (self, log, None)
      | Some r =>
          let self := set_fitted self r in
          (self, log, forecast r steps)
      end
  end.

(** [train]: the object afterwards, the attempts made, and
    [(test_data, forecast)] or the [ValueError] of the inner handler. *)
Definition train (self : ARIMAModel) (prices : list Price) (test_size : Q)
  : ARIMAModel * list Attempt * Outcome (list Price * list Price) :=
  let split_idx := split_index (length prices) test_size in
  let train_data := slice_to prices split_idx in
  let test_data := slice_from prices split_idx in
  let '(self, log1, r1) :=
    fit_and_forecast self train_data (length test_data) in
  match r1 with
  | Some forecast => (self, log1, Returned (test_data, forecast))
  | None =>
      let self := set_order self (1, 1, 1) in
      let '(self, log2, r2) :=
        fit_and_forecast self train_data (length test_data) in
      match r2 with
      | Some forecast => (self, log1 ++ log2, Returned (test_data, forecast))
      | None => (self, log1 ++ log2, Raised ValueError)
      end
  end.

(** [predict]: the last handler has no [try] of its own, so what the
    smoothing model raises leaves the method. *)
Definition predict (self : ARIMAModel) (prices : list Price) (days : nat)
  : ARIMAModel * list Attempt * Outcome (list Price) :=
  let '(self, log1, r1) := fit_and_forecast self prices days in
  match r1 with
  | Some forecast => (self, log1, Returned forecast)
  | None =>
      let self := set_order self (1, 1, 1) in
      let '(self, log2, r2) := fit_and_forecast self prices days in
      match r2 with
      | Some forecast => (self, log1 ++ log2, Returned forecast)
      | None =>
          let log3 := [TrySmoothing (Some add) None] in
          match ExponentialSmoothing prices (Some add) None days with
          | Some forecast => (self, log1 ++ log2 ++ log3, Returned forecast)
          | None => (self, log1 ++ log2 ++ log3, Raised LibraryError)
          end
      end
  end.

End Model.

Arguments ARIMAModel Price {_}.

End Arima.

(** * The fallback chain as the specification words it

    "encode as an explicit ordered list of (configuration, fitting strategy)
    attempts evaluated in sequence with first success short-circuiting; the
    final fallback's failure is the only one that is fatal". *)

Module ArimaSpec.
Import Arima.

Section Chain.

Context {Price : Type} `{Statsmodels Price}.

(** What one attempt yields on its own. *)
Definition run_attempt (a : Attempt) (data : list Price) (steps : nat)
  : option (list Price) :=
  match a with
  | TryARIMA o =>
      match ARIMA data o with
      | Some m =>
          match fit m with
          | Some r => forecast r steps
          | None => None
          end
      | None => None
      end
  | TrySmoothing trend seasonal =>
      ExponentialSmoothing data trend seasonal steps
  end.

(** The attempts made, in order, and the first forecast obtained. *)
Fixpoint first_success (chain : list Attempt) (data : list Price)
    (steps : nat) : list Attempt * option (list Price) :=
  match chain with
  | [] => ([], None)
  | a :: rest =>
      match run_attempt a data steps with
      | Some forecast => ([a], Some forecast)
      | None =>
          let '(tried, r) := first_success rest data steps in
          (a :: tried, r)
      end
  end.

(** The chain of [train] and the chain of [predict], from a first order. *)
Definition train_chain (first : Order) : list Attempt :=
  [TryARIMA first; TryARIMA (1, 1, 1)].

Definition predict_chain (first : Order) : list Attempt :=
  [TryARIMA first; TryARIMA (1, 1, 1); TrySmoothing (Some add) None].

(** The outcome of a method whose chain ended with [r]. *)
Definition outcome_of {A : Type} (e : Exn) (r : option A) : Outcome A :=
  match r with
  | Some a => Returned a
  | None => Raised e
  end.

(** The order the object holds after a chain started with [first]. *)
Definition order_after (first : Order) (data : list Price) (steps : nat)
  : Order :=
  match run_attempt (TryARIMA first) data steps with
  | Some _ => first
  | None => (1, 1, 1)
  end.

End Chain.

(** A stand-in for the library on integer prices: only the order (1, 1, 1)
    can be fitted, the forecast repeats the last value, there is no
    smoothing model. *)
Definition is_minimal_order (o : Order) : bool :=
  match o with
  | (1, 1, 1) => true
  | _ => false
  end%nat.

Definition only_minimal_order : Statsmodels Z := {|
  ArimaObject := list Z;
  ArimaResults := list Z;
  ARIMA := fun data o => if is_minimal_order o then Some data else None;
  fit := fun m => Some m;
  forecast := fun r steps => Some (repeat (last r 0%Z) steps);
  ExponentialSmoothing := fun _ _ _ _ => None
|}.

(** Ten prices for the stand-in. *)
Definition ten_prices : list Z := [1; 2; 3; 4; 5; 6; 7; 8; 9; 10]%Z.

End ArimaSpec.

(** * models/ml_model.py *)

Module RandomForest.

Open Scope R_scope.

(** The value of a floating-point division that is kept in the frame: a
    real number, or an infinity ([inf] or [-inf]: a value that is not zero
    divided by zero). *)
Inductive Ratio : Type :=
  | ratio_of (r : R)
  | infinity (negative : bool).

(** One row of the feature matrix [X] (the frame without ['Date'] and
    ['Price']): the columns [lag_1] .. [lag_10], in that order, and the
    five indicators. *)
Record FeatureRow : Type := mkRow {
  lag : list R;
  ma_7 : R;
  ma_30 : R;
  std_7 : R;
  momentum : R;
  roc : Ratio
}.

(** What the model uses of [sklearn].  A value of [StandardScaler] or of
    [RandomForestRegressor] is a fitted estimator; every call may raise
    ([None]).  [forest_fit] takes [n_estimators], [random_state] and
    [max_depth] first. *)
Class Sklearn : Type := {
  StandardScaler : Type;
  RandomForestRegressor : Type;
  scaler_fit : list FeatureRow -> option StandardScaler;
  scaler_transform :
    StandardScaler -> list FeatureRow -> option (list (list R));
  forest_fit :
    nat -> nat -> nat -> list (list R) -> list R ->
    option RandomForestRegressor;
  forest_predict : RandomForestRegressor -> list (list R) -> option (list R)
}.

(** [series.shift(i)] at position [t]: [NaN] ([None]) before position [i]. *)
Definition shift (prices : list R) (i t : nat) : option R :=
  if (i <=? t)%nat then nth_error prices (t - i) else None.

(** The window of [series.rolling(window)] at position [t]: [NaN] until
    [window] values are there. *)
Definition rolling (window : nat) (prices : list R) (t : nat)
  : option (list R) :=
  if (window <=? t + 1)%nat
  then Some (firstn window (skipn (t + 1 - window) prices))
  else None.

Definition total (xs : list R) : R := fold_right Rplus 0 xs.

(** [.mean()] and [.std()] of a full window; pandas' [std] divides by
    [n - 1]. *)
Definition mean (xs : list R) : R := total xs / INR (length xs).

Definition std (xs : list R) : R :=
  sqrt (total (map (fun x => (x - mean xs) ^ 2) xs) / INR (length xs - 1)).

Fixpoint all_some {A : Type} (l : list (option A)) : option (list A) :=
  match l with
  | [] => Some []
  | Some a :: rest =>
      match all_some rest with
      | Some rs => Some (a :: rs)
      | None => None
      end
  | None :: _ => None
  end.

(** [(p - p5) / p5 * 100] on floats: zero divided by zero is [NaN]
    ([None]), another value divided by zero is an infinity with the sign of
    that value. *)
Definition rate_of_change (p p5 : R) : option Ratio :=
  if Req_dec_T p5 0 then
    if Req_dec_T (p - p5) 0 then None
    else Some (infinity (if Rlt_dec (p - p5) 0 then true else false))
  else Some (ratio_of ((p - p5) / p5 * 100)).

(** The feature columns at position [t]; [None] when one of them is [NaN],
    which is when [dropna] removes the row: where a lag or a window reaches
    before the series, and where the price and the price five days before
    are both zero. *)
Definition feature_row (lags : nat) (prices : list R) (t : nat)
  : option FeatureRow :=
  match all_some (map (fun i => shift prices i t) (range 1 (lags + 1))),
        rolling 7 prices t, rolling 30 prices t,
        shift prices 5 t, nth_error prices t with
  | Some ls, Some w7, Some w30, Some p5, Some p =>
      match rate_of_change p p5 with
      | Some rate =>
          Some (mkRow ls (mean w7) (mean w30) (std w7) (p - p5) rate)
      | None => None
      end
  | _, _, _, _, _ => None
  end.

Section Model.

(** The type of the ['Date'] column; the model never looks at it. *)
Variable Date : Type.

Context `{Sklearn}.

(** A row of the frame [create_features] returns. *)
Definition DataRow : Type := (Date * R * FeatureRow)%type.

Definition features (row : DataRow) : FeatureRow := snd row.
Definition price_of (row : DataRow) : R := snd (fst row).

(** [create_features(df, lags=10)]. *)
Definition create_features (df : list (Date * R)) (lags : nat)
  : list DataRow :=
  let prices := map snd df in
  flat_map
    (fun t =>
       match nth_error df t, feature_row lags prices t with
       | Some (d, p), Some f => [(d, p, f)]
       | _, _ => []
       end)
    (range 0 (length df)).

(** The attributes of an [MLModel] object: [None] is the estimator as
    [__init__] builds it, not fitted yet. *)
Record MLModel : Type := mkML {
  model : option RandomForestRegressor;
  scaler : option StandardScaler
}.

Definition init : MLModel := mkML None None.

(** [train]: the scaler is fitted on [X_train], the forest on the scaled
    [X_train]. *)
Definition train (self : MLModel) (df : list (Date * R)) (test_size : Q)
  : MLModel * Outcome (list R * list R) :=
  let data := create_features df 10 in
  let X := map features data in
  let y := map price_of data in
  let split_idx := split_index (length X) test_size in
  let X_train := slice_to X split_idx in
  let X_test := slice_from X split_idx in
  let y_train := slice_to y split_idx in
  let y_test := slice_from y split_idx in
  match scaler_fit X_train with
  | None => (self, Raised LibraryError)
  | Some fitted_scaler =>
      let self := mkML (model self) (Some fitted_scaler) in
      match scaler_transform fitted_scaler X_train with
      | None => (self, Raised LibraryError)
      | Some X_train_scaled =>
          match scaler_transform fitted_scaler X_test with
          | None => (self, Raised LibraryError)
          | Some X_test_scaled =>
              match forest_fit 100 42 10 X_train_scaled y_train with
              | None => (self, Raised LibraryError)
              | Some fitted_forest =>
                  let self := mkML (Some fitted_forest) (scaler self) in
                  match forest_predict fitted_forest X_test_scaled with
                  | None => (self, Raised LibraryError)
                  | Some y_pred => (self, Returned (y_test, y_pred))
                  end
              end
          end
      end
  end.

(** [row[f'lag_{i}']] and [row[f'lag_{i}'] = v] on the ten lag columns. *)
Definition get_lag (i : nat) (row : FeatureRow) : R := nth (i - 1) (lag row) 0.

Definition set_lag (i : nat) (v : R) (row : FeatureRow) : FeatureRow :=
  mkRow (firstn (i - 1) (lag row) ++ v :: skipn i (lag row))
    (ma_7 row) (ma_30 row) (std_7 row) (momentum row) (roc row).

(** [for i in range(10, 1, -1): row[lag_i] = row[lag_{i-1}]], then
    [row[lag_1] = next_price]. *)
Definition update_lags (next_price : R) (row : FeatureRow) : FeatureRow :=
  set_lag 1 next_price
    (fold_left (fun r i => set_lag i (get_lag (i - 1) r) r)
       (rev (range 2 11)) row).

(** A call of [self.scaler.transform], as recorded in the log of library
    calls: the scaler used and the frame handed in. *)
Inductive Call : Type :=
  | Transform (s : StandardScaler) (frame : list FeatureRow).

(** [for _ in range(days)] of [predict]: the calls made and the
    predictions, or the exception that ended the loop. *)
Fixpoint rollout (self : MLModel) (days : nat) (last_data : list FeatureRow)
    (predictions : list R) : list Call * Outcome (list R) :=
  match days with
  | O => ([], Returned predictions)
  | S days' =>
      match scaler self with
      | None => ([], Raised NotFittedError)
      | Some s =>
          let call := Transform s last_data in
          match scaler_transform s last_data with
          | None => ([call], Raised LibraryError)
          | Some X_scaled =>
              match model self with
              | None => ([call], Raised NotFittedError)
              | Some forest =>
                  match forest_predict forest X_scaled with
                  | None => ([call], Raised LibraryError)
                  | Some [] => ([call], Raised IndexError)
                  | Some (next_price :: _) =>
                      let predictions := append predictions next_price in
                      let last_data :=
                        map (update_lags next_price) last_data in
                      let '(log, out) :=
                        rollout self days' last_data predictions in
                      (call :: log, out)
                  end
              end
          end
      end
  end.

(** [.iloc[-1:]]: the last row as a frame, empty on an empty frame. *)
Definition last_rows {A : Type} (l : list A) : list A :=
  skipn (length l - 1) l.

(** [predict]; it assigns nothing to [self]. *)
Definition predict (self : MLModel) (df : list (Date * R)) (days : nat)
  : list Call * Outcome (list R) :=
  let data := create_features df 10 in
  let last_data := last_rows (map features data) in
  rollout self days last_data [].

End Model.

Arguments DataRow Date : clear implicits.

End RandomForest.

(** * The rollout as the specification words it *)

Module RandomForestSpec.
Import RandomForest.

Section Rollout.

Context `{Sklearn}.

(** The current feature row after the predictions [predictions] (oldest
    first): "append it as the new lag_1, and shift all other lag columns by
    one position; rolling-window and momentum features are not recomputed
    per step (frozen at their last historical values)". *)
Definition rolled_row (history : FeatureRow) (predictions : list R)
  : FeatureRow :=
  mkRow (firstn 10 (rev predictions ++ lag history))
    (ma_7 history) (ma_30 history) (std_7 history) (momentum history)
    (roc history).

(** One step: "scale the current feature row with the scaler, predict one
    step". *)
Definition one_step (s : StandardScaler) (forest : RandomForestRegressor)
    (row : FeatureRow) : Outcome R :=
  match scaler_transform s [row] with
  | None => Raised LibraryError
  | Some X_scaled =>
      match forest_predict forest X_scaled with
      | None => Raised LibraryError
      | Some [] => Raised IndexError
      | Some (next_price :: _) => Returned next_price
      end
  end.

(** The recursive multi-step rollout with a given scaler and forest, from
    the last historical row: the rows scaled, and the forecast. *)
Fixpoint recursive_rollout (s : StandardScaler)
    (forest : RandomForestRegressor) (history : FeatureRow)
    (predictions : list R) (horizon : nat)
  : list FeatureRow * Outcome (list R) :=
  match horizon with
  | O => ([], Returned predictions)
  | S horizon' =>
      let row := rolled_row history predictions in
      match one_step s forest row with
      | Raised e => ([row], Raised e)
      | Returned next_price =>
          let '(rows, out) :=
            recursive_rollout s forest history (predictions ++ [next_price])
              horizon' in
          (row :: rows, out)
      end
  end.

(** The log of a rollout that scales [rows] with [s], one row per call. *)
Definition calls_with (s : StandardScaler) (rows : list FeatureRow)
  : list Call :=
  map (fun row => Transform s [row]) rows.

(** The last historical feature row of a series. *)
Definition last_history {Date : Type} (df : list (Date * R)) : FeatureRow :=
  last (map (features Date) (create_features Date df 10))
    (mkRow [] 0 0 0 0 (ratio_of 0)).

(** The training partition of the feature rows of a series. *)
Definition training_rows {Date : Type} (df : list (Date * R)) (test_size : Q)
  : list FeatureRow :=
  slice_to (map (features Date) (create_features Date df 10))
    (split_index (length (create_features Date df 10)) test_size).

(** The indicators of [row] are those of [history]. *)
Definition frozen (history row : FeatureRow) : Prop :=
  ma_7 row = ma_7 history /\ ma_30 row = ma_30 history /\
  std_7 row = std_7 history /\ momentum row = momentum history /\
  roc row = roc history.

End Rollout.

(** A stand-in for the library that records what it is given: a fitted
    scaler is the frame it was fitted on, transforming lists the columns of
    each row (an infinite rate of change has none), the forest predicts 0
    for every row. *)
Definition ratio_column (rate : Ratio) : list R :=
  match rate with
  | ratio_of r => [r]
  | infinity _ => []
  end.

Definition columns (row : FeatureRow) : list R :=
  lag row ++ [ma_7 row; ma_30 row; std_7 row; momentum row]
  ++ ratio_column (roc row).

Definition recording : Sklearn := {|
  StandardScaler := list FeatureRow;
  RandomForestRegressor := unit;
  scaler_fit := fun X => Some X;
  scaler_transform := fun _ X => Some (map columns X);
  forest_fit := fun _ _ _ _ _ => Some tt;
  forest_predict := fun _ X => Some (map (fun _ => 0%R) X)
|}.

(** A series of thirty-two days with the prices 1 .. 32: three feature
    rows, two of them in the training partition. *)
Definition thirty_two_days : list (nat * R) :=
  map (fun n => (n, INR n)) (seq 1 32).

End RandomForestSpec.

(** * Further notions about the strategy simulator

    Shapes of forecasts and relations between runs that the properties of
    the second part refer to. *)

Module StrategyMore.
Import Trading StrategySpec.
Open Scope Q_scope.

(** A forecast that never falls, and one that never rises, from one day to
    the next. *)
Definition never_falls (forecast : list Q) : Prop :=
  forall i, (i + 1 < length forecast)%nat ->
            at_index forecast i <= at_index forecast (i + 1).

Definition never_rises (forecast : list Q) : Prop :=
  forall i, (i + 1 < length forecast)%nat ->
            at_index forecast (i + 1) <= at_index forecast i.

(** A forecast without two equal consecutive values. *)
Definition no_flat_steps (forecast : list Q) : Prop :=
  forall i, (i + 1 < length forecast)%nat ->
            ~ at_index forecast i == at_index forecast (i + 1).

(** The event of index [i], if it has one, and the events in index order. *)
Definition event_at (forecast : list Q) (i : nat) : list Event :=
  if is_local_min forecast i then [((i + 1)%nat, at_index forecast i, buy)]
  else if is_local_max forecast i
       then [((i + 1)%nat, at_index forecast i, sell)]
       else [].

Definition events_by_index (forecast : list Q) : list Event :=
  flat_map (event_at forecast) (range 1 (length forecast - 1)).

(** The same trade on [k] times as many shares, and the same loop state on
    [k] times the money. *)
Definition scaled_trade (k : Q) (t t' : Trade) : Prop :=
  day t' = day t /\ action t' = action t /\ price t' = price t /\
  shares t' == k * shares t.

Definition scaled_state (k : Q) (st st' : SimState) : Prop :=
  Forall2 (scaled_trade k) (sim_trades st) (sim_trades st') /\
  sim_cash st' == k * sim_cash st /\
  sim_shares st' == k * sim_shares st.

(** A forecast without flat steps, for the examples. *)
Definition zigzag_forecast : list Q := [10; 8; 12; 7; 15; 14; 9].


(** The loop state before index [i] on a forecast without flat steps: all
    cash and no money lost, or all shares on a rising forecast and worth
    more than the amount invested. *)
Definition not_losing (forecast : list Q) (investment_amount : Q)
    (i : nat) (st : SimState) : Prop :=
  (sim_shares st = 0 /\
   ((sim_trades st = [] /\ sim_cash st = investment_amount) \/
    (sim_trades st <> [] /\ investment_amount < sim_cash st))) \/
  (sim_cash st = 0 /\ 0 < sim_shares st /\ sim_trades st <> [] /\
   at_index forecast (i - 1) < at_index forecast i /\
   investment_amount < sim_shares st * at_index forecast i).

End StrategyMore.

(** * Further notions about the metrics *)

Module MetricsMore.
Import Metrics.
Open Scope R_scope.

(** The shapes numpy can broadcast against each other. *)
Definition broadcastable (n m : nat) : Prop := n = m \/ n = 1%nat \/ m = 1%nat.

(** A float result that is a number is at least [bound]. *)
Definition at_least (bound : R) (x : number) : Prop :=
  match x with
  | fin r => bound <= r
  | nonfinite => True
  end.

(** [x <= y] on float results that are numbers. *)
Definition number_le (x y : number) : Prop :=
  match x, y with
  | fin a, fin b => a <= b
  | _, _ => True
  end.

(** The array [ys] with [c] added to every value. *)
Definition shifted (c : R) (ys : list R) : list R := map (fun y => y + c) ys.

(** The array [ys] with every value multiplied by [k]. *)
Definition scaled (k : R) (ys : list R) : list R := map (fun y => k * y) ys.

(** A float result multiplied by [k]. *)
Definition times (k : R) (x : number) : number := number_map (Rmult k) x.

End MetricsMore.

(** * Further notions about the harness *)

Module HarnessMore.
Import Metrics Harness HarnessSpec.

Section More.

Context {DataFrame : Type}.

(** [m], with metrics [mt], is the first model of [models] that the loop
    does not skip. *)
Definition first_survivor (df : DataFrame) (models : list (Model DataFrame))
    (m : Model DataFrame) (mt : MetricsDict) : Prop :=
  exists earlier later,
    models = earlier ++ m :: later /\
    (forall e, In e earlier -> outcome df e = None) /\
    outcome df m = Some mt.

(** No two surviving models of [models] have the same RMSE. *)
Definition distinct_rmse (df : DataFrame) (models : list (Model DataFrame))
  : Prop :=
  forall m m' mt mt',
    In m models -> In m' models ->
    outcome df m = Some mt -> outcome df m' = Some mt' ->
    RMSE mt = RMSE mt' -> m = m'.

(** Two results of [evaluate] select the same model, under the same name
    and with the same metrics, or both are the [ValueError]. *)
Definition same_selection
    (a b : option (Model DataFrame * string * MetricsDict * dict MetricsDict))
  : Prop :=
  match a, b with
  | Some (best, n, metrics, _), Some (best', n', metrics', _) =>
      best = best' /\ n = n' /\ metrics = metrics'
  | None, None => True
  | _, _ => False
  end.

End More.

(** Stand-in models on a series nothing is read from: the first raises, the
    second is evaluated on an empty held-out segment, the third predicts
    its one value exactly. *)
Definition empty_segment_in_front : list (Model unit) :=
  [mkModel "A" raising; mkModel "B" (returning [] []);
   mkModel "C" (returning [1%R] [1%R])].

(** Two stand-in models with different errors, in both orders. *)
Definition worse_then_better : list (Model unit) :=
  [mkModel "A" (returning [10%R] [14%R]);
   mkModel "B" (returning [10%R] [12%R])].

Definition better_then_worse : list (Model unit) :=
  [mkModel "B" (returning [10%R] [12%R]);
   mkModel "A" (returning [10%R] [14%R])].

End HarnessMore.

(** * Further notions about the ARIMA model *)

Module ArimaMore.
Import Arima ArimaSpec.

Section More.

Context {Price : Type} `{Statsmodels Price}.

(** A call of one of the two methods on an object. *)
Inductive MethodCall : Type :=
  | CallTrain (prices : list Price) (test_size : Q)
  | CallPredict (prices : list Price) (days : nat).

(** The object after one call, whether the call returned or raised. *)
Definition after_call (self : ARIMAModel Price) (c : MethodCall)
  : ARIMAModel Price :=
  match c with
  | CallTrain prices test_size => fst (fst (train self prices test_size))
  | CallPredict prices days => fst (fst (predict self prices days))
  end.

(** The object after a sequence of calls. *)
Definition after_calls (self : ARIMAModel Price) (calls : list MethodCall)
  : ARIMAModel Price :=
  fold_left after_call calls self.

(** The three attributes of the object fit together, and the stored fit
    gives [forecast] for [steps] steps: [self.model] is the ARIMA model of
    [data] with [self.order], [self.fitted_model] is its fit. *)
Definition stored_fit_gives (self : ARIMAModel Price) (data : list Price)
    (steps : nat) (forecast_values : list Price) : Prop :=
  exists m r,
    model self = Some m /\ fitted_model self = Some r /\
    ARIMA data (order self) = Some m /\ fit m = Some r /\
    forecast r steps = Some forecast_values.

(** The predictions a call of [train] ends with, without the held-out
    values returned beside them. *)
Definition predictions_of (o : Outcome (list Price * list Price))
  : Outcome (list Price) :=
  match o with
  | Returned (_, y_pred) => Returned y_pred
  | Raised e => Raised e
  end.

End More.

(** Ten prices that differ from [ten_prices] in the last two only. *)
Definition ten_other_prices : list Z := [1; 2; 3; 4; 5; 6; 7; 8; 50; 60]%Z.

End ArimaMore.

(** * Further notions about the Random Forest model *)

Module RandomForestMore.
Import RandomForest RandomForestSpec.

Open Scope R_scope.

(** The feature columns at a position [t] where none of them is [NaN] and
    the price five days back is not zero, written out: the ten prices
    before [t], the means of the last 7 and of the last 30 prices up to
    [t], the deviation of the last 7, and the difference and the rate of
    change against the price five days back. *)
Definition row_at (prices : list R) (t : nat) : FeatureRow :=
  let p := nth t prices 0 in
  let p5 := nth (t - 5) prices 0 in
  let w7 := firstn 7 (skipn (t + 1 - 7) prices) in
  let w30 := firstn 30 (skipn (t + 1 - 30) prices) in
  mkRow (map (fun i => nth (t - i) prices 0) (range 1 11))
    (mean w7) (mean w30) (std w7) (p - p5)
    (ratio_of ((p - p5) / p5 * 100)).

(** No price of the series is zero. *)
Definition no_zero_price (prices : list R) : Prop :=
  Forall (fun p => p <> 0) prices.

(** The frame of [df] at position [t], when there is such a position. *)
Definition data_row_at {Date : Type} (df : list (Date * R)) (t : nat)
  : list (DataRow Date) :=
  match nth_error df t with
  | Some (d, p) => [(d, p, row_at (map snd df) t)]
  | None => []
  end.

(** A series of thirty-three days whose last thirty prices are those of
    [thirty_two_days]. *)
Definition thirty_three_days : list (nat * R) :=
  (0%nat, 100) :: (0%nat, 200) :: (0%nat, 300) :: skipn 2 thirty_two_days.

End RandomForestMore.

(** * models/lstm_model.py *)

Module Lstm.

Open Scope R_scope.

(** What the model uses of [sklearn] and [keras].  A value of
    [MinMaxScaler] is a fitted scaler; a value of [Sequential] is a
    network, built or trained; every call may raise ([None]).
    [build_model] takes the number of time steps of its [input_shape];
    [network_fit] returns the network as training left it;
    [network_predict] takes a batch of windows and returns one array of
    values. *)
Class Keras : Type := {
  MinMaxScaler : Type;
  Sequential : Type;
  fit_transform : list R -> option (MinMaxScaler * list R);
  inverse_transform : MinMaxScaler -> list R -> option (list R);
  build_model : nat -> option Sequential;
  network_fit : Sequential -> list (list R) -> list R -> option Sequential;
  network_predict : Sequential -> list (list R) -> option (list R)
}.

(** The slice [data[a:b]] for indices that are not negative. *)
Definition slice {A : Type} (data : list A) (a b : nat) : list A :=
  firstn (b - a) (skipn a data).

(** One turn of the loop of [prepare_data]. *)
Definition prepare_step (lookback : nat) (data : list R)
    (acc : list (list R) * list R) (i : nat) : list (list R) * list R :=
  let '(X, y) := acc in
  (append X (slice data (i - lookback) i), append y (nth i data 0)).

(** [prepare_data]: with no window at all [np.array(X)] has one dimension
    and [X.shape[1]] raises [IndexError]. *)
Definition prepare_data (lookback : nat) (data : list R)
  : Outcome (list (list R) * list R) :=
  let '(X, y) :=
    fold_left (prepare_step lookback data) (range lookback (length data))
      ([], []) in
  match X with
  | [] => Raised IndexError
  | _ :: _ => Returned (X, y)
  end.

Section Model.

Context `{Keras}.

(** The attributes of an [LSTMModel] object ([name] is the constant
    ["LSTM"]); the scaler is [None] until it is fitted. *)
Record LSTMModel : Type := mkLSTM {
  model : option Sequential;
  scaler : option MinMaxScaler;
  lookback : nat
}.

(** [__init__(self, lookback=60)]. *)
Definition init : LSTMModel := mkLSTM None None 60.

Definition set_scaler (self : LSTMModel) (s : MinMaxScaler) : LSTMModel :=
  mkLSTM (model self) (Some s) (lookback self).

Definition set_model (self : LSTMModel) (m : Sequential) : LSTMModel :=
  mkLSTM (Some m) (scaler self) (lookback self).

(** [train]: the object afterwards and [(y_test_original, y_pred)] or the
    exception. *)
Definition train (self : LSTMModel) (prices : list R) (test_size : Q)
  : LSTMModel * Outcome (list R * list R) :=
  match fit_transform prices with
  | None => (self, Raised LibraryError)
  | Some (fitted_scaler, scaled_data) =>
      let self := set_scaler self fitted_scaler in
      match prepare_data (lookback self) scaled_data with
      | Raised e => (self, Raised e)
      | Returned (X, y) =>
          let split_idx := split_index (length X) test_size in
          let X_train := slice_to X split_idx in
          let X_test := slice_from X split_idx in
          let y_train := slice_to y split_idx in
          let y_test := slice_from y split_idx in
          match build_model (lookback self) with
          | None => (self, Raised LibraryError)
          | Some network =>
              let self := set_model self network in
              match network_fit network X_train y_train with
              | None => (self, Raised LibraryError)
              | Some trained =>
                  let self := set_model self trained in
                  match network_predict trained X_test with
                  | None => (self, Raised LibraryError)
                  | Some y_pred_scaled =>
                      match inverse_transform fitted_scaler y_pred_scaled with
                      | None => (self, Raised LibraryError)
                      | Some y_pred =>
                          match inverse_transform fitted_scaler y_test with
                          | None => (self, Raised LibraryError)
                          | Some y_test_original =>
                              (self, Returned (y_test_original, y_pred))
                          end
                      end
                  end
              end
          end
      end
  end.

(** [for _ in range(days)] of [predict]: the windows handed to the network
    and the predictions, or the exception that ended the loop.
    [reshape(1, lookback, 1)] raises [ValueError] unless the sequence has
    [lookback] values; [np.append] appends every value the network
    returned. *)
Fixpoint rollout (network : Sequential) (lookback days : nat)
    (last_sequence predictions : list R) : list (list R) * Outcome (list R) :=
  match days with
  | O => ([], Returned predictions)
  | S days' =>
      if (length last_sequence =? lookback)%nat then
        match network_predict network [last_sequence] with
        | None => ([last_sequence], Raised LibraryError)
        | Some [] => ([last_sequence], Raised IndexError)
        | Some (value :: rest) =>
            let predictions := append predictions value in
            let next_sequence := skipn 1 last_sequence ++ value :: rest in
            let '(log, out) :=
              rollout network lookback days' next_sequence predictions in
            (last_sequence :: log, out)
        end
      else ([], Raised ValueError)
  end.

(** [predict]: the scaler and the network are fitted again, on the whole
    series; the object afterwards, the windows handed to the network in the
    loop, and the forecast or the exception. *)
Definition predict (self : LSTMModel) (prices : list R) (days : nat)
  : LSTMModel * list (list R) * Outcome (list R) :=
  match fit_transform prices with
  | None => (self, [], Raised LibraryError)
  | Some (fitted_scaler, scaled_data) =>
      let self := set_scaler self fitted_scaler in
      match prepare_data (lookback self) scaled_data with
      | Raised e => (self, [], Raised e)
      | Returned (X, y) =>
          match build_model (lookback self) with
          | None => (self, [], Raised LibraryError)
          | Some network =>
              let self := set_model self network in
              match network_fit network X y with
              | None => (self, [], Raised LibraryError)
              | Some trained =>
                  let self := set_model self trained in
                  let last_sequence :=
                    slice_from scaled_data (- Z.of_nat (lookback self)) in
                  let '(log, out) :=
                    rollout trained (lookback self) days last_sequence [] in
                  match out with
                  | Raised e => (self, log, Raised e)
                  | Returned predictions =>
                      match inverse_transform fitted_scaler predictions with
                      | None => (self, log, Raised LibraryError)
                      | Some forecast_values =>
                          (self, log, Returned forecast_values)
                      end
                  end
              end
          end
      end
  end.

End Model.

End Lstm.

(** * Notions about the LSTM model *)

Module LstmSpec.
Import Lstm.

Open Scope R_scope.

(** The windows of [lookback] consecutive values of [data], first to last,
    one for each value that has [lookback] values before it. *)
Definition windows (lookback : nat) (data : list R) : list (list R) :=
  map (fun k => firstn lookback (skipn k data))
    (seq 0 (length data - lookback)).

(** The last [n] items of a list. *)
Definition last_values {A : Type} (n : nat) (l : list A) : list A :=
  skipn (length l - n) l.

Section Laws.

Context `{Keras}.

(** The network answers a batch of one window with one value. *)
Definition one_value_per_window : Prop :=
  forall network window values,
    network_predict network [window] = Some values -> length values = 1%nat.

(** The scaler returns as many scaled values as it was given prices. *)
Definition scaling_keeps_length : Prop :=
  forall prices fitted_scaler scaled_data,
    fit_transform prices = Some (fitted_scaler, scaled_data) ->
    length scaled_data = length prices.

End Laws.

(** A stand-in for the libraries: scaling halves and its inverse doubles,
    a network is the number of rows it was trained on, and it predicts the
    last value of each window. *)
Definition halving : Keras := {|
  MinMaxScaler := unit;
  Sequential := nat;
  fit_transform := fun prices => Some (tt, map (fun p => p / 2) prices);
  inverse_transform := fun _ values => Some (map (fun v => v * 2) values);
  build_model := fun _ => Some 0%nat;
  network_fit := fun _ X _ => Some (length X);
  network_predict := fun _ batch => Some (map (fun w => last w 0) batch)
|}.

(** Objects with a lookback of two days. *)
Definition two_day_model : @LSTMModel halving :=
  @mkLSTM halving None None 2.

(** The same object holding a scaler and a network. *)
Definition two_day_model_fitted : @LSTMModel halving :=
  @mkLSTM halving (Some 3%nat) (Some tt) 2.

Definition six_prices : list R := [2; 4; 6; 8; 10; 12].

End LstmSpec.

(** * logger.py *)

Module Logger.

Open Scope string_scope.

(** The file [LOG_FILE]: [None] while it does not exist, else the strings
    written to it so far, in order. *)
Definition File : Type := option (list string).

(** [os.path.exists(LOG_FILE)]. *)
Definition file_exists (f : File) : bool :=
  match f with
  | Some _ => true
  | None => false
  end.

(** What the file holds once it is opened with mode ['a'] (a missing file
    is created empty) or with mode ['w'] (always empty). *)
Definition open_append (f : File) : list string :=
  match f with
  | Some written => written
  | None => []
  end.

Definition open_write (f : File) : list string := [].

Definition newline : string := String (Ascii.ascii_of_nat 10) EmptyString.

(** [s * n] on strings. *)
Fixpoint times (s : string) (n : nat) : string :=
  match n with
  | O => EmptyString
  | S n' => s ++ times s n'
  end.

Definition title : string :=
  "=== TELEGRAM BOT STOCK FORECAST LOG ===" ++ newline.

Definition header : string :=
  "Timestamp | UserID | Ticker | Investment | Model | RMSE | Profit"
  ++ newline.

Definition rule : string := times "=" 80 ++ newline.

Section Entry.

(** Python's floats, the rendering of an integer and the rendering [:.2f]
    of a float. *)
Variable Float : Type.
Variable str : Z -> string.
Variable fixed2 : Float -> string.

(** The line of one request; [timestamp] is
    [datetime.now().strftime('%Y-%m-%d %H:%M:%S')]. *)
Definition log_entry (timestamp : string) (user_id : Z) (ticker : string)
    (investment_amount : Float) (model_name : string)
    (metric_value profit : Float) : string :=
  timestamp ++ " | " ++
  "UserID: " ++ str user_id ++ " | " ++
  "Ticker: " ++ ticker ++ " | " ++
  "Investment: $" ++ fixed2 investment_amount ++ " | " ++
  "Model: " ++ model_name ++ " | " ++
  "RMSE: " ++ fixed2 metric_value ++ " | " ++
  "Profit: $" ++ fixed2 profit ++ newline.

(** [log_request], on the file and the clock reading. *)
Definition log_request (timestamp : string) (user_id : Z) (ticker : string)
    (investment_amount : Float) (model_name : string)
    (metric_value profit : Float) (f : File) : File :=
  let entry :=
    log_entry timestamp user_id ticker investment_amount model_name
      metric_value profit in
  let is_new_file := negb (file_exists f) in
  let written := open_append f in
  let written :=
    if is_new_file then append (append written header) rule else written in
  Some (append written entry).

(** [create_log_header_if_needed]. *)
Definition create_log_header_if_needed (f : File) : File :=
  if negb (file_exists f) then
    Some (append (append (append (open_write f) title) header) rule)
  else f.

(** A call of one of the two functions. *)
Inductive LogCall : Type :=
  | LogRequest (timestamp : string) (user_id : Z) (ticker : string)
      (investment_amount : Float) (model_name : string)
      (metric_value profit : Float)
  | CreateHeader.

Definition after_log_call (f : File) (c : LogCall) : File :=
  match c with
  | LogRequest timestamp user_id ticker investment_amount model_name
      metric_value profit =>
      log_request timestamp user_id ticker investment_amount model_name
        metric_value profit f
  | CreateHeader => create_log_header_if_needed f
  end.

(** The file after a sequence of calls. *)
Definition after_log_calls (f : File) (calls : list LogCall) : File :=
  fold_left after_log_call calls f.

(** The lines of the requests among [calls], in order. *)
Definition entries (calls : list LogCall) : list string :=
  flat_map
    (fun c =>
       match c with
       | LogRequest timestamp user_id ticker investment_amount model_name
           metric_value profit =>
           [log_entry timestamp user_id ticker investment_amount model_name
              metric_value profit]
       | CreateHeader => []
       end)
    calls.

(** What the call that creates the file writes first. *)
Definition heading (c : LogCall) : list string :=
  match c with
  | LogRequest _ _ _ _ _ _ _ => [header; rule]
  | CreateHeader => [title; header; rule]
  end.

End Entry.

Arguments CreateHeader {Float}.

End Logger.

(** * Properties *)

(** ** Properties of the strategy simulator *)

Module TradingFacts.
Import Trading StrategySpec.
Open Scope Q_scope.

Lemma in_range (lo hi i : nat) : In i (range lo hi) <-> (lo <= i < hi)%nat.
Proof. unfold range. rewrite in_seq. lia. Qed.

Lemma Qlt_bool_iff (x y : Q) : Qlt_bool x y = true <-> x < y.
Proof.
  unfold Qlt_bool. rewrite negb_true_iff.
  split; intro H.
  - apply Qnot_le_lt. intro Hle. apply Qle_bool_iff in Hle. congruence.
  - destruct (Qle_bool y x) eqn:E; [|reflexivity].
    apply Qle_bool_iff in E. exfalso. exact (Qlt_not_le _ _ H E).
Qed.

Lemma Qlt_bool_false_iff (x y : Q) : Qlt_bool x y = false <-> ~ x < y.
Proof.
  rewrite <- Qlt_bool_iff. destruct (Qlt_bool x y); split; intro H;
    congruence.
Qed.

(** *** Extrema detection *)

(** The append loop is a filter followed by a map. *)
Lemma collect_loop (test : nat -> bool) (f : nat -> nat * Q) (idx : list nat)
    (acc : list (nat * Q)) :
  fold_left (fun acc i => if test i then append acc (f i) else acc) idx acc
  = acc ++ map f (filter test idx).
Proof.
  revert acc. induction idx as [|i idx IH]; intro acc; simpl.
  - now rewrite app_nil_r.
  - destruct (test i); rewrite IH; simpl; [|reflexivity].
    unfold append. now rewrite <- app_assoc.
Qed.

Lemma collect_filter (test : list Q -> nat -> bool) (forecast : list Q) :
  collect test forecast
  = map (fun i => ((i + 1)%nat, at_index forecast i))
      (filter (test forecast) (range 1 (length forecast - 1))).
Proof. unfold collect. now rewrite collect_loop. Qed.

(** Membership in one candidate list. *)
Lemma in_collect (test : list Q -> nat -> bool) (forecast : list Q)
    (d : nat) (p : Q) :
  In (d, p) (collect test forecast) <->
  exists i, (1 <= i)%nat /\ (i + 1 < length forecast)%nat /\
            d = (i + 1)%nat /\ p = at_index forecast i /\
            test forecast i = true.
Proof.
  rewrite collect_filter, in_map_iff. split.
  - intros (i & Heq & Hin). apply filter_In in Hin as [Hr Ht].
    apply in_range in Hr. injection Heq as <- <-.
    exists i. repeat split; try lia; assumption.
  - intros (i & H1 & H2 & -> & -> & Ht). exists i. split; [reflexivity|].
    apply filter_In. split; [apply in_range; lia|assumption].
Qed.

Lemma is_local_min_iff (forecast : list Q) (i : nat) :
  is_local_min forecast i = true <->
  at_index forecast i < at_index forecast (i - 1) /\
  at_index forecast i < at_index forecast (i + 1).
Proof. unfold is_local_min. now rewrite andb_true_iff, !Qlt_bool_iff. Qed.

Lemma is_local_max_iff (forecast : list Q) (i : nat) :
  is_local_max forecast i = true <->
  at_index forecast (i - 1) < at_index forecast i /\
  at_index forecast (i + 1) < at_index forecast i.
Proof. unfold is_local_max. now rewrite andb_true_iff, !Qlt_bool_iff. Qed.

(** *** The merged event list *)

Lemma insert_event_perm (e : Event) (l : list Event) :
  Permutation (e :: l) (insert_event e l).
Proof.
  induction l as [|x r IH]; simpl; [reflexivity|].
  destruct (event_day e <=? event_day x)%nat; [reflexivity|].
  rewrite perm_swap. now constructor.
Qed.

Lemma sort_by_day_perm (l : list Event) : Permutation l (sort_by_day l).
Proof.
  induction l as [|e r IH]; simpl; [constructor|].
  rewrite <- insert_event_perm. now constructor.
Qed.

Lemma insert_event_sorted (e : Event) (l : list Event) :
  StronglySorted day_le l -> StronglySorted day_le (insert_event e l).
Proof.
  induction 1 as [|x r Hs IH Hall]; simpl.
  - repeat constructor.
  - destruct (event_day e <=? event_day x)%nat eqn:E.
    + apply Nat.leb_le in E. constructor; [now constructor|].
      constructor; [exact E|].
      eapply Forall_impl; [|exact Hall]. unfold day_le. intros; lia.
    + apply Nat.leb_gt in E. constructor; [exact IH|].
      eapply Permutation_Forall; [apply insert_event_perm|].
      constructor; [unfold day_le; lia|exact Hall].
Qed.

Lemma sort_by_day_sorted (l : list Event) :
  StronglySorted day_le (sort_by_day l).
Proof.
  induction l as [|e r IH]; simpl; [constructor|].
  now apply insert_event_sorted.
Qed.

(** Sorted by day with pairwise distinct days is strictly increasing. *)
Lemma sorted_nodup_strict (l : list Event) :
  StronglySorted day_le l -> NoDup (map event_day l) ->
  StronglySorted day_lt l.
Proof.
  induction 1 as [|x r Hs IH Hall]; simpl; intro Hnd; [constructor|].
  inversion Hnd as [|? ? Hnotin Hnd']; subst.
  constructor; [now apply IH|].
  rewrite Forall_forall in *. intros y Hy.
  specialize (Hall y Hy). unfold day_le, day_lt in *.
  assert (event_day x <> event_day y).
  { intro Heq. apply Hnotin. rewrite Heq. now apply in_map. }
  lia.
Qed.

(** The days of one candidate list are pairwise distinct. *)
Lemma collect_days_nodup (test : list Q -> nat -> bool) (forecast : list Q) :
  NoDup (map fst (collect test forecast)).
Proof.
  rewrite collect_filter, map_map. simpl.
  apply Finite.Injective_map_NoDup.
  - intros a b. lia.
  - apply NoDup_filter. unfold range. apply seq_NoDup.
Qed.

(** No index is both a strict minimum and a strict maximum. *)
Lemma min_max_exclusive (forecast : list Q) (i : nat) :
  is_local_min forecast i = true -> is_local_max forecast i = true -> False.
Proof.
  rewrite is_local_min_iff, is_local_max_iff. intros [H1 _] [H2 _].
  exact (Qlt_irrefl _ (Qlt_trans _ _ _ H1 H2)).
Qed.

Lemma tagged_days (a : EventAction) (points : list (nat * Q)) :
  map event_day (tagged a points) = map fst points.
Proof. unfold tagged. rewrite map_map. reflexivity. Qed.

Lemma merged_days_nodup (forecast : list Q) :
  NoDup (map event_day
           (tagged buy (fst (find_local_extrema forecast)) ++
            tagged sell (snd (find_local_extrema forecast)))).
Proof.
  simpl. rewrite map_app, !tagged_days.
  apply NoDup_app; try apply collect_days_nodup.
  intros d Hmin Hmax.
  apply in_map_iff in Hmin as ([d1 p1] & <- & Hmin).
  apply in_map_iff in Hmax as ([d2 p2] & Heq & Hmax). simpl in *. subst d2.
  apply in_collect in Hmin as (i & _ & _ & -> & _ & Hi).
  apply in_collect in Hmax as (j & _ & _ & Hj & _ & Hj').
  assert (j = i) by lia. subst j.
  exact (min_max_exclusive _ _ Hi Hj').
Qed.

Lemma all_events_perm (forecast : list Q) :
  Permutation
    (all_events (fst (find_local_extrema forecast))
                (snd (find_local_extrema forecast)))
    (tagged buy (fst (find_local_extrema forecast)) ++
     tagged sell (snd (find_local_extrema forecast))).
Proof. unfold all_events. symmetry. apply sort_by_day_perm. Qed.

Lemma all_events_chronological (forecast : list Q) :
  StronglySorted day_lt
    (all_events (fst (find_local_extrema forecast))
                (snd (find_local_extrema forecast))).
Proof.
  apply sorted_nodup_strict.
  - apply sort_by_day_sorted.
  - eapply Permutation_NoDup; [|apply merged_days_nodup].
    apply Permutation_map. symmetry. apply all_events_perm.
Qed.

(** Every event carries the forecast value of its own day. *)
Lemma all_events_from_forecast (forecast : list Q) (e : Event) :
  In e (all_events (fst (find_local_extrema forecast))
                   (snd (find_local_extrema forecast))) ->
  (2 <= event_day e < length forecast)%nat /\
  event_price e = at_index forecast (event_day e - 1).
Proof.
  intro Hin.
  eapply Permutation_in in Hin; [|apply all_events_perm].
  apply in_app_or in Hin as [Hin|Hin];
    apply in_map_iff in Hin as ([d p] & <- & Hin); simpl in Hin;
    apply in_collect in Hin as (i & H1 & H2 & -> & -> & _);
    unfold event_day, event_price; simpl;
    (split; [lia|]); f_equal; lia.
Qed.

Lemma at_index_positive (forecast : list Q) (i : nat) :
  Forall (Qlt 0) forecast -> (i < length forecast)%nat ->
  0 < at_index forecast i.
Proof.
  intros Hall Hi. rewrite Forall_forall in Hall.
  apply Hall. unfold at_index. now apply nth_In.
Qed.

Lemma all_events_positive (forecast : list Q) :
  Forall (Qlt 0) forecast ->
  Forall (fun e => 0 < event_price e)
    (all_events (fst (find_local_extrema forecast))
                (snd (find_local_extrema forecast))).
Proof.
  intro Hpos. apply Forall_forall. intros e He.
  apply all_events_from_forecast in He as [Hd ->].
  apply at_index_positive; [assumption|lia].
Qed.

(** *** The simulation loop against the two-state machine *)

Lemma Qeq_bool_pos (x : Q) : 0 < x -> Qeq_bool x 0 = false.
Proof.
  intro H. destruct (Qeq_bool x 0) eqn:E; [|reflexivity].
  apply Qeq_bool_iff in E. rewrite E in H. now apply Qlt_irrefl in H.
Qed.

Lemma Qlt_bool_pos (x : Q) : 0 < x -> Qlt_bool 0 x = true.
Proof. apply Qlt_bool_iff. Qed.

Lemma Qdiv_pos (a b : Q) : 0 < a -> 0 < b -> 0 < a / b.
Proof.
  intros Ha Hb. apply Qlt_shift_div_l; [assumption|].
  now rewrite Qmult_0_l.
Qed.

Lemma trade_step_represents (st : SimState) (s : Position * list Trade)
    (ev : Event) :
  0 < event_price ev -> represents st s ->
  represents (trade_step st ev) (machine_step s ev).
Proof.
  destruct ev as [[d p] a]. destruct s as [pos trades].
  unfold event_price, represents; simpl. intros Hp [Htr Hpos]. subst trades.
  destruct pos as [cash|held].
  - destruct Hpos as [<- [Hsh Hcash]]. rewrite Hsh.
    destruct a; simpl.
    + repeat split. now apply Qdiv_pos.
    + repeat split; assumption.
  - destruct Hpos as [<- [Hc Hsh]].
    rewrite (Qeq_bool_pos _ Hsh), (Qlt_bool_pos _ Hsh), andb_false_r.
    destruct a; simpl.
    + repeat split; assumption.
    + repeat split. now apply Qmult_lt_0_compat.
Qed.

Lemma fold_represents (events : list Event) (st : SimState)
    (s : Position * list Trade) :
  Forall (fun e => 0 < event_price e) events -> represents st s ->
  represents (fold_left trade_step events st) (fold_left machine_step events s).
Proof.
  revert st s. induction events as [|ev events IH]; intros st s Hall Hrep.
  - exact Hrep.
  - inversion Hall; subst. simpl. apply IH; [assumption|].
    now apply trade_step_represents.
Qed.

Lemma run_events_represents (events : list Event) (investment_amount : Q) :
  0 < investment_amount ->
  Forall (fun e => 0 < event_price e) events ->
  represents (run_events investment_amount events)
    (fold_left machine_step events (Flat investment_amount, [])).
Proof.
  intros Ha Hall. apply fold_represents; [assumption|].
  repeat split. exact Ha.
Qed.

(** After the end-of-period test the machine is flat and the loop's
    variables hold its cash. *)
Lemma liquidate_represents (forecast : list Q) (st : SimState)
    (s : Position * list Trade) :
  represents st s ->
  force_liquidate forecast s
  = (Flat (sim_cash (liquidate forecast st)),
     sim_trades (liquidate forecast st)) /\
  sim_shares (liquidate forecast st) = 0.
Proof.
  destruct s as [pos trades]. unfold represents, force_liquidate, liquidate.
  simpl. intros [-> Hpos]. destruct pos as [cash|held].
  - destruct Hpos as [<- [Hsh _]]. rewrite Hsh. simpl. now rewrite Hsh.
  - destruct Hpos as [<- [_ Hsh]]. rewrite (Qlt_bool_pos _ Hsh). simpl.
    split; reflexivity.
Qed.


(** *** The result dictionary in terms of the final loop state *)

Lemma simulate_unfold (forecast : list Q) (investment_amount : Q) :
  simulate forecast investment_amount
  = liquidate forecast
      (run_events investment_amount
         (all_events (fst (find_local_extrema forecast))
                     (snd (find_local_extrema forecast)))).
Proof. reflexivity. Qed.

Lemma strategy_of_simulation (current_price : Q) (forecast : list Q)
    (investment_amount : Q) :
  sim_shares (simulate forecast investment_amount) = 0 ->
  let r := calculate_investment_strategy current_price forecast
             investment_amount in
  recommendations r = sim_trades (simulate forecast investment_amount) /\
  final_amount r = sim_cash (simulate forecast investment_amount) /\
  trades_count r = length (recommendations r) /\
  total_profit r == final_amount r - investment_amount /\
  profit_percentage r == total_profit r / investment_amount * 100.
Proof.
  intro Hfinal. unfold calculate_investment_strategy.
  set (st := simulate forecast investment_amount) in *.
  assert (Hst : st = simulate forecast investment_amount) by reflexivity.
  unfold simulate in Hst.
  change (find_local_extrema forecast)
    with (collect is_local_min forecast, collect is_local_max forecast) in *.
  cbv beta iota zeta in *.
  destruct (collect is_local_min forecast) as [|b bs];
    [destruct (collect is_local_max forecast) as [|m ms]|]; simpl is_empty;
    cbv beta iota; simpl andb; cbv iota.
  - cbn [recommendations final_amount trades_count total_profit
         profit_percentage].
    rewrite Hst. repeat apply conj; try reflexivity. ring.
  - rewrite Hfinal. simpl. repeat split; reflexivity.
  - rewrite Hfinal. simpl. repeat split; reflexivity.
Qed.

(** *** Alternation of the executed trades *)







(** *** Replaying the executed trades *)

Lemma replay_snoc (investment_amount : Q) (trades : list Trade) (t : Trade) :
  replay investment_amount (append trades t)
  = replay_step (replay investment_amount trades) t.
Proof. unfold replay, append. now rewrite fold_left_app. Qed.

Lemma trade_step_replay (investment_amount : Q) (st : SimState) (ev : Event) :
  replay_agrees investment_amount st ->
  replay_agrees investment_amount (trade_step st ev).
Proof.
  destruct ev as [[d p] a]. unfold replay_agrees, trade_step. intro H.
  destruct (is_buy a && Qeq_bool (sim_shares st) 0);
    [|destruct (is_sell a && Qlt_bool 0 (sim_shares st))];
    cbn [sim_trades sim_cash sim_shares]; try exact H;
    rewrite replay_snoc, H; reflexivity.
Qed.

Lemma liquidate_replay (investment_amount : Q) (forecast : list Q)
    (st : SimState) :
  replay_agrees investment_amount st ->
  replay_agrees investment_amount (liquidate forecast st).
Proof.
  unfold replay_agrees, liquidate. intro H.
  destruct (Qlt_bool 0 (sim_shares st));
    cbn [sim_trades sim_cash sim_shares]; try exact H.
  rewrite replay_snoc, H. reflexivity.
Qed.

Lemma simulate_replay (forecast : list Q) (investment_amount : Q) :
  replay_agrees investment_amount (simulate forecast investment_amount).
Proof.
  rewrite simulate_unfold. apply liquidate_replay. unfold run_events.
  assert (H0 : replay_agrees investment_amount (mkSim [] investment_amount 0))
    by reflexivity.
  revert H0. generalize (mkSim [] investment_amount 0).
  induction (all_events _ _) as [|ev events IH]; intros st Hst; simpl;
    [exact Hst|].
  apply IH. now apply trade_step_replay.
Qed.

(** *** Where the prices of the executed trades come from *)

Lemma last_price_at_index (forecast : list Q) :
  last_price forecast = at_index forecast (length forecast - 1).
Proof.
  unfold last_price, at_index.
  destruct forecast as [|x forecast]; [reflexivity|].
  destruct (exists_last (l := x :: forecast)) as (l & a & ->);
    [discriminate|].
  rewrite last_last, last_length. simpl. rewrite Nat.sub_0_r.
  now rewrite nth_middle.
Qed.

Lemma trade_step_priced (forecast : list Q) (st : SimState) (ev : Event) :
  (2 <= event_day ev < length forecast)%nat ->
  event_price ev = at_index forecast (event_day ev - 1) ->
  Forall (priced_by forecast) (sim_trades st) ->
  Forall (priced_by forecast) (sim_trades (trade_step st ev)).
Proof.
  destruct ev as [[d p] a]. unfold event_day, event_price, trade_step.
  simpl fst; simpl snd. intros Hd Hp Hall.
  destruct (is_buy a && Qeq_bool (sim_shares st) 0);
    [|destruct (is_sell a && Qlt_bool 0 (sim_shares st))];
    cbn [sim_trades]; try exact Hall.
  all: apply Forall_app; split; [exact Hall|].
  all: constructor; [|constructor]; split; simpl; [lia|exact Hp].
Qed.

Lemma liquidate_priced (forecast : list Q) (st : SimState) :
  forecast <> [] ->
  Forall (priced_by forecast) (sim_trades st) ->
  Forall (priced_by forecast) (sim_trades (liquidate forecast st)).
Proof.
  intros Hne Hall. unfold liquidate.
  destruct (Qlt_bool 0 (sim_shares st)); cbn [sim_trades]; try exact Hall.
  apply Forall_app; split; [exact Hall|].
  constructor; [|constructor]. split; simpl.
  - destruct forecast; [congruence|simpl; lia].
  - apply last_price_at_index.
Qed.

Lemma simulate_priced (forecast : list Q) (investment_amount : Q) :
  Forall (priced_by forecast)
    (sim_trades (simulate forecast investment_amount)).
Proof.
  destruct forecast as [|x forecast]; [constructor|].
  rewrite simulate_unfold. apply liquidate_priced; [discriminate|].
  unfold run_events.
  assert (H0 : Forall (priced_by (x :: forecast))
                 (sim_trades (mkSim [] investment_amount 0)))
    by constructor.
  revert H0. generalize (mkSim [] investment_amount 0).
  pose proof (all_events_from_forecast (x :: forecast)) as Hev.
  induction (all_events _ _) as [|ev events IH]; intros st Hst; simpl;
    [exact Hst|].
  apply IH.
  - intros e He. apply Hev. now right.
  - destruct (Hev ev (or_introl eq_refl)) as [Hd Hp].
    now apply trade_step_priced.
Qed.

(** *** The final state *)


Lemma simulate_represents (forecast : list Q) (investment_amount : Q) :
  0 < investment_amount -> Forall (Qlt 0) forecast ->
  walk forecast investment_amount
    (all_events (fst (find_local_extrema forecast))
                (snd (find_local_extrema forecast)))
  = (Flat (sim_cash (simulate forecast investment_amount)),
     sim_trades (simulate forecast investment_amount)) /\
  sim_shares (simulate forecast investment_amount) = 0.
Proof.
  intros Ha Hpos. rewrite simulate_unfold. unfold walk.
  apply liquidate_represents, run_events_represents; [assumption|].
  now apply all_events_positive.
Qed.



(** *** The claims about the strategy simulator *)

Section Claims.

Variable current_price : Q.
Variable forecast : list Q.
Variable investment_amount : Q.



(** C9.  On a forecast of positive prices and for a positive investment
    amount: replaying the returned trades from the investment amount ends
    with the reported final amount as cash and no shares; every returned
    trade carries the forecast value of its own day; the total profit is the
    final amount minus the investment amount; and the profit percentage is
    the total profit over the investment amount, times 100. *)
Theorem replay_reproduces_result :
  0 < investment_amount -> Forall (Qlt 0) forecast ->
  replay investment_amount
    (recommendations
       (calculate_investment_strategy current_price forecast
          investment_amount))
  = (final_amount
       (calculate_investment_strategy current_price forecast
          investment_amount), 0) /\
  Forall (priced_by forecast)
    (recommendations
       (calculate_investment_strategy current_price forecast
          investment_amount)) /\
  total_profit
    (calculate_investment_strategy current_price forecast investment_amount)
  == final_amount
       (calculate_investment_strategy current_price forecast
          investment_amount) - investment_amount /\
  profit_percentage
    (calculate_investment_strategy current_price forecast investment_amount)
  == total_profit
       (calculate_investment_strategy current_price forecast
          investment_amount) / investment_amount * 100.
Proof.
  intros Ha Hpos.
  destruct (simulate_represents forecast investment_amount Ha Hpos)
    as [_ Hsh].
  destruct (strategy_of_simulation current_price forecast investment_amount
              Hsh) as (Hrec & Hfin & _ & Hprofit & Hpct).
  split; [|split; [|split]]; try assumption.
  - rewrite Hrec, Hfin, <- Hsh. apply simulate_replay.
  - rewrite Hrec. apply simulate_priced.
Qed.

End Claims.

(** C10.  The current price has no influence on the result: any two values
    of it give the same dictionary, whatever the forecast and the amount. *)
Theorem current_price_is_ignored
    (price1 price2 : Q) (forecast : list Q) (investment_amount : Q) :
  calculate_investment_strategy price1 forecast investment_amount
  = calculate_investment_strategy price2 forecast investment_amount.
Proof. reflexivity. Qed.

(** C4.  A (day, price) pair is a buy candidate exactly when it is
    [(i + 1, forecast[i])] for an interior index [i] whose value is strictly
    below both neighbours, and a sell candidate exactly when strictly above
    both; on [10, 8, 12, 7, 15, 15, 9] the buy candidates are day 2 at 8 and
    day 4 at 7, and the only sell candidate is day 3 at 12. *)
Theorem extrema_are_strict_interior :
  (forall (forecast : list Q) (d : nat) (p : Q),
      (In (d, p) (fst (find_local_extrema forecast)) <->
       exists i, (1 <= i)%nat /\ (i + 1 < length forecast)%nat /\
                 d = (i + 1)%nat /\ p = at_index forecast i /\
                 at_index forecast i < at_index forecast (i - 1) /\
                 at_index forecast i < at_index forecast (i + 1)) /\
      (In (d, p) (snd (find_local_extrema forecast)) <->
       exists i, (1 <= i)%nat /\ (i + 1 < length forecast)%nat /\
                 d = (i + 1)%nat /\ p = at_index forecast i /\
                 at_index forecast (i - 1) < at_index forecast i /\
                 at_index forecast (i + 1) < at_index forecast i)) /\
  find_local_extrema [10; 8; 12; 7; 15; 15; 9]
  = ([(2%nat, 8); (4%nat, 7)], [(3%nat, 12)]).
Proof.
  split; [|reflexivity].
  intros forecast d p. simpl. rewrite !in_collect. split.
  - split; intros (i & H1 & H2 & H3 & H4 & H5); exists i;
      [apply is_local_min_iff in H5|apply is_local_min_iff in H5];
      tauto.
  - split; intros (i & H1 & H2 & H3 & H4 & H5); exists i;
      [apply is_local_max_iff in H5|apply is_local_max_iff in H5];
      tauto.
Qed.

(** A value equal to one of its neighbours is no candidate of either kind. *)
Lemma ties_are_not_candidates (forecast : list Q) (i : nat) (p : Q) :
  at_index forecast i == at_index forecast (i - 1) \/
  at_index forecast i == at_index forecast (i + 1) ->
  ~ In ((i + 1)%nat, p) (fst (find_local_extrema forecast)) /\
  ~ In ((i + 1)%nat, p) (snd (find_local_extrema forecast)).
Proof.
  intro Htie. simpl. rewrite !in_collect.
  split; intros (j & _ & _ & Hj & _ & Ht); assert (j = i) by lia; subst j.
  - apply is_local_min_iff in Ht as [H1 H2].
    destruct Htie as [E|E]; rewrite E in *; eapply Qlt_irrefl; eassumption.
  - apply is_local_max_iff in Ht as [H1 H2].
    destruct Htie as [E|E]; rewrite E in *; eapply Qlt_irrefl; eassumption.
Qed.


(** *** The claims at the specification's sample forecast *)

Lemma sample_amount_positive : 0 < 1000.
Proof. reflexivity. Defined.

Lemma sample_forecast_positive : Forall (Qlt 0) sample_forecast.
Proof. repeat constructor. Defined.



Lemma replay_reproduces_result_sample :
  0 < 1000 /\ Forall (Qlt 0) sample_forecast /\
  replay 1000
    (recommendations
       (calculate_investment_strategy 10 sample_forecast 1000))
  = (final_amount
       (calculate_investment_strategy 10 sample_forecast 1000), 0).
Proof.
  split; [exact sample_amount_positive|].
  split; [exact sample_forecast_positive|].
  exact (proj1 (replay_reproduces_result 10 sample_forecast 1000
                  sample_amount_positive sample_forecast_positive)).
Defined.

(** The run on the sample forecast: buy on day 2 at 8, sell on day 3 at 12,
    buy on day 4 at 7, forced sale on day 7 at 9. *)
Example strategy_on_sample_forecast :
  map (fun t => (day t, action t, price t))
    (recommendations (calculate_investment_strategy 10 sample_forecast 1000))
  = [(2%nat, Buy, 8); (3%nat, Sell, 12); (4%nat, Buy, 7);
     (7%nat, SellEndOfPeriod, 9)] /\
  final_amount (calculate_investment_strategy 10 sample_forecast 1000)
  == 13500 / 7.
Proof. split; reflexivity. Qed.

(** Outside the domain of positive prices the loop is not the two-state
    machine: a purchase at a negative forecast value leaves a negative
    number of shares, which neither test of the loop nor the end-of-period
    test matches, so nothing is ever sold. *)
Example negative_price_is_outside_the_domain :
  let r := calculate_investment_strategy 10 [5; -1; 5; 7; 6] 1000 in
  map (fun t => (day t, action t, price t)) (recommendations r)
  = [(2%nat, Buy, -1)] /\
  sim_shares (simulate [5; -1; 5; 7; 6] 1000) == -1000.
Proof. split; reflexivity. Qed.



(** C9 as stated ("for every forecast") fails on the code: on the forecast
    [5, -1, 5, 7, 6] replaying the returned trades from the investment
    amount ends with no cash and -1000 shares, while the reported
    [final_amount] is -6000. *)
Lemma negative_price_replay_misses_the_final_amount :
  fst (replay 1000
         (recommendations
            (calculate_investment_strategy 10 [5; -1; 5; 7; 6] 1000)))
  == 0 /\
  snd (replay 1000
         (recommendations
            (calculate_investment_strategy 10 [5; -1; 5; 7; 6] 1000)))
  == -1000 /\
  final_amount (calculate_investment_strategy 10 [5; -1; 5; 7; 6] 1000)
  == -6000 /\
  ~ fst (replay 1000
           (recommendations
              (calculate_investment_strategy 10 [5; -1; 5; 7; 6] 1000)))
    == final_amount
         (calculate_investment_strategy 10 [5; -1; 5; 7; 6] 1000).
Proof.
  split; [reflexivity|]. split; [reflexivity|]. split; [reflexivity|].
  intro E. vm_compute in E. discriminate E.
Qed.

End TradingFacts.

(** ** Properties of the metrics *)

Module MetricsFacts.
Import Metrics.
Open Scope R_scope.

Lemma broadcast_same_length {A : Type} (f : R -> R -> A) (xs ys : list R) :
  length xs = length ys ->
  broadcast f xs ys
  = Some (map (fun xy => f (fst xy) (snd xy)) (combine xs ys)).
Proof. intro H. unfold broadcast. now rewrite H, Nat.eqb_refl. Qed.

Lemma combine_self_map {A : Type} (f : R -> R -> A) (y : list R) :
  map (fun xy => f (fst xy) (snd xy)) (combine y y) = map (fun v => f v v) y.
Proof. induction y as [|v y IH]; simpl; [reflexivity|now rewrite IH]. Qed.

(** The residuals of an array against itself are all zero. *)
Lemma residuals_of_identical (y : list R) :
  broadcast Rminus y y = Some (repeat 0 (length y)).
Proof.
  rewrite broadcast_same_length, combine_self_map by reflexivity. f_equal.
  induction y as [|v y IH]; simpl; [reflexivity|].
  rewrite IH. f_equal. unfold Rminus. apply Rplus_opp_r.
Qed.

Lemma map_repeat {A B : Type} (f : A -> B) (a : A) (n : nat) :
  map f (repeat a n) = repeat (f a) n.
Proof. induction n as [|n IH]; simpl; [reflexivity|now rewrite IH]. Qed.

Lemma np_sum_zeros (n : nat) : np_sum (repeat 0 n) = 0.
Proof. induction n as [|n IH]; simpl; [reflexivity|]. rewrite IH. lra. Qed.

Lemma np_mean_zeros (n : nat) : np_mean (repeat 0 (S n)) = fin 0.
Proof.
  unfold np_mean. change (repeat 0 (S n)) with (0 :: repeat 0 n) at 1.
  cbv iota. rewrite np_sum_zeros. f_equal. unfold Rdiv. apply Rmult_0_l.
Qed.

Lemma square_zero : 0 ^ 2 = 0.
Proof. simpl. lra. Qed.

(** Zero residuals over non-zero actual values give zero ratios. *)
Lemma ratios_of_zero_residuals (y : list R) :
  Forall (fun v => v <> 0) y ->
  broadcast fdiv (repeat 0 (length y)) y = Some (repeat (fin 0) (length y)).
Proof.
  intro Hnz. rewrite broadcast_same_length by apply repeat_length. f_equal.
  induction Hnz as [|v y Hv _ IH]; simpl; [reflexivity|].
  rewrite IH. f_equal. unfold fdiv.
  destruct (Req_dec_T v 0) as [E|_]; [contradiction|].
  f_equal. unfold Rdiv. apply Rmult_0_l.
Qed.

Lemma all_finite_repeat (r : R) (n : nat) :
  all_finite (repeat (fin r) n) = Some (repeat r n).
Proof. induction n as [|n IH]; simpl; [reflexivity|now rewrite IH]. Qed.

(** A zero actual value gives a ratio that is not a finite number. *)
Lemma ratios_with_zero_actual (residuals y : list R) :
  length residuals = length y ->
  Exists (fun v => v = 0) y ->
  exists ratios,
    broadcast fdiv residuals y = Some ratios /\
    all_finite (map (number_map Rabs) ratios) = None.
Proof.
  intros Hlen Hz. rewrite broadcast_same_length by assumption.
  eexists; split; [reflexivity|].
  revert residuals Hlen.
  induction Hz as [v y Hv|v y _ IH]; intros [|d residuals] Hlen;
    try discriminate; simpl.
  - unfold fdiv. subst v. destruct (Req_dec_T 0 0) as [_|N];
      [reflexivity|now contradiction N].
  - injection Hlen as Hlen. rewrite (IH _ Hlen).
    now destruct (number_map Rabs (fdiv d v)).
Qed.

(** The value of [calculate_metrics] on equal lengths, step by step. *)
Lemma calculate_metrics_same_length (y_true y_pred : list R) :
  length y_true = length y_pred ->
  exists m, calculate_metrics y_true y_pred = Some m /\
    (y_true <> [] -> exists r, RMSE m = fin r) /\
    R2 m = (if Req_dec_T (total_variance y_true) 0 then 0
            else 1 - np_sum (map (fun d => d ^ 2)
                               (map (fun xy => fst xy - snd xy)
                                  (combine y_true y_pred)))
                     / total_variance y_true).
Proof.
  intro Hlen. unfold calculate_metrics.
  rewrite (broadcast_same_length Rminus) by assumption.
  rewrite (broadcast_same_length fdiv)
    by (rewrite length_map, length_combine, <- Hlen; apply Nat.min_id).
  eexists; split; [reflexivity|]. split; [|reflexivity].
  intro Hne. cbn [RMSE].
  destruct y_true as [|a y_true]; [congruence|].
  destruct y_pred as [|b y_pred]; [discriminate|].
  simpl. eexists. reflexivity.
Qed.

(** Zero total variance gives [R2 = 0], whatever the predictions. *)
Lemma zero_variance_R2 (y_true y_pred : list R) (m : MetricsDict) :
  calculate_metrics y_true y_pred = Some m ->
  total_variance y_true = 0 -> R2 m = 0.
Proof.
  unfold calculate_metrics. intros H Hvar.
  destruct (broadcast Rminus y_true y_pred) as [diff|]; [|discriminate].
  destruct (broadcast fdiv diff y_true) as [ratios|]; [|discriminate].
  injection H as <-. cbn [R2].
  destruct (Req_dec_T (total_variance y_true) 0); [reflexivity|contradiction].
Qed.

(** The guard of the last metric. *)
Lemma zero_variance (y_true y_pred : list R) :
  length y_true = length y_pred ->
  total_variance y_true = 0 ->
  exists m, calculate_metrics y_true y_pred = Some m /\ R2 m = 0.
Proof.
  intros Hlen Hvar.
  destruct (calculate_metrics_same_length y_true y_pred Hlen)
    as (m & Hm & _ & _).
  exists m. split; [exact Hm|]. now apply (zero_variance_R2 _ _ _ Hm).
Qed.

(** C6, as the code has it.  For an array that is non-empty and is both the
    actual and the predicted one, [calculate_metrics] returns RMSE = 0 and
    MAE = 0, MAPE = 0 when no actual value is zero, and R2 = 1 when the
    total variance of the array is not zero.  For arrays of equal length
    whose actual values have zero total variance, it returns R2 = 0. *)
Theorem metrics_of_identical_arrays :
  (forall y : list R,
      y <> [] ->
      exists m, calculate_metrics y y = Some m /\
        RMSE m = fin 0 /\ MAE m = fin 0 /\
        (Forall (fun v => v <> 0) y -> MAPE m = fin 0) /\
        (total_variance y <> 0 -> R2 m = 1)) /\
  (forall y_true y_pred : list R,
      length y_true = length y_pred ->
      total_variance y_true = 0 ->
      exists m, calculate_metrics y_true y_pred = Some m /\ R2 m = 0).
Proof.
  split; [|exact zero_variance].
  intros y Hne. unfold calculate_metrics.
  rewrite residuals_of_identical.
  destruct (broadcast fdiv (repeat 0 (length y)) y) as [ratios|] eqn:Hr.
  2:{ rewrite broadcast_same_length in Hr by apply repeat_length.
      discriminate. }
  eexists; split; [reflexivity|]. cbn [RMSE MAE MAPE R2].
  assert (Hlen : exists n, length y = S n).
  { destruct y; [congruence|]. simpl. eauto. }
  destruct Hlen as [n Hn]. rewrite Hn in *.
  rewrite !map_repeat, square_zero, Rabs_R0, np_mean_zeros.
  cbn [number_map]. rewrite sqrt_0.
  split; [reflexivity|]. split; [reflexivity|]. split.
  - intro Hnz. apply ratios_of_zero_residuals in Hnz.
    rewrite Hn, Hr in Hnz. injection Hnz as ->.
    change (fin 0 :: repeat (fin 0) n) with (repeat (fin 0) (S n)).
    rewrite map_repeat. cbn [number_map]. rewrite Rabs_R0.
    unfold np_mean_numbers. rewrite all_finite_repeat, np_mean_zeros.
    cbn [number_map]. f_equal. apply Rmult_0_l.
  - intro Hvar. destruct (Req_dec_T (total_variance y) 0); [contradiction|].
    rewrite np_sum_zeros. unfold Rdiv. rewrite Rmult_0_l. apply Rminus_0_r.
Qed.

Lemma constant_array_variance : total_variance [5; 5] = 0.
Proof. unfold total_variance, centered. simpl. field. Defined.

Lemma metrics_of_identical_arrays_sample :
  ([1; 2] <> [] /\
   exists m, calculate_metrics [1; 2] [1; 2] = Some m /\
             RMSE m = fin 0 /\ MAE m = fin 0) /\
  (length [5; 5] = length [4; 6] /\ total_variance [5; 5] = 0 /\
   exists m, calculate_metrics [5; 5] [4; 6] = Some m /\ R2 m = 0).
Proof.
  split.
  - split; [discriminate|].
    destruct (proj1 metrics_of_identical_arrays [1; 2])
      as (m & H1 & H2 & H3 & _); [discriminate|].
    exists m. repeat split; assumption.
  - split; [reflexivity|]. split; [exact constant_array_variance|].
    exact (proj2 metrics_of_identical_arrays [5; 5] [4; 6] eq_refl
             constant_array_variance).
Defined.

(** C6 as stated fails on the code: the one-value array [5] against itself
    has zero total variance, so the guard returns R2 = 0, not 1; and with a
    zero among the actual values MAPE is 0/0, not 0. *)
Lemma identical_arrays_without_variance_or_with_zero :
  (exists m, calculate_metrics [5] [5] = Some m /\ R2 m = 0 /\ R2 m <> 1) /\
  (exists m, calculate_metrics [0; 1] [0; 1] = Some m /\
             MAPE m = nonfinite /\ MAPE m <> fin 0).
Proof.
  split.
  - assert (Hvar : total_variance [5] = 0).
    { unfold total_variance, centered. simpl. field. }
    destruct (zero_variance [5] [5] eq_refl Hvar) as (m & Hm & HR).
    exists m. rewrite HR. repeat split; [assumption|lra].
  - unfold calculate_metrics. rewrite residuals_of_identical.
    destruct (ratios_with_zero_actual (repeat 0 (length [0; 1])) [0; 1])
      as (ratios & Hr & Hnf).
    + reflexivity.
    + now left.
    + rewrite Hr. eexists; split; [reflexivity|]. cbn [MAPE].
      unfold np_mean_numbers. rewrite Hnf. split; [reflexivity|discriminate].
Qed.

End MetricsFacts.

(** ** Properties of the evaluation harness *)

Module HarnessFacts.
Import Metrics Harness HarnessSpec MetricsFacts.

(** *** Dictionaries *)

Lemma dict_set_fresh {V : Type} (d : dict V) (k : string) (v : V) :
  ~ In k (keys d) -> dict_set d k v = d ++ [(k, v)].
Proof.
  induction d as [|[k' v'] d IH]; simpl; intro Hk; [reflexivity|].
  destruct (String.eqb_spec k' k) as [->|_]; [tauto|].
  rewrite IH; [reflexivity|tauto].
Qed.

Lemma dict_get_item {V : Type} (d : dict V) (k : string) (v : V) :
  NoDup (keys d) -> In (k, v) d -> dict_get d k = Some v.
Proof.
  induction d as [|[k' v'] d IH]; simpl; intros Hnd Hin; [contradiction|].
  inversion Hnd as [|? ? Hnotin Hnd']; subst.
  destruct Hin as [Heq|Hin].
  - injection Heq as -> ->. now rewrite String.eqb_refl.
  - destruct (String.eqb_spec k' k) as [->|_]; [|now apply IH].
    exfalso. apply Hnotin. change k with (fst (k, v)). now apply in_map.
Qed.

Lemma dict_get_absent {V : Type} (d : dict V) (k : string) :
  ~ In k (keys d) -> dict_get d k = None.
Proof.
  induction d as [|[k' v'] d IH]; simpl; intro Hk; [reflexivity|].
  destruct (String.eqb_spec k' k) as [->|_]; [tauto|].
  apply IH. tauto.
Qed.

(** *** [min] with a key *)

Ltac in_lists := repeat (rewrite in_app_iff || simpl In); tauto.
Ltac same_lists := repeat (rewrite <- app_assoc; simpl); reflexivity.

Lemma min_by_in {A : Type} (key : A -> number) (rest : list A) (best : A) :
  In (min_by key best rest) (best :: rest).
Proof.
  revert best. induction rest as [|x rest IH]; intro best; simpl;
    [now left|].
  destruct (number_lt (key x) (key best)).
  - right. apply IH.
  - destruct (IH best) as [H|H]; [now left|now right; right].
Qed.

Lemma min_by_map {A B : Type} (f : A -> B) (key : B -> number)
    (rest : list A) (best : A) :
  min_by key (f best) (map f rest)
  = f (min_by (fun a => key (f a)) best rest).
Proof.
  revert best. induction rest as [|x rest IH]; intro best; simpl;
    [reflexivity|].
  destruct (number_lt (key (f x)) (key (f best))); apply IH.
Qed.

Lemma min_by_ext {A : Type} (key1 key2 : A -> number) (rest : list A)
    (best : A) :
  (forall a, In a (best :: rest) -> key1 a = key2 a) ->
  min_by key1 best rest = min_by key2 best rest.
Proof.
  revert best. induction rest as [|x rest IH]; intros best H; simpl;
    [reflexivity|].
  rewrite (H x) by (right; now left). rewrite (H best) by now left.
  destruct (number_lt (key2 x) (key2 best)); apply IH; intros a [<-|Ha];
    apply H; simpl; auto.
Qed.

Lemma number_lt_fin (x y : R) :
  number_lt (fin x) (fin y) = true <-> (x < y)%R.
Proof.
  simpl. destruct (Rlt_dec x y); split; intro H; try reflexivity;
    try assumption; try discriminate; contradiction.
Qed.

(** The running minimum is the first minimal item: what stands before it is
    strictly larger, what stands after it is at least as large. *)
Lemma min_by_first {A : Type} (key : A -> number) (val : A -> R)
    (rest before after : list A) (best : A) :
  (forall a, In a (before ++ best :: after ++ rest) -> key a = fin (val a)) ->
  (forall a, In a before -> (val best < val a)%R) ->
  (forall a, In a after -> (val best <= val a)%R) ->
  exists before' after',
    before ++ best :: after ++ rest
    = before' ++ min_by key best rest :: after' /\
    (forall a, In a before' -> (val (min_by key best rest) < val a)%R) /\
    (forall a, In a after' -> (val (min_by key best rest) <= val a)%R).
Proof.
  revert before after best.
  induction rest as [|x rest IH]; intros before after best Hfin Hb Ha.
  - exists before, after. rewrite app_nil_r. simpl. auto.
  - simpl min_by.
    assert (Hx : key x = fin (val x)).
    { apply Hfin. rewrite !in_app_iff. simpl. rewrite in_app_iff.
      simpl. tauto. }
    assert (Hbest : key best = fin (val best)).
    { apply Hfin. rewrite in_app_iff. simpl. tauto. }
    rewrite Hx, Hbest.
    destruct (number_lt (fin (val x)) (fin (val best))) eqn:E.
    + apply number_lt_fin in E.
      destruct (IH (before ++ best :: after) [] x) as (b' & a' & Heq & H1 & H2).
      * intros a Hin. apply Hfin. revert Hin. in_lists.
      * intros a Hin. apply in_app_iff in Hin as [Hin|[<-|Hin]].
        -- specialize (Hb a Hin). lra.
        -- exact E.
        -- specialize (Ha a Hin). lra.
      * intros a [].
      * exists b', a'. split; [|auto]. rewrite <- Heq. same_lists.
    + assert (Hle : (val best <= val x)%R).
      { destruct (Rle_or_lt (val best) (val x)) as [H|H]; [exact H|].
        apply number_lt_fin in H. congruence. }
      destruct (IH before (after ++ [x]) best) as (b' & a' & Heq & H1 & H2).
      * intros a Hin. apply Hfin. revert Hin. in_lists.
      * exact Hb.
      * intros a Hin. apply in_app_iff in Hin as [Hin|[<-|[]]]; auto.
      * exists b', a'. split; [|auto]. rewrite <- Heq. same_lists.
Qed.

(** *** The loop over the models *)

Section Loop.

Context {DataFrame : Type}.
Implicit Types (m : Model DataFrame) (models : list (Model DataFrame)).
Implicit Types (df : DataFrame).

Lemma try_model_outcome df m
    (results : dict (Model DataFrame * MetricsDict))
    (all_metrics : dict MetricsDict) :
  try_model df (results, all_metrics) m
  = match outcome df m with
    | Some mt => (dict_set results (name m) (m, mt),
                  dict_set all_metrics (name m) mt)
    | None => (results, all_metrics)
    end.
Proof.
  unfold try_model, outcome. destruct (train m df) as [[y_test y_pred]|];
    [|reflexivity].
  now destruct (calculate_metrics y_test y_pred).
Qed.

Lemma survivors_cons df m models :
  survivors (m :: models) df
  = match outcome df m with Some mt => [(m, mt)] | None => [] end
    ++ survivors models df.
Proof. reflexivity. Qed.

Lemma survivors_names df models :
  forall s, In s (survivors models df) ->
            In (fst s) models /\ outcome df (fst s) = Some (snd s).
Proof.
  intros [m mt] Hin. unfold survivors in Hin.
  apply in_flat_map in Hin as (m' & Hm' & Hin).
  destruct (outcome df m') as [mt'|] eqn:E; [|contradiction].
  destruct Hin as [Heq|[]]. injection Heq as <- <-. simpl. auto.
Qed.

Lemma survivors_nodup df models :
  NoDup (map name models) ->
  NoDup (map (fun s => name (fst s)) (survivors models df)).
Proof.
  induction models as [|m models IH]; simpl; intro Hnd; [constructor|].
  inversion Hnd as [|? ? Hnotin Hnd']; subst.
  rewrite map_app. destruct (outcome df m) as [mt|]; simpl; [|now apply IH].
  constructor; [|now apply IH].
  intro Hin. apply Hnotin. apply in_map_iff in Hin as (s & <- & Hs).
  apply in_map. now apply survivors_names in Hs.
Qed.

(** The two dictionaries hold the survivors, in enumeration order. *)
Lemma fold_try_model df models :
  forall (results : dict (Model DataFrame * MetricsDict))
         (all_metrics : dict MetricsDict),
    NoDup (map name models) ->
    (forall m, In m models ->
               ~ In (name m) (keys results) /\
               ~ In (name m) (keys all_metrics)) ->
    fold_left (try_model df) models (results, all_metrics)
    = (results ++ map results_item (survivors models df),
       all_metrics ++ map metrics_item (survivors models df)).
Proof.
  induction models as [|m models IH]; intros results all_metrics Hnd Hfresh.
  - simpl. now rewrite !app_nil_r.
  - inversion Hnd as [|? ? Hnotin Hnd']; subst.
    cbn [fold_left]. rewrite try_model_outcome, survivors_cons.
    destruct (Hfresh m (or_introl eq_refl)) as [Hr Ha].
    destruct (outcome df m) as [mt|].
    + rewrite !dict_set_fresh by assumption.
      rewrite IH; [|assumption|].
      * simpl. now rewrite <- !app_assoc.
      * intros m' Hm'. destruct (Hfresh m' (or_intror Hm')) as [Hr' Ha'].
        unfold keys in *. rewrite !map_app, !in_app_iff. simpl.
        assert (name m <> name m').
        { intro Heq. apply Hnotin. rewrite Heq. now apply in_map. }
        tauto.
    + simpl. apply IH; [assumption|]. intros m' Hm'. apply Hfresh. now right.
Qed.

Lemma train_all_survivors df models :
  NoDup (map name models) ->
  train_all models df
  = (map results_item (survivors models df),
     map metrics_item (survivors models df)).
Proof.
  intro Hnd. unfold train_all.
  rewrite fold_try_model; [reflexivity|assumption|]. simpl. tauto.
Qed.

(** What [evaluate] returns, in terms of the survivors. *)
Lemma evaluate_survivors df models :
  NoDup (map name models) ->
  evaluate models df
  = match survivors models df with
    | [] => None
    | s :: rest =>
        let best := min_by (fun a => RMSE (snd a)) s rest in
        Some (fst best, name (fst best), snd best,
              map metrics_item (survivors models df))
    end.
Proof.
  intro Hnd. unfold evaluate. rewrite train_all_survivors by assumption.
  pose proof (survivors_nodup df models Hnd) as Hkeys.
  set (results := map results_item (survivors models df)).
  assert (Hk : keys results
               = map (fun s => name (fst s)) (survivors models df)).
  { unfold results, keys. now rewrite map_map. }
  assert (Hget : forall a, In a (survivors models df) ->
                           dict_get results (name (fst a)) = Some a).
  { intros a Ha. apply dict_get_item; [now rewrite Hk|].
    change (name (fst a), a) with (results_item a). now apply in_map. }
  rewrite Hk. clearbody results.
  destruct (survivors models df) as [|s rest]; [reflexivity|].
  cbn [map]. rewrite (min_by_map (fun s => name (fst s))).
  rewrite (min_by_ext _ (fun a => RMSE (snd a))).
  - cbv zeta. rewrite Hget by apply min_by_in.
    now destruct (min_by (fun a => RMSE (snd a)) s rest).
  - intros a Ha. unfold rmse_of. rewrite (Hget a Ha). now destruct a.
Qed.

(** A model that keeps the contract of [train] survives iff its [train]
    returned, and then its RMSE is a number. *)
Lemma outcome_same_span df m :
  same_span df m -> (outcome df m = None <-> train m df = None).
Proof.
  intro Hc. unfold outcome.
  destruct (train m df) as [[y_test y_pred]|] eqn:E; [|tauto].
  destruct (calculate_metrics_same_length y_test y_pred (Hc _ _ E))
    as (mt & -> & _).
  split; discriminate.
Qed.

Lemma outcome_well_trained df m mt :
  well_trained df m -> outcome df m = Some mt -> exists r, RMSE mt = fin r.
Proof.
  intros Hc. unfold outcome.
  destruct (train m df) as [[y_test y_pred]|] eqn:E; [|discriminate].
  destruct (Hc _ _ E) as [Hlen Hne].
  destruct (calculate_metrics_same_length y_test y_pred Hlen)
    as (mt' & -> & Hfin & _).
  intro H. injection H as <-. now apply Hfin.
Qed.

Lemma well_trained_same_span df m : well_trained df m -> same_span df m.
Proof. intros H y_test y_pred E. now apply H. Qed.

(** A split of the survivors is a split of the models. *)
Lemma survivors_split df models :
  forall before after best mt,
    survivors models df = before ++ (best, mt) :: after ->
    exists earlier later,
      models = earlier ++ best :: later /\
      survivors earlier df = before /\
      outcome df best = Some mt /\
      survivors later df = after.
Proof.
  induction models as [|m models IH]; intros before after best mt Heq.
  - destruct before; discriminate.
  - rewrite survivors_cons in Heq.
    destruct (outcome df m) as [mt'|] eqn:E.
    + destruct before as [|b before]; simpl in Heq.
      * injection Heq as -> -> Hrest.
        exists [], models. repeat split; assumption.
      * injection Heq as <- Hrest.
        destruct (IH _ _ _ _ Hrest) as (earlier & later & -> & H1 & H2 & H3).
        exists (m :: earlier), later. repeat split; try assumption.
        rewrite survivors_cons, E, H1. reflexivity.
    + simpl in Heq.
      destruct (IH _ _ _ _ Heq) as (earlier & later & -> & H1 & H2 & H3).
      exists (m :: earlier), later. repeat split; try assumption.
      rewrite survivors_cons, E, H1. reflexivity.
Qed.

End Loop.

Section Selection.

Context {DataFrame : Type}.
Implicit Types (m : Model DataFrame) (models : list (Model DataFrame)).
Implicit Types (df : DataFrame).

Lemma survivors_in df models m mt :
  In m models -> outcome df m = Some mt -> In (m, mt) (survivors models df).
Proof.
  intros Hin Hout. unfold survivors. apply in_flat_map.
  exists m. split; [assumption|]. rewrite Hout. now left.
Qed.

Lemma nodup_map_injective {A B : Type} (f : A -> B) (l : list A) (a b : A) :
  NoDup (map f l) -> In a l -> In b l -> f a = f b -> a = b.
Proof.
  induction l as [|x l IH]; simpl; intros Hnd Ha Hb Heq; [contradiction|].
  inversion Hnd as [|? ? Hnotin Hnd']; subst.
  destruct Ha as [->|Ha], Hb as [->|Hb]; try reflexivity.
  - exfalso. apply Hnotin. rewrite Heq. now apply in_map.
  - exfalso. apply Hnotin. rewrite <- Heq. now apply in_map.
  - now apply IH.
Qed.

(** The reported dictionary holds, under a model's name, exactly what that
    model's own failure boundary yielded. *)
Lemma all_metrics_entry df models m :
  NoDup (map name models) -> In m models ->
  dict_get (map metrics_item (survivors models df)) (name m) = outcome df m.
Proof.
  intros Hnd Hin.
  assert (Hk : keys (map metrics_item (survivors models df))
               = map (fun s => name (fst s)) (survivors models df)).
  { unfold keys. now rewrite map_map. }
  destruct (outcome df m) as [mt|] eqn:E.
  - apply dict_get_item.
    + rewrite Hk. now apply survivors_nodup.
    + change (name m, mt) with (metrics_item (m, mt)). apply in_map.
      now apply survivors_in.
  - apply dict_get_absent. rewrite Hk. intro Hn.
    apply in_map_iff in Hn as (s & Hname & Hs).
    apply survivors_names in Hs as [Hs Hout].
    assert (fst s = m) by (eapply nodup_map_injective; eassumption).
    congruence.
Qed.

(** [evaluate] raises exactly when nothing survived. *)
Lemma evaluate_none df models :
  NoDup (map name models) ->
  (evaluate models df = None <-> survivors models df = []).
Proof.
  intro Hnd. rewrite evaluate_survivors by assumption.
  destruct (survivors models df); split; intro H; congruence.
Qed.

Lemma survivors_nil df models :
  survivors models df = [] <-> forall m, In m models -> outcome df m = None.
Proof.
  split.
  - intros Hnil m Hin. destruct (outcome df m) as [mt|] eqn:E; [|reflexivity].
    pose proof (survivors_in df models m mt Hin E) as H.
    rewrite Hnil in H. contradiction.
  - intro Hall. destruct (survivors models df) as [|s rest] eqn:E;
      [reflexivity|].
    assert (Hs : In s (survivors models df)) by (rewrite E; now left).
    apply survivors_names in Hs as [Hin Hout].
    rewrite (Hall _ Hin) in Hout. discriminate.
Qed.

(** For any list of models with distinct names - whatever the names are -
    [evaluate] returns the first model with the minimal RMSE. *)
Lemma evaluate_first_minimum df models :
  NoDup (map name models) ->
  (forall m, In m models -> well_trained df m) ->
  (exists m, In m models /\ train m df <> None) ->
  exists best metrics rmse,
    evaluate models df
    = Some (best, name best, metrics,
            map metrics_item (survivors models df)) /\
    outcome df best = Some metrics /\
    RMSE metrics = fin rmse /\
    first_minimum df models best rmse.
Proof.
  intros Hnd Hwell (m0 & Hm0 & Htrain).
  rewrite evaluate_survivors by assumption.
  set (val := fun a : Model DataFrame * MetricsDict =>
                match RMSE (snd a) with fin r => r | nonfinite => 0%R end).
  assert (Hfin : forall a, In a (survivors models df) ->
                           RMSE (snd a) = fin (val a)).
  { intros a Ha. apply survivors_names in Ha as [Hin Hout].
    destruct (outcome_well_trained df _ _ (Hwell _ Hin) Hout) as [r Hr].
    unfold val. now rewrite Hr. }
  destruct (survivors models df) as [|s rest] eqn:Hsurv.
  - exfalso. apply Htrain.
    apply (outcome_same_span df m0);
      [now apply well_trained_same_span, Hwell|].
    now apply (proj1 (survivors_nil df models) Hsurv).
  - destruct (min_by_first (fun a => RMSE (snd a)) val rest [] [] s)
      as (before & after & Heq & Hbefore & Hafter).
    + intros a Ha. now apply Hfin.
    + intros a [].
    + intros a [].
    + simpl app in Heq. cbv zeta.
      set (best := min_by (fun a => RMSE (snd a)) s rest) in *.
      assert (Hbest : In best (s :: rest)) by apply min_by_in.
      rewrite <- Hsurv in Heq. destruct best as [b bm] eqn:Eb.
      destruct (survivors_split df models _ _ _ _ Heq)
        as (earlier & later & Hmodels & He & Hout & Hl).
      exists b, bm, (val (b, bm)). cbn [fst snd].
      split; [reflexivity|]. split; [exact Hout|].
      split; [exact (Hfin (b, bm) Hbest)|].
      exists earlier, later. split; [assumption|].
      split; [exists bm; split; [assumption|]; exact (Hfin (b, bm) Hbest)|].
      split; intros m mt Hin Hm.
      * assert (Hs : In (m, mt) before).
        { rewrite <- He. now apply survivors_in. }
        exists (val (m, mt)). split; [|now apply Hbefore].
        apply (Hfin (m, mt)). rewrite <- Hsurv, Heq. in_lists.
      * assert (Hs : In (m, mt) after).
        { rewrite <- Hl. now apply survivors_in. }
        exists (val (m, mt)). split; [|now apply Hafter].
        apply (Hfin (m, mt)). rewrite <- Hsurv, Heq. in_lists.
Qed.

End Selection.

(** *** The claims about the harness *)

Lemma model_names_distinct {DataFrame : Type}
    (ml arima lstm : DataFrame -> option (list R * list R)) :
  NoDup (map name (models ml arima lstm)).
Proof.
  simpl. repeat constructor; simpl; intuition discriminate.
Qed.

Lemma in_models {DataFrame : Type}
    (ml arima lstm : DataFrame -> option (list R * list R))
    (P : Model DataFrame -> Prop) :
  P (MLModel ml) -> P (ARIMAModel arima) -> P (LSTMModel lstm) ->
  forall m, In m (models ml arima lstm) -> P m.
Proof. intros H1 H2 H3 m [<-|[<-|[<-|[]]]]; assumption. Qed.

(** C1, as the code has it.  When the three [train] methods keep their
    contract and at least one of them returns, [evaluate_models] returns a
    surviving model, under its own name and with its own metrics, whose
    RMSE is minimal among the survivors; among survivors with the minimal
    RMSE the first one in the order Random Forest, ARIMA, LSTM wins.  The
    characterisation reads the RMSE values and the positions only. *)
Theorem selects_first_minimal_rmse {DataFrame : Type}
    (ml arima lstm : DataFrame -> option (list R * list R))
    (df : DataFrame) :
  well_trained df (MLModel ml) ->
  well_trained df (ARIMAModel arima) ->
  well_trained df (LSTMModel lstm) ->
  ml df <> None \/ arima df <> None \/ lstm df <> None ->
  exists best metrics rmse all_metrics,
    evaluate_models ml arima lstm df
    = Some (best, name best, metrics, all_metrics) /\
    outcome df best = Some metrics /\
    RMSE metrics = fin rmse /\
    first_minimum df [MLModel ml; ARIMAModel arima; LSTMModel lstm]
      best rmse.
Proof.
  intros H1 H2 H3 Hsome.
  destruct (evaluate_first_minimum df (models ml arima lstm))
    as (best & metrics & rmse & Heval & Hout & Hrmse & Hfirst).
  - apply model_names_distinct.
  - now apply in_models.
  - destruct Hsome as [H|[H|H]];
      [exists (MLModel ml)|exists (ARIMAModel arima)|exists (LSTMModel lstm)];
      (split; [simpl; tauto|exact H]).
  - exists best, metrics, rmse. eexists. split; [exact Heval|].
    repeat split; assumption.
Qed.

(** C5.  When the three [train] methods return arrays of equal length: the
    harness raises exactly when all three [train] calls raised; and when it
    returns, the selected model is one whose [train] returned, and the
    reported dictionary holds under each name what that model alone
    produced - its metrics if its [train] returned, nothing if it raised -
    whatever happened to the other two. *)
Theorem failures_are_isolated {DataFrame : Type}
    (ml arima lstm : DataFrame -> option (list R * list R))
    (df : DataFrame) :
  same_span df (MLModel ml) ->
  same_span df (ARIMAModel arima) ->
  same_span df (LSTMModel lstm) ->
  (evaluate_models ml arima lstm df = None <->
   ml df = None /\ arima df = None /\ lstm df = None) /\
  (ml df <> None \/ arima df <> None \/ lstm df <> None ->
   exists best metrics all_metrics,
     evaluate_models ml arima lstm df
     = Some (best, name best, metrics, all_metrics) /\
     In best (models ml arima lstm) /\ train best df <> None /\
     dict_get all_metrics "Random Forest" = outcome df (MLModel ml) /\
     dict_get all_metrics "ARIMA" = outcome df (ARIMAModel arima) /\
     dict_get all_metrics "LSTM" = outcome df (LSTMModel lstm)).
Proof.
  intros H1 H2 H3.
  pose proof (model_names_distinct ml arima lstm) as Hnd.
  assert (Hnone : evaluate_models ml arima lstm df = None <->
                  ml df = None /\ arima df = None /\ lstm df = None).
  { unfold evaluate_models. rewrite evaluate_none, survivors_nil by assumption.
    split.
    - intro Hall. repeat split.
      + apply (outcome_same_span df _ H1), Hall. simpl. tauto.
      + apply (outcome_same_span df _ H2), Hall. simpl. tauto.
      + apply (outcome_same_span df _ H3), Hall. simpl. tauto.
    - intros (E1 & E2 & E3). apply in_models.
      + now apply (outcome_same_span df _ H1).
      + now apply (outcome_same_span df _ H2).
      + now apply (outcome_same_span df _ H3). }
  split; [exact Hnone|]. intro Hsome.
  unfold evaluate_models in *. rewrite evaluate_survivors in * by assumption.
  destruct (survivors (models ml arima lstm) df) as [|s rest] eqn:Hsurv.
  - exfalso. destruct Hnone as [Hn _]. destruct (Hn eq_refl) as (E1 & E2 & E3).
    tauto.
  - cbv zeta. set (best := min_by (fun a => RMSE (snd a)) s rest).
    exists (fst best), (snd best). eexists. split; [reflexivity|].
    assert (Hbest : In best (survivors (models ml arima lstm) df)).
    { rewrite Hsurv. apply min_by_in. }
    apply survivors_names in Hbest as [Hin Hout].
    split; [exact Hin|]. split.
    + intro Htrain. unfold outcome in Hout. rewrite Htrain in Hout.
      discriminate.
    + rewrite <- Hsurv.
      repeat split;
        [apply (all_metrics_entry df _ (MLModel ml))
        |apply (all_metrics_entry df _ (ARIMAModel arima))
        |apply (all_metrics_entry df _ (LSTMModel lstm))];
        try assumption; simpl; tauto.
Qed.

(** *** The harness on stand-in models *)

Lemma returning_well_trained (n : string) (y_test y_pred : list R) :
  length y_test = length y_pred -> y_test <> [] ->
  well_trained tt (mkModel n (returning y_test y_pred)).
Proof.
  intros Hlen Hne a b H. injection H as <- <-. split; assumption.
Defined.

Lemma raising_well_trained (n : string) :
  well_trained tt (mkModel n raising).
Proof. intros a b H. discriminate H. Defined.

Lemma returning_same_span (n : string) (y_test y_pred : list R) :
  length y_test = length y_pred ->
  same_span tt (mkModel n (returning y_test y_pred)).
Proof. intros Hlen a b H. injection H as <- <-. assumption. Defined.

Lemma raising_same_span (n : string) : same_span tt (mkModel n raising).
Proof. intros a b H. discriminate H. Defined.

Lemma cons_not_nil {A : Type} (x : A) (l : list A) : x :: l <> [].
Proof. discriminate. Defined.

Lemma some_not_none {A : Type} (x : A) : Some x <> None.
Proof. discriminate. Defined.

Lemma selects_first_minimal_rmse_sample :
  exists best metrics rmse all_metrics,
    evaluate_models (returning [10] [14]) (returning [10] [12]) raising tt
    = Some (best, name best, metrics, all_metrics) /\
    outcome tt best = Some metrics /\
    RMSE metrics = fin rmse /\
    first_minimum tt
      [MLModel (returning [10] [14]); ARIMAModel (returning [10] [12]);
       LSTMModel raising] best rmse.
Proof.
  apply (selects_first_minimal_rmse
           (returning [10] [14]) (returning [10] [12]) raising tt).
  - apply returning_well_trained; [reflexivity|apply cons_not_nil].
  - apply returning_well_trained; [reflexivity|apply cons_not_nil].
  - apply raising_well_trained.
  - left. apply some_not_none.
Defined.

Lemma failures_are_isolated_sample :
  (evaluate_models raising (returning [10] [12]) raising tt = None <->
   raising tt = None /\ returning [10] [12] tt = None /\ raising tt = None) /\
  (raising tt <> None \/ returning [10] [12] tt <> None \/ raising tt <> None ->
   exists best metrics all_metrics,
     evaluate_models raising (returning [10] [12]) raising tt
     = Some (best, name best, metrics, all_metrics) /\
     In best (models raising (returning [10] [12]) raising) /\
     train best tt <> None /\
     dict_get all_metrics "Random Forest" = outcome tt (MLModel raising) /\
     dict_get all_metrics "ARIMA"
     = outcome tt (ARIMAModel (returning [10] [12])) /\
     dict_get all_metrics "LSTM" = outcome tt (LSTMModel raising)).
Proof.
  apply (failures_are_isolated raising (returning [10] [12]) raising tt).
  - apply raising_same_span.
  - apply returning_same_span. reflexivity.
  - apply raising_same_span.
Defined.

(** The metrics of two one-value arrays: the RMSE is the absolute error. *)
Lemma single_value_rmse (a b : R) :
  exists m, calculate_metrics [a] [b] = Some m /\ RMSE m = fin (Rabs (a - b)).
Proof.
  unfold calculate_metrics.
  rewrite (broadcast_same_length Rminus) by reflexivity.
  rewrite (broadcast_same_length fdiv) by reflexivity.
  eexists; split; [reflexivity|]. cbn [RMSE map combine fst snd].
  unfold np_mean. cbn [np_sum fold_right length INR number_map].
  f_equal. replace (((a - b) ^ 2 + 0) / 1)%R with (Rsqr (a - b))
    by (unfold Rsqr; field).
  apply sqrt_Rsqr_abs.
Qed.

Lemma survivors_of_returning (y1 p1 y2 p2 y3 p3 : list R)
    (m1 m2 m3 : MetricsDict) :
  calculate_metrics y1 p1 = Some m1 ->
  calculate_metrics y2 p2 = Some m2 ->
  calculate_metrics y3 p3 = Some m3 ->
  survivors (models (returning y1 p1) (returning y2 p2) (returning y3 p3)) tt
  = [(MLModel (returning y1 p1), m1); (ARIMAModel (returning y2 p2), m2);
     (LSTMModel (returning y3 p3), m3)].
Proof.
  intros H1 H2 H3. unfold survivors, models, outcome.
  cbn [flat_map train MLModel ARIMAModel LSTMModel returning].
  now rewrite H1, H2, H3.
Qed.

(** The specification's test: with RMSE 4.0, 2.5 and 9.9 the second model is
    selected. *)
Example second_of_three_is_selected :
  exists best metrics all_metrics,
    evaluate_models (returning [0] [4]) (returning [0] [2.5])
      (returning [0] [9.9]) tt
    = Some (best, "ARIMA"%string, metrics, all_metrics) /\
    RMSE metrics = fin 2.5.
Proof.
  destruct (single_value_rmse 0 4) as (m1 & Hm1 & Hr1).
  destruct (single_value_rmse 0 2.5) as (m2 & Hm2 & Hr2).
  destruct (single_value_rmse 0 9.9) as (m3 & Hm3 & Hr3).
  unfold evaluate_models.
  rewrite evaluate_survivors by apply model_names_distinct.
  rewrite (survivors_of_returning _ _ _ _ _ _ m1 m2 m3) by assumption.
  cbv zeta. cbn [min_by snd fst]. rewrite Hr1, Hr2, Hr3.
  replace (Rabs (0 - 4)) with 4%R
    by (rewrite Rabs_left by lra; lra).
  replace (Rabs (0 - 2.5)) with 2.5%R
    by (rewrite Rabs_left by lra; lra).
  replace (Rabs (0 - 9.9)) with 9.9%R
    by (rewrite Rabs_left by lra; lra).
  cbn [number_lt].
  destruct (Rlt_dec 2.5 4) as [_|N]; [|exfalso; lra].
  destruct (Rlt_dec 9.9 2.5) as [N|_]; [exfalso; lra|].
  cbn [fst snd name ARIMAModel]. repeat eexists. rewrite Hr2.
  f_equal. rewrite Rabs_left by lra. lra.
Qed.

(** C1 as stated fails on the code: when the statistical and the
    tree-ensemble model survive with the same, minimal RMSE, the model the
    harness selects is the tree-ensemble one - the list of models starts
    with it. *)
Lemma tie_goes_to_random_forest :
  exists best metrics all_metrics,
    evaluate_models (returning [1] [1]) (returning [1] [1]) raising tt
    = Some (best, "Random Forest"%string, metrics, all_metrics) /\
    outcome tt (ARIMAModel (returning [1] [1])) = Some metrics /\
    "Random Forest"%string <> "ARIMA"%string.
Proof.
  destruct (single_value_rmse 1 1) as (m & Hm & Hr).
  assert (Hs : survivors (models (returning [1] [1]) (returning [1] [1])
                            raising) tt
               = [(MLModel (returning [1] [1]), m);
                  (ARIMAModel (returning [1] [1]), m)]).
  { unfold survivors, models, outcome.
    cbn [flat_map train MLModel ARIMAModel LSTMModel returning raising].
    now rewrite Hm. }
  unfold evaluate_models.
  rewrite evaluate_survivors by apply model_names_distinct.
  rewrite Hs. cbv zeta. cbn [min_by snd fst]. rewrite Hr.
  cbn [number_lt].
  destruct (Rlt_dec (Rabs (1 - 1)) (Rabs (1 - 1))) as [N|_];
    [exfalso; lra|].
  cbn [fst snd name MLModel]. exists (MLModel (returning [1] [1])), m.
  eexists. split; [reflexivity|]. split; [|discriminate].
  unfold outcome. cbn [train ARIMAModel returning]. exact Hm.
Qed.

End HarnessFacts.

(** ** Properties of the statistical model *)

Module ArimaFacts.
Import Arima ArimaSpec.

Section Chain.

Context {Price : Type} `{Statsmodels Price}.

(** One [try] block makes one attempt, with the order the object holds, and
    leaves that order alone. *)
Lemma fit_and_forecast_attempt (self : ARIMAModel Price) (data : list Price)
    (steps : nat) :
  exists self',
    fit_and_forecast self data steps
    = (self', [TryARIMA (order self)],
       run_attempt (TryARIMA (order self)) data steps) /\
    order self' = order self.
Proof.
  unfold fit_and_forecast, run_attempt.
  destruct (ARIMA data (order self)) as [m|]; [|now exists self].
  destruct (fit m) as [r|]; eexists; split; reflexivity.
Qed.

Lemma train_chain_run (self : ARIMAModel Price) (prices : list Price)
    (test_size : Q) :
  let split_idx := split_index (length prices) test_size in
  let train_data := slice_to prices split_idx in
  let test_data := slice_from prices split_idx in
  exists self',
    train self prices test_size
    = (self',
       fst (first_success (train_chain (order self)) train_data
              (length test_data)),
       outcome_of ValueError
         (option_map (pair test_data)
            (snd (first_success (train_chain (order self)) train_data
                    (length test_data))))) /\
    order self' = order_after (order self) train_data (length test_data).
Proof.
  intros split_idx train_data test_data. unfold train, order_after.
  fold split_idx. fold train_data. fold test_data.
  destruct (fit_and_forecast_attempt self train_data (length test_data))
    as (self1 & -> & Ho1).
  cbn [train_chain first_success].
  destruct (run_attempt (TryARIMA (order self)) train_data (length test_data))
    as [forecast|].
  - exists self1. split; [reflexivity|assumption].
  - destruct (fit_and_forecast_attempt (set_order self1 (1, 1, 1)) train_data
                (length test_data)) as (self2 & -> & Ho2).
    cbn [order set_order] in *.
    destruct (run_attempt (TryARIMA (1, 1, 1)) train_data (length test_data))
      as [forecast|]; exists self2; split; try reflexivity; assumption.
Qed.

Lemma predict_chain_run (self : ARIMAModel Price) (prices : list Price)
    (days : nat) :
  exists self',
    predict self prices days
    = (self',
       fst (first_success (predict_chain (order self)) prices days),
       outcome_of LibraryError
         (snd (first_success (predict_chain (order self)) prices days))) /\
    order self' = order_after (order self) prices days.
Proof.
  unfold predict, order_after.
  destruct (fit_and_forecast_attempt self prices days) as (self1 & -> & Ho1).
  cbn [predict_chain first_success].
  destruct (run_attempt (TryARIMA (order self)) prices days) as [forecast|].
  - exists self1. split; [reflexivity|assumption].
  - destruct (fit_and_forecast_attempt (set_order self1 (1, 1, 1)) prices
                days) as (self2 & -> & Ho2).
    cbn [order set_order] in *.
    destruct (run_attempt (TryARIMA (1, 1, 1)) prices days) as [forecast|].
    + exists self2. split; [reflexivity|assumption].
    + cbn [run_attempt].
      destruct (ExponentialSmoothing prices (Some add) None days);
        exists self2; split; try reflexivity; assumption.
Qed.

(** C7, as the code has it.  A new object holds the order (5, 1, 0).
    [train] makes the attempts of the chain "current order, then (1, 1, 1)"
    in that order, each only if the one before raised, returns the first
    forecast obtained and raises [ValueError] when both fail.  [predict]
    does the same with the chain "current order, then (1, 1, 1), then
    additive-trend exponential smoothing without a seasonal component", and
    what the last attempt raises leaves the method.  The current order is
    the one the object was created with until a first attempt fails; from
    then on it is (1, 1, 1). *)
Theorem fallback_chain_from_current_order :
  order (init (Price := Price)) = (5, 1, 0)%nat /\
  (forall (self : ARIMAModel Price) (prices : list Price) (test_size : Q),
      exists self',
        train self prices test_size
        = (self',
           fst (first_success (train_chain (order self))
                  (slice_to prices (split_index (length prices) test_size))
                  (length
                     (slice_from prices
                        (split_index (length prices) test_size)))),
           outcome_of ValueError
             (option_map
                (pair (slice_from prices
                         (split_index (length prices) test_size)))
                (snd (first_success (train_chain (order self))
                        (slice_to prices
                           (split_index (length prices) test_size))
                        (length
                           (slice_from prices
                              (split_index (length prices) test_size))))))) /\
        order self'
        = order_after (order self)
            (slice_to prices (split_index (length prices) test_size))
            (length
               (slice_from prices
                  (split_index (length prices) test_size)))) /\
  (forall (self : ARIMAModel Price) (prices : list Price) (days : nat),
      exists self',
        predict self prices days
        = (self',
           fst (first_success (predict_chain (order self)) prices days),
           outcome_of LibraryError
             (snd (first_success (predict_chain (order self)) prices days)))
        /\ order self' = order_after (order self) prices days).
Proof.
  split; [reflexivity|]. split.
  - intros self prices test_size. apply train_chain_run.
  - intros self prices days. apply predict_chain_run.
Qed.

End Chain.

(** C7 as stated fails on the code: with a library that can only fit the
    order (1, 1, 1), [train] on a new object falls back and leaves (1, 1, 1)
    in the object; [predict] on that object then starts with (1, 1, 1) and
    never attempts the default order (5, 1, 0) the claimed chain starts
    with. *)
Lemma predict_after_fallback_skips_default_order :
  snd (fst (train (H := only_minimal_order) init ten_prices (1 # 5)))
  = [TryARIMA (5, 1, 0)%nat; TryARIMA (1, 1, 1)%nat] /\
  snd (fst (predict (H := only_minimal_order)
              (fst (fst (train (H := only_minimal_order) init ten_prices
                           (1 # 5))))
              ten_prices 30))
  = [TryARIMA (1, 1, 1)%nat] /\
  fst (first_success (H := only_minimal_order) (predict_chain default_order)
         ten_prices 30)
  = [TryARIMA (5, 1, 0)%nat; TryARIMA (1, 1, 1)%nat].
Proof. repeat split; reflexivity. Qed.

(** The run behind it: the split, the forecast of [train] and the order
    left in the object. *)
Example train_on_ten_prices :
  train (H := only_minimal_order) init ten_prices (1 # 5)
  = (@mkARIMA Z only_minimal_order (Some [1; 2; 3; 4; 5; 6; 7; 8]%Z)
       (1, 1, 1)%nat
       (Some [1; 2; 3; 4; 5; 6; 7; 8]%Z),
     [TryARIMA (5, 1, 0)%nat; TryARIMA (1, 1, 1)%nat],
     Returned ([9; 10]%Z, [8; 8]%Z)).
Proof. reflexivity. Qed.

End ArimaFacts.

(** ** The rows of the feature frame *)

Module FeatureFacts.
Import RandomForest RandomForestSpec RandomForestMore.
Open Scope nat_scope.

Lemma all_some_map {A B : Type} (g : A -> option B) (h : A -> B)
    (l : list A) :
  (forall a, In a l -> g a = Some (h a)) ->
  all_some (map g l) = Some (map h l).
Proof.
  induction l as [|a l IH]; intro Hg; [reflexivity|]. simpl.
  rewrite (Hg a) by now left. rewrite IH; [reflexivity|].
  intros b Hb. apply Hg. now right.
Qed.

Lemma shift_some (prices : list R) (i t : nat) :
  i <= t < length prices ->
  shift prices i t = Some (nth (t - i) prices 0%R).
Proof.
  intros [Hi Ht]. unfold shift.
  rewrite (proj2 (Nat.leb_le i t) Hi). apply nth_error_nth'. lia.
Qed.

Lemma rolling_some (window : nat) (prices : list R) (t : nat) :
  window <= t + 1 ->
  rolling window prices t
  = Some (firstn window (skipn (t + 1 - window) prices)).
Proof.
  intro Hw. unfold rolling. now rewrite (proj2 (Nat.leb_le _ _) Hw).
Qed.

Lemma rolling_none (window : nat) (prices : list R) (t : nat) :
  t + 1 < window -> rolling window prices t = None.
Proof.
  intro Hw. unfold rolling.
  now rewrite (proj2 (Nat.leb_gt window (t + 1)) Hw).
Qed.

(** The columns other than the rate of change, from the thirtieth position
    on. *)
Lemma feature_row_from_rate (prices : list R) (t : nat) :
  29 <= t < length prices ->
  feature_row 10 prices t
  = match rate_of_change (nth t prices 0%R) (nth (t - 5) prices 0%R) with
    | Some rate =>
        Some (mkRow (lag (row_at prices t)) (ma_7 (row_at prices t))
                (ma_30 (row_at prices t)) (std_7 (row_at prices t))
                (momentum (row_at prices t)) rate)
    | None => None
    end.
Proof.
  intros [Hlo Hhi]. unfold feature_row, row_at.
  rewrite (all_some_map _ (fun i => nth (t - i) prices 0%R)).
  - rewrite !rolling_some by lia. rewrite shift_some by lia.
    rewrite (nth_error_nth' prices 0%R Hhi). reflexivity.
  - intros i Hi. unfold range in Hi. apply in_seq in Hi.
    apply shift_some. lia.
Qed.

(** From the thirtieth position on no feature column is [NaN], and the rate
    of change is a number, when the price five days back is not zero. *)
Lemma feature_row_defined (prices : list R) (t : nat) :
  29 <= t < length prices ->
  nth (t - 5) prices 0%R <> 0%R ->
  feature_row 10 prices t = Some (row_at prices t).
Proof.
  intros Ht Hp5. rewrite feature_row_from_rate by exact Ht.
  unfold rate_of_change.
  destruct (Req_dec_T (nth (t - 5) prices 0%R) 0) as [E|_];
    [contradiction|reflexivity].
Qed.

(** Where the price and the price five days back are both zero the rate of
    change is [NaN] and the row is dropped. *)
Lemma feature_row_of_zeros (prices : list R) (t : nat) :
  nth t prices 0%R = 0%R -> nth (t - 5) prices 0%R = 0%R ->
  feature_row 10 prices t = None.
Proof.
  intros Hp Hp5. unfold feature_row.
  destruct (all_some _) as [ls|]; [|reflexivity].
  destruct (rolling 7 prices t) as [w7|]; [|reflexivity].
  destruct (rolling 30 prices t) as [w30|]; [|reflexivity].
  destruct (shift prices 5 t) as [p5|] eqn:E5; [|reflexivity].
  destruct (nth_error prices t) as [p|] eqn:Ep; [|reflexivity].
  unfold shift in E5. destruct (5 <=? t); [|discriminate].
  rewrite (nth_error_nth _ _ 0%R E5) in Hp5.
  rewrite (nth_error_nth _ _ 0%R Ep) in Hp. subst p p5.
  unfold rate_of_change.
  destruct (Req_dec_T 0 0) as [_|N]; [|now contradiction N].
  destruct (Req_dec_T (0 - 0) 0) as [_|N]; [reflexivity|].
  exfalso. apply N. unfold Rminus. apply Rplus_opp_r.
Qed.

(** Before the thirtieth position the mean of thirty prices is [NaN];
    after the end there is no row. *)
Lemma feature_row_undefined (prices : list R) (t : nat) :
  t < 29 \/ length prices <= t -> feature_row 10 prices t = None.
Proof.
  intros [Ht|Ht]; unfold feature_row.
  - rewrite (rolling_none 30) by lia.
    destruct (all_some _); [|reflexivity].
    now destruct (rolling 7 prices t).
  - rewrite (proj2 (nth_error_None prices t) Ht).
    destruct (all_some _); [|reflexivity].
    destruct (rolling 7 prices t); [|reflexivity].
    destruct (rolling 30 prices t); [|reflexivity].
    now destruct (shift prices 5 t).
Qed.

Lemma flat_map_ext_on {A B : Type} (f g : A -> list B) (l : list A) :
  (forall a, In a l -> f a = g a) -> flat_map f l = flat_map g l.
Proof.
  induction l as [|a l IH]; intro Hfg; [reflexivity|]. simpl.
  rewrite (Hfg a) by now left. rewrite IH; [reflexivity|].
  intros b Hb. apply Hfg. now right.
Qed.

Lemma flat_map_nothing {A B : Type} (f : A -> list B) (l : list A) :
  (forall a, In a l -> f a = []) -> flat_map f l = [].
Proof.
  induction l as [|a l IH]; intro Hf; [reflexivity|]. simpl.
  rewrite (Hf a) by now left. apply IH. intros b Hb. apply Hf. now right.
Qed.

Lemma no_zero_price_nth (prices : list R) (t : nat) :
  no_zero_price prices -> t < length prices -> nth t prices 0%R <> 0%R.
Proof.
  intros Hnz Ht. unfold no_zero_price in Hnz. rewrite Forall_forall in Hnz.
  apply Hnz. now apply nth_In.
Qed.

Section Frame.

Context {Date : Type}.

(** On a series without a zero price the frame holds the positions from the
    thirtieth on, each with the row written out in [row_at]. *)
Lemma create_features_rows (df : list (Date * R)) :
  no_zero_price (map snd df) ->
  create_features Date df 10
  = flat_map (data_row_at df) (seq 29 (length df - 29)).
Proof.
  intro Hnz. unfold create_features, range. rewrite Nat.sub_0_r.
  destruct (Nat.le_gt_cases 29 (length df)) as [Hn|Hn].
  - replace (length df) with (29 + (length df - 29)) at 1 by lia.
    rewrite seq_app, flat_map_app. rewrite flat_map_nothing.
    + apply flat_map_ext_on. intros t Ht. apply in_seq in Ht.
      unfold data_row_at. rewrite feature_row_defined.
      * reflexivity.
      * rewrite length_map. lia.
      * apply no_zero_price_nth; [exact Hnz|]. rewrite length_map. lia.
    + intros t Ht. apply in_seq in Ht.
      rewrite feature_row_undefined by (left; lia).
      now destruct (nth_error df t) as [[d p]|].
  - replace (length df - 29) with 0 by lia. cbn [seq flat_map].
    apply flat_map_nothing. intros t Ht. apply in_seq in Ht.
    rewrite feature_row_undefined by (left; lia).
    now destruct (nth_error df t) as [[d p]|].
Qed.

End Frame.

(** The thirty-two-day series has no zero price and three feature rows. *)
Lemma thirty_two_days_no_zero : no_zero_price (map snd thirty_two_days).
Proof.
  unfold no_zero_price, thirty_two_days. rewrite map_map. cbn [snd].
  apply Forall_map, Forall_forall. intros n Hn. apply in_seq in Hn.
  apply not_0_INR. lia.
Defined.

Lemma thirty_two_days_frame :
  create_features nat thirty_two_days 10
  = flat_map (data_row_at thirty_two_days) (seq 29 3).
Proof. exact (create_features_rows thirty_two_days thirty_two_days_no_zero). Defined.

End FeatureFacts.

(** ** Properties of the tree-ensemble model *)

Module RandomForestFacts.
Import RandomForest RandomForestSpec FeatureFacts.

Section Rollout.

Context {Date : Type} `{Sklearn}.

(** *** The lag columns *)

Lemma all_some_length {A : Type} (l : list (option A)) (rs : list A) :
  all_some l = Some rs -> length rs = length l.
Proof.
  revert rs. induction l as [|[a|] l IH]; simpl; intros rs Hl;
    try discriminate.
  - now injection Hl as <-.
  - destruct (all_some l) as [rs'|]; [|discriminate].
    injection Hl as <-. simpl. f_equal. now apply IH.
Qed.

Lemma feature_row_lags (prices : list R) (t : nat) (f : FeatureRow) :
  feature_row 10 prices t = Some f -> length (lag f) = 10%nat.
Proof.
  unfold feature_row.
  destruct (all_some _) as [ls|] eqn:E; [|discriminate].
  destruct (rolling 7 prices t); [|discriminate].
  destruct (rolling 30 prices t); [|discriminate].
  destruct (shift prices 5 t) as [p5|]; [|discriminate].
  destruct (nth_error prices t) as [p|]; [|discriminate].
  destruct (rate_of_change p p5); [|discriminate].
  intro Hf. injection Hf as <-. simpl.
  apply all_some_length in E. now rewrite E, length_map.
Qed.

Lemma create_features_lags (df : list (Date * R)) :
  Forall (fun f => length (lag f) = 10%nat)
    (map (features Date) (create_features Date df 10)).
Proof.
  apply Forall_forall. intros f Hf.
  apply in_map_iff in Hf as (row & <- & Hrow).
  unfold create_features in Hrow.
  apply in_flat_map in Hrow as (t & _ & Hrow).
  destruct (nth_error df t) as [[d p]|]; [|contradiction].
  destruct (feature_row 10 (map snd df) t) as [f|] eqn:E; [|contradiction].
  destruct Hrow as [<-|[]]. simpl. now apply feature_row_lags in E.
Qed.

(** The ten assignments of the loop shift the lag columns by one. *)
Lemma update_lags_shifts (next_price : R) (row : FeatureRow) :
  length (lag row) = 10%nat ->
  update_lags next_price row
  = mkRow (next_price :: firstn 9 (lag row))
      (ma_7 row) (ma_30 row) (std_7 row) (momentum row) (roc row).
Proof.
  destruct row as [l m7 m30 s7 mo ro]. simpl. intro Hlen.
  do 11 (destruct l as [|? l]; try discriminate).
  reflexivity.
Qed.

Lemma rolled_row_lags (history : FeatureRow) (predictions : list R) :
  length (lag history) = 10%nat ->
  length (lag (rolled_row history predictions)) = 10%nat.
Proof.
  intro Hlen. unfold rolled_row. cbn [lag].
  rewrite length_firstn, length_app, Hlen. lia.
Qed.

Lemma rolled_row_nil (history : FeatureRow) :
  length (lag history) = 10%nat -> rolled_row history [] = history.
Proof.
  intro Hlen. destruct history as [l m7 m30 s7 mo ro].
  unfold rolled_row. cbn [lag ma_7 ma_30 std_7 momentum roc rev app] in *.
  f_equal. rewrite <- Hlen. apply firstn_all.
Qed.

Lemma update_rolled_row (history : FeatureRow) (predictions : list R)
    (next_price : R) :
  length (lag history) = 10%nat ->
  update_lags next_price (rolled_row history predictions)
  = rolled_row history (predictions ++ [next_price]).
Proof.
  intro Hlen. rewrite update_lags_shifts by now apply rolled_row_lags.
  unfold rolled_row. cbn [lag ma_7 ma_30 std_7 momentum roc]. f_equal.
  rewrite rev_app_distr. cbn [rev app]. rewrite firstn_cons. f_equal.
  rewrite firstn_firstn. reflexivity.
Qed.

(** *** The loop of [predict] *)

Lemma rollout_recursive (self : MLModel) (s : StandardScaler)
    (forest : RandomForestRegressor) (history : FeatureRow) (days : nat) :
  scaler self = Some s -> model self = Some forest ->
  length (lag history) = 10%nat ->
  forall predictions,
    rollout self days [rolled_row history predictions] predictions
    = (calls_with s
         (fst (recursive_rollout s forest history predictions days)),
       snd (recursive_rollout s forest history predictions days)).
Proof.
  intros Hs Hf Hlen. induction days as [|days IH]; intro predictions.
  - reflexivity.
  - cbn [rollout recursive_rollout]. rewrite Hs, Hf. unfold one_step.
    destruct (scaler_transform s [rolled_row history predictions])
      as [X_scaled|]; [|reflexivity].
    destruct (forest_predict forest X_scaled) as [[|next_price rest]|];
      try reflexivity.
    cbn [map]. rewrite update_rolled_row by assumption.
    unfold append. rewrite IH.
    destruct (recursive_rollout s forest history
                (predictions ++ [next_price]) days) as [rows out].
    reflexivity.
Qed.

Lemma last_rows_last {A : Type} (l : list A) (d : A) :
  l <> [] -> last_rows l = [last l d].
Proof.
  intro Hne. destruct (exists_last Hne) as (l' & a & ->).
  unfold last_rows. rewrite last_last, last_length.
  simpl. rewrite Nat.sub_0_r, skipn_app, skipn_all, Nat.sub_diag.
  reflexivity.
Qed.

Lemma predict_recursive (self : MLModel) (s : StandardScaler)
    (forest : RandomForestRegressor) (df : list (Date * R)) (days : nat) :
  scaler self = Some s -> model self = Some forest ->
  create_features Date df 10 <> [] ->
  predict Date self df days
  = (calls_with s
       (fst (recursive_rollout s forest (last_history df) [] days)),
     snd (recursive_rollout s forest (last_history df) [] days)).
Proof.
  intros Hs Hf Hne. unfold predict.
  assert (Hne' : map (features Date) (create_features Date df 10) <> []).
  { intro E. apply map_eq_nil in E. contradiction. }
  rewrite (last_rows_last _ (mkRow [] 0 0 0 0 (ratio_of 0)) Hne').
  fold (last_history df).
  assert (Hlen : length (lag (last_history df)) = 10%nat).
  { pose proof (create_features_lags df) as Hall.
    rewrite Forall_forall in Hall. apply Hall.
    unfold last_history.
    destruct (exists_last Hne') as (l' & a & E). rewrite E, last_last.
    apply in_or_app. right. now left. }
  rewrite <- (rolled_row_nil (last_history df) Hlen) at 1.
  now apply rollout_recursive.
Qed.

(** *** The rows of the recursive rollout *)

Lemma recursive_rollout_frozen (s : StandardScaler)
    (forest : RandomForestRegressor) (history : FeatureRow) (horizon : nat) :
  forall predictions,
    Forall (frozen history)
      (fst (recursive_rollout s forest history predictions horizon)).
Proof.
  induction horizon as [|horizon IH]; intro predictions; simpl;
    [constructor|].
  destruct (one_step s forest (rolled_row history predictions))
    as [next_price|e].
  - specialize (IH (predictions ++ [next_price])).
    destruct (recursive_rollout s forest history
                (predictions ++ [next_price]) horizon) as [rows out].
    simpl in *. constructor; [|exact IH]. repeat split.
  - simpl. constructor; [|constructor]. repeat split.
Qed.

Lemma recursive_rollout_length (s : StandardScaler)
    (forest : RandomForestRegressor) (history : FeatureRow) (horizon : nat) :
  forall predictions forecast,
    snd (recursive_rollout s forest history predictions horizon)
    = Returned forecast ->
    length forecast = (length predictions + horizon)%nat /\
    length (fst (recursive_rollout s forest history predictions horizon))
    = horizon.
Proof.
  induction horizon as [|horizon IH]; intros predictions forecast; simpl.
  - intro E. injection E as <-. split; [lia|reflexivity].
  - destruct (one_step s forest (rolled_row history predictions))
      as [next_price|e]; [|discriminate].
    specialize (IH (predictions ++ [next_price]) forecast).
    destruct (recursive_rollout s forest history
                (predictions ++ [next_price]) horizon) as [rows out].
    simpl in *. intro E. destruct (IH E) as [H1 H2].
    rewrite length_app in H1. simpl in H1. split; [lia|now f_equal].
Qed.

(** *** The scaler [train] leaves in the object *)

Lemma train_scaler (self : MLModel) (df : list (Date * R)) (test_size : Q) :
  scaler (fst (train Date self df test_size))
  = match scaler_fit (training_rows df test_size) with
    | Some s => Some s
    | None => scaler self
    end.
Proof.
  unfold train, training_rows. rewrite !length_map.
  set (X_train := slice_to _ _). set (X_test := slice_from _ _).
  destruct (scaler_fit X_train) as [s|]; [|reflexivity].
  destruct (scaler_transform s X_train); [|reflexivity].
  destruct (scaler_transform s X_test); [|reflexivity].
  destruct (forest_fit _ _ _ _ _); [|reflexivity].
  now destruct (forest_predict _ _).
Qed.

(** C2, as the code has it.  [train] leaves in the object the scaler it
    fitted on the training partition of the feature rows (or the old one,
    when fitting raised).  On an object with a fitted scaler and forest and
    a series with at least one feature row, [predict] is the recursive
    multi-step rollout from the last historical feature row: at each of the
    [days] steps the current row is scaled with the scaler the object
    holds - [predict] fits nothing -, the forest predicts one value, that
    value becomes the new [lag_1] and the other lag columns move up by one;
    the rolling means, the rolling deviation, the momentum and the rate of
    change of every row scaled are those of the last historical row; and a
    rollout that is not cut short by an exception makes [days] steps and
    returns [days] values. *)
Theorem rollout_with_training_scaler :
  (forall (self : MLModel) (df : list (Date * R)) (test_size : Q),
      scaler (fst (train Date self df test_size))
      = match scaler_fit (training_rows df test_size) with
        | Some s => Some s
        | None => scaler self
        end) /\
  (forall (self : MLModel) (s : StandardScaler)
          (forest : RandomForestRegressor) (df : list (Date * R))
          (days : nat),
      scaler self = Some s -> model self = Some forest ->
      create_features Date df 10 <> [] ->
      predict Date self df days
      = (calls_with s
           (fst (recursive_rollout s forest (last_history df) [] days)),
         snd (recursive_rollout s forest (last_history df) [] days)) /\
      Forall (frozen (last_history df))
        (fst (recursive_rollout s forest (last_history df) [] days)) /\
      (forall forecast,
          snd (recursive_rollout s forest (last_history df) [] days)
          = Returned forecast ->
          length forecast = days /\
          length (fst (recursive_rollout s forest (last_history df) []
                         days)) = days)).
Proof.
  split; [exact train_scaler|].
  intros self s forest df days Hs Hf Hne.
  split; [now apply predict_recursive|].
  split; [apply recursive_rollout_frozen|].
  intros forecast E.
  now apply (recursive_rollout_length s forest (last_history df) days []).
Qed.

End Rollout.

(** *** The model on the recording stand-in *)

(** The object [train] leaves behind on the thirty-two-day series. *)
Lemma trained_on_thirty_two_days :
  fst (train (H := recording) nat init thirty_two_days (1 # 5))
  = @mkML recording (Some tt) (Some (training_rows thirty_two_days (1 # 5))).
Proof.
  unfold train, training_rows. rewrite thirty_two_days_frame.
  vm_compute. reflexivity.
Defined.

Lemma thirty_two_days_have_features :
  create_features nat thirty_two_days 10 <> [].
Proof. rewrite thirty_two_days_frame. vm_compute. discriminate. Defined.

Lemma rollout_with_training_scaler_sample :
  predict (H := recording) nat
    (fst (train (H := recording) nat init thirty_two_days (1 # 5)))
    thirty_two_days 5
  = (calls_with (H := recording) (training_rows thirty_two_days (1 # 5))
       (fst (recursive_rollout (H := recording)
               (training_rows thirty_two_days (1 # 5)) tt
               (last_history thirty_two_days) [] 5)),
     snd (recursive_rollout (H := recording)
            (training_rows thirty_two_days (1 # 5)) tt
            (last_history thirty_two_days) [] 5)).
Proof.
  apply (proj2 (rollout_with_training_scaler (Date := nat) (H := recording))).
  - rewrite trained_on_thirty_two_days. reflexivity.
  - rewrite trained_on_thirty_two_days. reflexivity.
  - exact thirty_two_days_have_features.
Defined.

(** C2 as stated fails on the code: on the thirty-two-day series the
    feature frame has three rows, [train] fits the scaler on the first two,
    and each of the five steps of [predict] scales its row with that
    scaler; a scaler fitted on the entire series would have seen all
    three. *)
Lemma predict_reuses_the_training_scaler :
  length (fst (predict (H := recording) nat
                 (fst (train (H := recording) nat init thirty_two_days (1 # 5)))
                 thirty_two_days 5)) = 5%nat /\
  Forall (fun call : @Call recording =>
            match call with
            | Transform s _ => length (s : list FeatureRow) = 2%nat
            end)
    (fst (predict (H := recording) nat
            (fst (train (H := recording) nat init thirty_two_days (1 # 5)))
            thirty_two_days 5)) /\
  option_map (@length FeatureRow)
    (scaler_fit (Sklearn := recording)
       (map (features nat) (create_features nat thirty_two_days 10)))
  = Some 3%nat.
Proof.
  rewrite trained_on_thirty_two_days. unfold predict, training_rows.
  rewrite thirty_two_days_frame.
  split; [vm_compute; reflexivity|].
  split; [|vm_compute; reflexivity].
  vm_compute. repeat constructor.
Qed.

End RandomForestFacts.

(** ** Further properties of the strategy simulator *)

Module TradingMoreFacts.
Import Trading StrategySpec StrategyMore TradingFacts.
Open Scope Q_scope.

(** *** The candidate lists *)

Lemma sorted_filter (test : nat -> bool) (l : list nat) :
  StronglySorted lt l -> StronglySorted lt (filter test l).
Proof.
  induction 1 as [|x l Hs IH Hall]; simpl; [constructor|].
  destruct (test x); [|exact IH].
  constructor; [exact IH|].
  apply Forall_forall. intros y Hy. apply filter_In in Hy as [Hy _].
  rewrite Forall_forall in Hall. now apply Hall.
Qed.

Lemma sorted_seq (start len : nat) : StronglySorted lt (seq start len).
Proof.
  revert start. induction len as [|len IH]; intro start; simpl;
    constructor; [apply IH|].
  apply Forall_forall. intros y Hy. apply in_seq in Hy. lia.
Qed.

Lemma sorted_shift (l : list nat) :
  StronglySorted lt l -> StronglySorted lt (map (fun i => (i + 1)%nat) l).
Proof.
  induction 1 as [|x l Hs IH Hall]; simpl; constructor; [exact IH|].
  apply Forall_forall. intros y Hy. apply in_map_iff in Hy as (z & <- & Hz).
  rewrite Forall_forall in Hall. specialize (Hall z Hz). lia.
Qed.

Lemma collect_days_sorted (test : list Q -> nat -> bool) (forecast : list Q) :
  StronglySorted lt (map fst (collect test forecast)).
Proof.
  rewrite collect_filter, map_map. simpl.
  apply sorted_shift, sorted_filter. unfold range. apply sorted_seq.
Qed.

(** X1.  Each candidate list is in strictly increasing day order; a
    candidate's day lies between 2 and [len(forecast) - 1] and its price is
    the forecast value of that day; and no day is in both lists. *)
Theorem candidates_are_chronological (forecast : list Q) :
  StronglySorted lt (map fst (fst (find_local_extrema forecast))) /\
  StronglySorted lt (map fst (snd (find_local_extrema forecast))) /\
  (forall d p,
      In (d, p) (fst (find_local_extrema forecast)) \/
      In (d, p) (snd (find_local_extrema forecast)) ->
      (2 <= d <= length forecast - 1)%nat /\
      p = at_index forecast (d - 1)) /\
  (forall d p q,
      In (d, p) (fst (find_local_extrema forecast)) ->
      In (d, q) (snd (find_local_extrema forecast)) -> False).
Proof.
  simpl. split; [apply collect_days_sorted|].
  split; [apply collect_days_sorted|]. split.
  - intros d p [H|H]; apply in_collect in H as (i & H1 & H2 & -> & -> & _);
      (split; [lia|f_equal; lia]).
  - intros d p q Hmin Hmax.
    apply in_collect in Hmin as (i & _ & _ & -> & _ & Hi).
    apply in_collect in Hmax as (j & _ & _ & Hj & _ & Hj').
    assert (j = i) by lia. subst j.
    exact (min_max_exclusive _ _ Hi Hj').
Qed.

(** *** Forecasts without an extremum *)

Lemma filter_nothing {A : Type} (test : A -> bool) (l : list A) :
  (forall x, In x l -> test x = false) -> filter test l = [].
Proof.
  induction l as [|x l IH]; simpl; intro H; [reflexivity|].
  rewrite (H x) by now left. apply IH. intros y Hy. apply H. now right.
Qed.

Lemma collect_nothing (test : list Q -> nat -> bool) (forecast : list Q) :
  (forall i, (1 <= i)%nat -> (i + 1 < length forecast)%nat ->
             test forecast i = false) ->
  collect test forecast = [].
Proof.
  intro Hnone. rewrite collect_filter, filter_nothing; [reflexivity|].
  intros i Hi. apply in_range in Hi. apply Hnone; lia.
Qed.

Lemma andb_false_of (b c : bool) : b = false \/ c = false -> b && c = false.
Proof. intros [->| ->]; [reflexivity|apply andb_false_r]. Qed.

(** X2.  A forecast of fewer than three values, one that never falls and
    one that never rises have no buy and no sell candidate, and the strategy
    is the early return: no trade, no profit, the investment amount as final
    amount - whatever the amount is. *)
Theorem no_extremum_no_trade (current_price : Q) (forecast : list Q)
    (investment_amount : Q) :
  (length forecast < 3)%nat \/ never_falls forecast \/ never_rises forecast ->
  find_local_extrema forecast = ([], []) /\
  calculate_investment_strategy current_price forecast investment_amount
  = mkResult [] 0 0 investment_amount 0 None.
Proof.
  intro Hshape.
  assert (Hnone : find_local_extrema forecast = ([], [])).
  { unfold find_local_extrema.
    rewrite (collect_nothing is_local_min), (collect_nothing is_local_max);
      [reflexivity| |].
    - intros i H1 H2. unfold is_local_max. apply andb_false_of.
      destruct Hshape as [Hlen|[Hup|Hdown]]; [lia| |].
      + right. apply Qlt_bool_false_iff. apply Qle_not_lt. now apply Hup.
      + left. apply Qlt_bool_false_iff. apply Qle_not_lt.
        specialize (Hdown (i - 1)%nat).
        replace (i - 1 + 1)%nat with i in Hdown by lia. apply Hdown. lia.
    - intros i H1 H2. unfold is_local_min. apply andb_false_of.
      destruct Hshape as [Hlen|[Hup|Hdown]]; [lia| |].
      + left. apply Qlt_bool_false_iff. apply Qle_not_lt.
        specialize (Hup (i - 1)%nat).
        replace (i - 1 + 1)%nat with i in Hup by lia. apply Hup. lia.
      + right. apply Qlt_bool_false_iff. apply Qle_not_lt. now apply Hdown. }
  split; [exact Hnone|].
  unfold calculate_investment_strategy. now rewrite Hnone.
Qed.

Lemma steady_rise_never_falls : never_falls [1; 2; 3; 4; 5].
Proof.
  intros i Hi. simpl in Hi.
  do 4 (destruct i as [|i]; [discriminate|]). lia.
Defined.

Lemma no_extremum_no_trade_sample :
  find_local_extrema [1; 2; 3; 4; 5] = ([], []) /\
  calculate_investment_strategy 1 [1; 2; 3; 4; 5] 1000
  = mkResult [] 0 0 1000 0 None.
Proof.
  apply (no_extremum_no_trade 1 [1; 2; 3; 4; 5] 1000).
  right. left. exact steady_rise_never_falls.
Defined.

(** *** The recommendations, for every forecast *)





(** *** Scaling the investment amount *)

Lemma scaled_tests (k x y : Q) :
  0 < k -> y == k * x ->
  Qeq_bool y 0 = Qeq_bool x 0 /\ Qlt_bool 0 y = Qlt_bool 0 x.
Proof.
  intros Hk Hy. split.
  - destruct (Qeq_bool x 0) eqn:Ex.
    + apply Qeq_bool_iff in Ex. apply Qeq_bool_iff.
      rewrite Hy, Ex. ring.
    + destruct (Qeq_bool y 0) eqn:Ey; [|reflexivity].
      apply Qeq_bool_iff in Ey. rewrite Hy in Ey.
      apply Qmult_integral in Ey as [Ey|Ey].
      * rewrite Ey in Hk. now apply Qlt_irrefl in Hk.
      * apply Qeq_bool_iff in Ey. congruence.
  - destruct (Qlt_bool 0 x) eqn:Ex.
    + apply Qlt_bool_iff in Ex. apply Qlt_bool_iff. rewrite Hy.
      now apply Qmult_lt_0_compat.
    + apply Qlt_bool_false_iff in Ex. apply Qlt_bool_false_iff.
      intro H. apply Ex. rewrite Hy in H.
      apply (Qmult_lt_l 0 x k Hk). now rewrite Qmult_0_r.
Qed.

Lemma trade_step_scaled (k : Q) (st st' : SimState) (ev : Event) :
  0 < k -> scaled_state k st st' ->
  scaled_state k (trade_step st ev) (trade_step st' ev).
Proof.
  intros Hk (Htrades & Hcash & Hshares).
  destruct (scaled_tests k _ _ Hk Hshares) as [Heq Hlt].
  destruct ev as [[d p] a]. unfold trade_step. rewrite Heq, Hlt.
  destruct (is_buy a && Qeq_bool (sim_shares st) 0);
    [|destruct (is_sell a && Qlt_bool 0 (sim_shares st))];
    unfold scaled_state, append; cbn [sim_trades sim_cash sim_shares].
  - assert (E : sim_cash st' / p == k * (sim_cash st / p)).
    { rewrite Hcash. unfold Qdiv. ring. }
    split; [|split; [ring|exact E]].
    apply Forall2_app; [assumption|].
    constructor; [|constructor]. repeat split. exact E.
  - split; [|split; [rewrite Hshares; ring|ring]].
    apply Forall2_app; [assumption|].
    constructor; [|constructor]. repeat split. exact Hshares.
  - repeat split; assumption.
Qed.

Lemma liquidate_scaled (k : Q) (forecast : list Q) (st st' : SimState) :
  0 < k -> scaled_state k st st' ->
  scaled_state k (liquidate forecast st) (liquidate forecast st').
Proof.
  intros Hk (Htrades & Hcash & Hshares).
  destruct (scaled_tests k _ _ Hk Hshares) as [_ Hlt].
  unfold liquidate. rewrite Hlt.
  destruct (Qlt_bool 0 (sim_shares st));
    unfold scaled_state, append; cbn [sim_trades sim_cash sim_shares].
  - split; [|split; [rewrite Hshares; ring|ring]].
    apply Forall2_app; [assumption|].
    constructor; [|constructor]. repeat split. exact Hshares.
  - repeat split; assumption.
Qed.

Lemma simulate_scaled (k : Q) (forecast : list Q) (investment_amount : Q) :
  0 < k ->
  scaled_state k (simulate forecast investment_amount)
    (simulate forecast (k * investment_amount)).
Proof.
  intro Hk. rewrite !simulate_unfold. apply liquidate_scaled; [exact Hk|].
  unfold run_events.
  assert (H0 : scaled_state k (mkSim [] investment_amount 0)
                 (mkSim [] (k * investment_amount) 0)).
  { split; [constructor|]. split; simpl; ring. }
  revert H0.
  generalize (mkSim [] investment_amount 0)
             (mkSim [] (k * investment_amount) 0).
  induction (all_events _ _) as [|ev events IH]; intros st st' Hst; simpl;
    [exact Hst|].
  apply IH. now apply trade_step_scaled.
Qed.

(** X4.  In exact arithmetic (rounding aside): on a forecast of positive
    prices, investing [k] times as much ([k > 0]) gives the same trades on
    the same days at the same prices with [k] times the shares, [k] times
    the final amount and the total profit, and the same profit percentage.
    (In doubles the scaled amounts agree up to rounding only.) *)
Theorem strategy_scales_with_amount (current_price : Q) (forecast : list Q)
    (investment_amount k : Q) :
  0 < k -> 0 < investment_amount -> Forall (Qlt 0) forecast ->
  Forall2 (scaled_trade k)
    (recommendations
       (calculate_investment_strategy current_price forecast
          investment_amount))
    (recommendations
       (calculate_investment_strategy current_price forecast
          (k * investment_amount))) /\
  final_amount
    (calculate_investment_strategy current_price forecast
       (k * investment_amount))
  == k * final_amount
           (calculate_investment_strategy current_price forecast
              investment_amount) /\
  total_profit
    (calculate_investment_strategy current_price forecast
       (k * investment_amount))
  == k * total_profit
           (calculate_investment_strategy current_price forecast
              investment_amount) /\
  profit_percentage
    (calculate_investment_strategy current_price forecast
       (k * investment_amount))
  == profit_percentage
       (calculate_investment_strategy current_price forecast
          investment_amount).
Proof.
  intros Hk Ha Hpos.
  assert (Hka : 0 < k * investment_amount) by now apply Qmult_lt_0_compat.
  destruct (simulate_represents forecast investment_amount Ha Hpos)
    as [_ Hsh].
  destruct (simulate_represents forecast (k * investment_amount) Hka Hpos)
    as [_ Hsh'].
  destruct (strategy_of_simulation current_price forecast investment_amount
              Hsh) as (Hrec & Hfin & _ & Hprofit & Hpct).
  destruct (strategy_of_simulation current_price forecast
              (k * investment_amount) Hsh')
    as (Hrec' & Hfin' & _ & Hprofit' & Hpct').
  destruct (simulate_scaled k forecast investment_amount Hk)
    as (Htrades & Hcash & _).
  assert (Hf : final_amount
                 (calculate_investment_strategy current_price forecast
                    (k * investment_amount))
               == k * final_amount
                        (calculate_investment_strategy current_price forecast
                           investment_amount)).
  { now rewrite Hfin, Hfin'. }
  assert (Hp : total_profit
                 (calculate_investment_strategy current_price forecast
                    (k * investment_amount))
               == k * total_profit
                        (calculate_investment_strategy current_price forecast
                           investment_amount)).
  { rewrite Hprofit', Hprofit, Hf. ring. }
  split; [now rewrite Hrec, Hrec'|]. split; [exact Hf|].
  split; [exact Hp|].
  rewrite Hpct', Hpct, Hp. field. split; intro E.
  - rewrite E in Ha. now apply Qlt_irrefl in Ha.
  - rewrite E in Hk. now apply Qlt_irrefl in Hk.
Qed.

Lemma strategy_scales_with_amount_sample :
  final_amount (calculate_investment_strategy 10 sample_forecast (3 * 1000))
  == 3 * final_amount (calculate_investment_strategy 10 sample_forecast 1000)
  /\
  profit_percentage
    (calculate_investment_strategy 10 sample_forecast (3 * 1000))
  == profit_percentage (calculate_investment_strategy 10 sample_forecast 1000).
Proof.
  pose proof (strategy_scales_with_amount 10 sample_forecast 1000 3
                eq_refl sample_amount_positive sample_forecast_positive)
    as (_ & Hf & _ & Hp).
  split; assumption.
Defined.

(** *** The events in index order *)

Lemma sorted_permutation_unique (l1 l2 : list Event) :
  StronglySorted day_lt l1 -> StronglySorted day_lt l2 ->
  Permutation l1 l2 -> l1 = l2.
Proof.
  intro H1. revert l2. induction H1 as [|a l1 Hs1 IH Hall1]; intros l2 H2 Hp.
  - apply Permutation_nil in Hp. now subst.
  - destruct l2 as [|b l2].
    { symmetry in Hp. apply Permutation_nil in Hp. discriminate. }
    inversion H2 as [|? ? Hs2 Hall2]; subst.
    assert (Hab : a = b).
    { assert (Ha : In a (b :: l2))
        by (eapply Permutation_in; [exact Hp|now left]).
      assert (Hb : In b (a :: l1))
        by (eapply Permutation_in; [symmetry; exact Hp|now left]).
      destruct Ha as [Ha|Ha]; [now symmetry|].
      destruct Hb as [Hb|Hb]; [assumption|].
      rewrite Forall_forall in Hall1, Hall2.
      specialize (Hall1 b Hb). specialize (Hall2 a Ha).
      unfold day_lt in *. lia. }
    subst b. f_equal. apply IH; [assumption|].
    now apply Permutation_cons_inv in Hp.
Qed.

Lemma event_at_day (forecast : list Q) (i : nat) (e : Event) :
  In e (event_at forecast i) -> event_day e = (i + 1)%nat.
Proof.
  unfold event_at.
  destruct (is_local_min forecast i);
    [|destruct (is_local_max forecast i)]; simpl; intro H;
    try contradiction; destruct H as [<-|[]]; reflexivity.
Qed.

Lemma events_of_indices_sorted (forecast : list Q) (idx : list nat) :
  StronglySorted lt idx ->
  StronglySorted day_lt (flat_map (event_at forecast) idx).
Proof.
  induction 1 as [|i idx Hs IH Hall]; simpl; [constructor|].
  assert (Hlater : Forall (fun e => (i + 1 < event_day e)%nat)
                     (flat_map (event_at forecast) idx)).
  { apply Forall_forall. intros e He.
    apply in_flat_map in He as (j & Hj & He).
    apply event_at_day in He. rewrite Forall_forall in Hall.
    specialize (Hall j Hj). lia. }
  unfold event_at at 1.
  destruct (is_local_min forecast i);
    [|destruct (is_local_max forecast i)]; simpl; try exact IH.
  all: constructor; [exact IH|].
  all: eapply Forall_impl; [|exact Hlater]; intros e He; exact He.
Qed.

Lemma events_of_indices_perm (forecast : list Q) (idx : list nat) :
  Permutation (flat_map (event_at forecast) idx)
    (map (fun i => ((i + 1)%nat, at_index forecast i, buy))
       (filter (is_local_min forecast) idx) ++
     map (fun i => ((i + 1)%nat, at_index forecast i, sell))
       (filter (is_local_max forecast) idx)).
Proof.
  induction idx as [|i idx IH]; simpl; [constructor|].
  unfold event_at at 1.
  destruct (is_local_min forecast i) eqn:Emin.
  - destruct (is_local_max forecast i) eqn:Emax.
    + exfalso. exact (min_max_exclusive _ _ Emin Emax).
    + simpl. now constructor.
  - destruct (is_local_max forecast i); simpl; [|exact IH].
    now apply Permutation_cons_app.
Qed.

Lemma candidate_events_by_index (forecast : list Q) :
  candidate_events forecast = events_by_index forecast.
Proof.
  apply sorted_permutation_unique.
  - apply all_events_chronological.
  - apply events_of_indices_sorted. unfold range. apply sorted_seq.
  - unfold candidate_events. rewrite all_events_perm.
    unfold events_by_index. rewrite events_of_indices_perm.
    simpl. unfold tagged. rewrite !collect_filter, !map_map. reflexivity.
Qed.

Lemma fold_flat_map {A B S : Type} (step : S -> B -> S) (g : A -> list B)
    (l : list A) (st : S) :
  fold_left step (flat_map g l) st
  = fold_left (fun st a => fold_left step (g a) st) l st.
Proof.
  revert st. induction l as [|a l IH]; intro st; simpl; [reflexivity|].
  now rewrite fold_left_app, IH.
Qed.

(** *** Forecasts without flat steps *)

Lemma Qdiv_mult_back (c p : Q) : 0 < p -> c / p * p == c.
Proof.
  intro Hp. field. intro E. rewrite E in Hp. now apply Qlt_irrefl in Hp.
Qed.

Lemma not_losing_step (forecast : list Q) (investment_amount : Q) (i : nat)
    (st : SimState) :
  0 < investment_amount -> Forall (Qlt 0) forecast ->
  no_flat_steps forecast ->
  (1 <= i)%nat -> (i + 1 < length forecast)%nat ->
  not_losing forecast investment_amount i st ->
  not_losing forecast investment_amount (i + 1)
    (fold_left trade_step (event_at forecast i) st).
Proof.
  intros Ha Hpos Hflat H1 H2 Hst.
  assert (Hx : 0 < at_index forecast i)
    by (apply at_index_positive; [assumption|lia]).
  assert (Hxp : 0 < at_index forecast (i + 1))
    by (apply at_index_positive; [assumption|lia]).
  unfold not_losing. replace (i + 1 - 1)%nat with i by lia.
  unfold event_at.
  destruct Hst as [(Hsh & Hcase)|(Hc & Hs & Hne & Hrise & Hval)].
  - assert (Hcash : investment_amount <= sim_cash st).
    { destruct Hcase as [[_ ->]|[_ H]]; [apply Qle_refl|now apply Qlt_le_weak]. }
    destruct (is_local_min forecast i) eqn:Emin.
    + apply is_local_min_iff in Emin as [_ Hup].
      cbn [fold_left]. unfold trade_step. rewrite Hsh.
      change (is_buy buy && Qeq_bool 0 0) with true. cbv iota.
      right. cbn [sim_trades sim_cash sim_shares].
      assert (Hc0 : 0 < sim_cash st) by exact (Qlt_le_trans _ _ _ Ha Hcash).
      assert (Hs0 : 0 < sim_cash st / at_index forecast i)
        by now apply Qdiv_pos.
      split; [reflexivity|]. split; [exact Hs0|].
      split; [unfold append; now destruct (sim_trades st)|].
      split; [exact Hup|].
      pose proof (Qdiv_mult_back (sim_cash st) _ Hx) as Hback.
      Lqa.nra.
    + assert (Hsame : fold_left trade_step
                        (if is_local_max forecast i
                         then [((i + 1)%nat, at_index forecast i, sell)]
                         else []) st = st).
      { destruct (is_local_max forecast i); [|reflexivity].
        cbn [fold_left]. unfold trade_step. rewrite Hsh. reflexivity. }
      rewrite Hsame. left. split; assumption.
  - assert (Emin : is_local_min forecast i = false).
    { unfold is_local_min. apply andb_false_of. left.
      apply Qlt_bool_false_iff. intro H. apply (Qlt_irrefl (at_index forecast i)).
      now apply (Qlt_trans _ (at_index forecast (i - 1))). }
    rewrite Emin.
    destruct (is_local_max forecast i) eqn:Emax.
    + cbn [fold_left]. unfold trade_step.
      rewrite (Qlt_bool_pos _ Hs). cbn [is_buy is_sell andb].
      left. cbn [sim_trades sim_cash sim_shares].
      split; [reflexivity|]. right.
      split; [unfold append; now destruct (sim_trades st)|exact Hval].
    + cbn [fold_left]. right.
      assert (Hup : at_index forecast i < at_index forecast (i + 1)).
      { unfold is_local_max in Emax.
        apply andb_false_iff in Emax as [E|E];
          apply Qlt_bool_false_iff in E; [contradiction|].
        destruct (Q_dec (at_index forecast i) (at_index forecast (i + 1)))
          as [[H|H]|H]; [exact H|contradiction|].
        exfalso. exact (Hflat i H2 H). }
      repeat split; try assumption. Lqa.nra.
Qed.

Lemma not_losing_run (forecast : list Q) (investment_amount : Q) :
  0 < investment_amount -> Forall (Qlt 0) forecast ->
  no_flat_steps forecast ->
  forall (m i : nat) (st : SimState),
    (1 <= i)%nat -> (i + m < length forecast)%nat ->
    not_losing forecast investment_amount i st ->
    not_losing forecast investment_amount (i + m)
      (fold_left (fun st j => fold_left trade_step (event_at forecast j) st)
         (seq i m) st).
Proof.
  intros Ha Hpos Hflat. induction m as [|m IH]; intros i st H1 H2 Hst.
  - simpl. now rewrite Nat.add_0_r.
  - simpl. replace (i + S m)%nat with (S i + m)%nat by lia.
    apply IH; [lia|lia|].
    replace (S i) with (i + 1)%nat by lia.
    apply not_losing_step; try assumption. lia.
Qed.

Lemma simulate_not_losing (forecast : list Q) (investment_amount : Q) :
  0 < investment_amount -> Forall (Qlt 0) forecast ->
  no_flat_steps forecast ->
  investment_amount <= sim_cash (simulate forecast investment_amount) /\
  (sim_trades (simulate forecast investment_amount) <> [] ->
   investment_amount < sim_cash (simulate forecast investment_amount)).
Proof.
  intros Ha Hpos Hflat. rewrite simulate_unfold.
  fold (candidate_events forecast). rewrite candidate_events_by_index.
  unfold run_events, events_by_index. rewrite fold_flat_map.
  unfold range.
  set (m := (length forecast - 1 - 1)%nat).
  set (init := mkSim [] investment_amount 0).
  assert (Hinit : forall j, not_losing forecast investment_amount j init).
  { intro j. left. split; [reflexivity|]. left. split; reflexivity. }
  assert (Hloop : exists j, (j < length forecast \/ m = 0)%nat /\
            (m <> 0%nat -> j = (length forecast - 1)%nat) /\
            not_losing forecast investment_amount j
              (fold_left
                 (fun st j => fold_left trade_step (event_at forecast j) st)
                 (seq 1 m) init)).
  { destruct m as [|m'] eqn:Em.
    - exists 0%nat. simpl. repeat split; auto. intro H; congruence.
    - exists (1 + S m')%nat. subst m. split; [lia|]. split; [lia|].
      apply not_losing_run; try assumption; try lia. apply Hinit. }
  destruct Hloop as (j & Hj & Hjm & Hst).
  set (st := fold_left _ (seq 1 m) init) in *.
  unfold liquidate.
  destruct Hst as [(Hsh & Hcase)|(Hc & Hs & Hne & Hrise & Hval)].
  - rewrite Hsh. change (Qlt_bool 0 0) with false. cbv iota.
    destruct Hcase as [[Hnil Hcash]|[Hne Hcash]].
    + rewrite Hcash. split; [apply Qle_refl|]. intro H. contradiction.
    + split; [now apply Qlt_le_weak|]. intros _. exact Hcash.
  - rewrite (Qlt_bool_pos _ Hs). cbn [sim_cash sim_trades].
    assert (Hm : m <> 0%nat).
    { intro E. subst st. rewrite E in Hs. simpl in Hs.
      now apply Qlt_irrefl in Hs. }
    rewrite last_price_at_index, <- (Hjm Hm).
    split; [now apply Qlt_le_weak|]. intros _. exact Hval.
Qed.

(** X5.  In exact arithmetic (rounding and underflow aside): on a forecast
    of positive prices in which no two consecutive values are equal, the
    strategy never loses money: the final amount is at least the (positive)
    investment amount, and strictly more as soon as one trade is executed.
    (In doubles a gain smaller than the rounding error is reported as 0.) *)
Theorem no_loss_without_flat_steps (current_price : Q) (forecast : list Q)
    (investment_amount : Q) :
  0 < investment_amount -> Forall (Qlt 0) forecast ->
  no_flat_steps forecast ->
  investment_amount
  <= final_amount
       (calculate_investment_strategy current_price forecast
          investment_amount) /\
  0 <= total_profit
         (calculate_investment_strategy current_price forecast
            investment_amount) /\
  (trades_count
     (calculate_investment_strategy current_price forecast investment_amount)
   <> 0%nat ->
   0 < total_profit
         (calculate_investment_strategy current_price forecast
            investment_amount)).
Proof.
  intros Ha Hpos Hflat.
  destruct (simulate_represents forecast investment_amount Ha Hpos)
    as [_ Hsh].
  destruct (strategy_of_simulation current_price forecast investment_amount
              Hsh) as (Hrec & Hfin & Hcount & Hprofit & _).
  destruct (simulate_not_losing forecast investment_amount Ha Hpos Hflat)
    as [Hle Hlt].
  rewrite Hprofit, Hcount, Hrec, Hfin.
  split; [exact Hle|]. split; [Lqa.lra|].
  intro Hn. assert (sim_trades (simulate forecast investment_amount) <> []).
  { intro E. rewrite E in Hn. now apply Hn. }
  specialize (Hlt H). Lqa.lra.
Qed.

Lemma zigzag_forecast_positive : Forall (Qlt 0) zigzag_forecast.
Proof. repeat constructor. Defined.

Lemma zigzag_has_no_flat_steps : no_flat_steps zigzag_forecast.
Proof.
  intros i Hi. simpl in Hi.
  do 6 (destruct i as [|i]; [discriminate|]). lia.
Defined.

Lemma no_loss_without_flat_steps_sample :
  1000 <= final_amount (calculate_investment_strategy 10 zigzag_forecast 1000)
  /\ 0 <= total_profit (calculate_investment_strategy 10 zigzag_forecast 1000).
Proof.
  pose proof (no_loss_without_flat_steps 10 zigzag_forecast 1000
                sample_amount_positive zigzag_forecast_positive
                zigzag_has_no_flat_steps) as (H1 & H2 & _).
  split; assumption.
Defined.

(** With a flat step the strategy can lose: the sale at the later, lower
    maximum ends below the purchase. *)
Example loss_with_a_flat_step :
  final_amount (calculate_investment_strategy 10 [10; 5; 6; 6; 3; 4; 2] 1000)
  == 800.
Proof. reflexivity. Qed.

End TradingMoreFacts.

(** ** Further properties of the metrics *)

Module MetricsMoreFacts.
Import Metrics MetricsMore MetricsFacts.
Open Scope R_scope.

(** *** When [calculate_metrics] raises *)

Lemma broadcast_none {A : Type} (f : R -> R -> A) (xs ys : list R) :
  broadcast f xs ys = None <-> ~ broadcastable (length xs) (length ys).
Proof.
  unfold broadcast, broadcastable.
  destruct (Nat.eqb_spec (length xs) (length ys)) as [E|E].
  - split; [discriminate|]. intro H. exfalso. apply H. now left.
  - destruct xs as [|x [|x' xs]]; destruct ys as [|y [|y' ys]]; simpl in *;
      split; intro H; try discriminate; try reflexivity;
      try (exfalso; apply H; lia); try lia.
Qed.

Lemma broadcast_length {A : Type} (f : R -> R -> A) (xs ys : list R)
    (zs : list A) :
  broadcast f xs ys = Some zs ->
  length zs = length xs \/ (length xs = 1%nat /\ length zs = length ys).
Proof.
  unfold broadcast.
  destruct (Nat.eqb_spec (length xs) (length ys)) as [E|E].
  - intro H. injection H as <-. left.
    rewrite length_map, length_combine, <- E. apply Nat.min_id.
  - destruct xs as [|x [|x' xs]]; destruct ys as [|y [|y' ys]];
      intro H; try discriminate; injection H as <-;
      simpl; rewrite ?length_map; auto.
Qed.

(** The ratios broadcast whenever the residuals do, so the only
    [ValueError] is that of the subtraction. *)
Lemma calculate_metrics_none (y_true y_pred : list R) :
  calculate_metrics y_true y_pred = None <->
  length y_true <> length y_pred /\
  length y_true <> 1%nat /\ length y_pred <> 1%nat.
Proof.
  assert (Hb : ~ broadcastable (length y_true) (length y_pred) <->
               length y_true <> length y_pred /\
               length y_true <> 1%nat /\ length y_pred <> 1%nat).
  { unfold broadcastable. lia. }
  rewrite <- Hb, <- (broadcast_none Rminus). unfold calculate_metrics.
  destruct (broadcast Rminus y_true y_pred) as [diff|] eqn:Ed;
    [|split; reflexivity].
  destruct (broadcast fdiv diff y_true) as [ratios|] eqn:Er;
    [split; discriminate|].
  exfalso. apply broadcast_none in Er. apply Er. unfold broadcastable.
  apply broadcast_length in Ed. lia.
Qed.

(** X6.  [calculate_metrics] raises exactly when the two arrays do not
    broadcast: their lengths differ and neither is 1. *)
Theorem metrics_raise_iff_not_broadcastable (y_true y_pred : list R) :
  calculate_metrics y_true y_pred = None <->
  length y_true <> length y_pred /\
  length y_true <> 1%nat /\ length y_pred <> 1%nat.
Proof. apply calculate_metrics_none. Qed.


(** *** The ranges of the four metrics *)

Lemma np_sum_nonneg (xs : list R) : Forall (Rle 0) xs -> 0 <= np_sum xs.
Proof. induction 1; simpl; lra. Qed.

Lemma squares_nonneg (xs : list R) : Forall (Rle 0) (map (fun d => d ^ 2) xs).
Proof. apply Forall_map, Forall_forall. intros d _. apply pow2_ge_0. Qed.

Lemma abs_nonneg (xs : list R) : Forall (Rle 0) (map Rabs xs).
Proof. apply Forall_map, Forall_forall. intros d _. apply Rabs_pos. Qed.

Lemma length_positive {A : Type} (x : A) (xs : list A) :
  0 < INR (length (x :: xs)).
Proof. apply lt_0_INR. simpl. lia. Qed.

Lemma np_mean_nonneg (xs : list R) :
  Forall (Rle 0) xs -> at_least 0 (np_mean xs).
Proof.
  intro H. destruct xs as [|x xs]; [exact I|].
  unfold np_mean, at_least, Rdiv.
  apply Rle_mult_inv_pos; [now apply np_sum_nonneg|apply length_positive].
Qed.

Lemma all_finite_abs_nonneg (ratios : list number) :
  forall rs, all_finite (map (number_map Rabs) ratios) = Some rs ->
             Forall (Rle 0) rs.
Proof.
  induction ratios as [|[r|] ratios IH]; simpl; intros rs H.
  - injection H as <-. constructor.
  - destruct (all_finite (map (number_map Rabs) ratios)) as [rs'|];
      [|discriminate].
    injection H as <-. constructor; [apply Rabs_pos|now apply IH].
  - discriminate.
Qed.

(** The parts of the returned dictionary, given the residuals. *)
Lemma calculate_metrics_parts (y_true y_pred : list R) (m : MetricsDict) :
  calculate_metrics y_true y_pred = Some m ->
  exists diff ratios,
    broadcast Rminus y_true y_pred = Some diff /\
    broadcast fdiv diff y_true = Some ratios /\
    RMSE m = number_map sqrt (np_mean (map (fun d => d ^ 2) diff)) /\
    MAE m = np_mean (map Rabs diff) /\
    MAPE m = number_map (fun v => v * 100)
               (np_mean_numbers (map (number_map Rabs) ratios)) /\
    R2 m = (if Req_dec_T (total_variance y_true) 0 then 0
            else 1 - np_sum (map (fun d => d ^ 2) diff)
                     / total_variance y_true).
Proof.
  unfold calculate_metrics. intro H.
  destruct (broadcast Rminus y_true y_pred) as [diff|]; [|discriminate].
  destruct (broadcast fdiv diff y_true) as [ratios|] eqn:Er; [|discriminate].
  injection H as <-. exists diff, ratios. repeat split; auto.
Qed.

Lemma total_variance_nonneg (y_true : list R) : 0 <= total_variance y_true.
Proof. apply np_sum_nonneg, squares_nonneg. Qed.

(** X7.  Whatever the two arrays, a returned RMSE, MAE or MAPE that is a
    number is not negative, and the returned R2 is at most 1. *)
Theorem metrics_ranges (y_true y_pred : list R) (m : MetricsDict) :
  calculate_metrics y_true y_pred = Some m ->
  at_least 0 (RMSE m) /\ at_least 0 (MAE m) /\ at_least 0 (MAPE m) /\
  R2 m <= 1.
Proof.
  intro H. apply calculate_metrics_parts in H.
  destruct H as (diff & ratios & _ & _ & -> & -> & -> & ->).
  repeat split.
  - destruct (np_mean (map (fun d => d ^ 2) diff)); simpl;
      [apply sqrt_pos|exact I].
  - apply np_mean_nonneg, abs_nonneg.
  - unfold np_mean_numbers.
    destruct (all_finite (map (number_map Rabs) ratios)) as [rs|] eqn:E;
      [|exact I].
    apply all_finite_abs_nonneg in E. apply np_mean_nonneg in E.
    destruct (np_mean rs); simpl in *; [lra|exact I].
  - destruct (Req_dec_T (total_variance y_true) 0) as [_|Hv]; [lra|].
    pose proof (total_variance_nonneg y_true) as Ht.
    assert (0 <= np_sum (map (fun d => d ^ 2) diff) / total_variance y_true).
    { unfold Rdiv. apply Rle_mult_inv_pos;
        [apply np_sum_nonneg, squares_nonneg|lra]. }
    lra.
Qed.

Lemma metrics_ranges_sample :
  exists m, calculate_metrics [1; 2] [1; 3] = Some m /\
            at_least 0 (RMSE m) /\ R2 m <= 1.
Proof.
  eexists. split; [reflexivity|].
  pose proof (metrics_ranges [1; 2] [1; 3] _ eq_refl) as (H1 & _ & _ & H4).
  split; assumption.
Defined.


(** *** A zero error means equal arrays *)

Lemma np_sum_zero (xs : list R) :
  Forall (Rle 0) xs -> np_sum xs = 0 -> Forall (fun x => x = 0) xs.
Proof.
  induction 1 as [|x xs Hx Hxs IH]; simpl; intro H; constructor.
  - pose proof (np_sum_nonneg xs Hxs). lra.
  - apply IH. pose proof (np_sum_nonneg xs Hxs). lra.
Qed.

Lemma np_sum_of_zeros (xs : list R) :
  Forall (fun x => x = 0) xs -> np_sum xs = 0.
Proof. induction 1 as [|x xs -> _ IH]; simpl; lra. Qed.

Lemma Forall_map_iff {A B : Type} (P : B -> Prop) (f : A -> B) (l : list A) :
  Forall P (map f l) <-> Forall (fun a => P (f a)) l.
Proof. apply Forall_map. Qed.

Lemma square_is_zero (d : R) : d ^ 2 = 0 <-> d = 0.
Proof.
  split; [|intros ->; simpl; lra].
  simpl. intro H. rewrite Rmult_1_r in H.
  now destruct (Rmult_integral _ _ H).
Qed.

Lemma abs_is_zero (d : R) : Rabs d = 0 <-> d = 0.
Proof.
  split; [|intros ->; apply Rabs_R0].
  intro H. destruct (Req_dec d 0) as [E|E]; [exact E|].
  now apply Rabs_no_R0 in E.
Qed.

(** The sum of squares is zero exactly when every residual is. *)
Lemma sum_of_squares_zero (diff : list R) :
  np_sum (map (fun d => d ^ 2) diff) = 0 <-> Forall (fun d => d = 0) diff.
Proof.
  split; intro H.
  - apply np_sum_zero in H; [|apply squares_nonneg].
    apply Forall_map_iff in H. eapply Forall_impl; [|exact H].
    intros d Hd. now apply square_is_zero.
  - apply np_sum_of_zeros, Forall_map_iff.
    eapply Forall_impl; [|exact H]. intros d Hd. now apply square_is_zero.
Qed.

Lemma sum_of_abs_zero (diff : list R) :
  np_sum (map Rabs diff) = 0 <-> Forall (fun d => d = 0) diff.
Proof.
  split; intro H.
  - apply np_sum_zero in H; [|apply abs_nonneg].
    apply Forall_map_iff in H. eapply Forall_impl; [|exact H].
    intros d Hd. now apply abs_is_zero.
  - apply np_sum_of_zeros, Forall_map_iff.
    eapply Forall_impl; [|exact H]. intros d Hd. now apply abs_is_zero.
Qed.

(** The mean of a non-empty array is zero exactly when its sum is. *)
Lemma np_mean_zero (xs : list R) :
  xs <> [] -> (np_mean xs = fin 0 <-> np_sum xs = 0).
Proof.
  intro Hne. destruct xs as [|x xs]; [congruence|].
  unfold np_mean. pose proof (length_positive x xs) as Hn.
  split; intro H.
  - injection H as H. unfold Rdiv in H.
    destruct (Rmult_integral _ _ H) as [E|E]; [exact E|].
    exfalso. apply (Rinv_neq_0_compat (INR (length (x :: xs)))); [lra|exact E].
  - rewrite H. f_equal. unfold Rdiv. apply Rmult_0_l.
Qed.

(** Elementwise residuals are all zero exactly when the arrays are equal. *)
Lemma residuals_zero_iff (y_true y_pred : list R) :
  length y_true = length y_pred ->
  (Forall (fun d => d = 0)
     (map (fun xy => fst xy - snd xy) (combine y_true y_pred))
   <-> y_true = y_pred).
Proof.
  revert y_pred.
  induction y_true as [|a y_true IH]; intros [|b y_pred] Hlen;
    try discriminate.
  - split; [reflexivity|constructor].
  - injection Hlen as Hlen. simpl. split; intro H.
    + inversion H as [|d ds Hd Hds]; subst.
      apply IH in Hds; [|exact Hlen]. f_equal; [lra|exact Hds].
    + injection H as -> ->. constructor; [lra|]. now apply IH.
Qed.

(** X8.  For non-empty arrays of equal length, RMSE is 0 exactly when the
    predictions equal the actual values, and so is MAE; when the total
    variance of the actual values is not zero, R2 is 1 exactly then. *)
Theorem zero_error_iff_equal (y_true y_pred : list R) (m : MetricsDict) :
  length y_true = length y_pred ->
  y_true <> [] ->
  calculate_metrics y_true y_pred = Some m ->
  (RMSE m = fin 0 <-> y_true = y_pred) /\
  (MAE m = fin 0 <-> y_true = y_pred) /\
  (total_variance y_true <> 0 -> (R2 m = 1 <-> y_true = y_pred)).
Proof.
  intros Hlen Hne H. apply calculate_metrics_parts in H.
  destruct H as (diff & ratios & Hd & _ & -> & -> & _ & ->).
  rewrite broadcast_same_length in Hd by exact Hlen. injection Hd as <-.
  set (diff := map (fun xy => fst xy - snd xy) (combine y_true y_pred)).
  assert (Hdne : diff <> []).
  { subst diff. destruct y_true; [congruence|].
    destruct y_pred; discriminate. }
  rewrite <- (residuals_zero_iff y_true y_pred Hlen). fold diff.
  assert (Hsq : map (fun d => d ^ 2) diff <> [])
    by (destruct diff; [congruence|discriminate]).
  assert (Hab : map Rabs diff <> [])
    by (destruct diff; [congruence|discriminate]).
  split; [|split].
  - rewrite <- sum_of_squares_zero, <- (np_mean_zero _ Hsq).
    pose proof (np_mean_nonneg _ (squares_nonneg diff)) as Hpos.
    destruct (np_mean (map (fun d => d ^ 2) diff)) as [v|]; simpl in *.
    + split; intro H.
      * injection H as H. f_equal. now apply sqrt_eq_0.
      * injection H as ->. f_equal. apply sqrt_0.
    + split; discriminate.
  - rewrite <- sum_of_abs_zero. now apply np_mean_zero.
  - intro Hv. rewrite <- sum_of_squares_zero.
    destruct (Req_dec_T (total_variance y_true) 0) as [E|_]; [contradiction|].
    split; intro H.
    + assert (E : np_sum (map (fun d => d ^ 2) diff) / total_variance y_true
                  = 0) by lra.
      unfold Rdiv in E. destruct (Rmult_integral _ _ E) as [E'|E'];
        [exact E'|].
      exfalso. now apply (Rinv_neq_0_compat (total_variance y_true)).
    + rewrite H. unfold Rdiv. rewrite Rmult_0_l. lra.
Qed.

Lemma zero_error_iff_equal_sample :
  exists m, calculate_metrics [1; 2] [1; 3] = Some m /\
            RMSE m <> fin 0 /\ MAE m <> fin 0.
Proof.
  eexists. split; [reflexivity|].
  assert (Hne : [1; 2] <> @nil R) by discriminate.
  pose proof (zero_error_iff_equal [1; 2] [1; 3] _ eq_refl Hne eq_refl)
    as (H1 & H2 & _).
  assert (Hdiff : [1; 2] <> [1; 3]).
  { intro E. injection E as E. lra. }
  split; intro E; apply Hdiff; [now apply H1|now apply H2].
Defined.


(** *** Exchanging the two arrays *)

Lemma combine_swap {A : Type} (f : R -> R -> A) (xs ys : list R) :
  map (fun xy => f (fst xy) (snd xy)) (combine xs ys)
  = map (fun yx => f (snd yx) (fst yx)) (combine ys xs).
Proof.
  revert ys. induction xs as [|x xs IH]; intros [|y ys]; simpl;
    try reflexivity.
  now rewrite IH.
Qed.

Lemma broadcast_swap {A : Type} (f : R -> R -> A) (xs ys : list R) :
  broadcast f xs ys = broadcast (fun y x => f x y) ys xs.
Proof.
  unfold broadcast. rewrite (Nat.eqb_sym (length ys)).
  destruct (length xs =? length ys)%nat eqn:E.
  - f_equal. apply combine_swap.
  - destruct xs as [|x [|x' xs]]; destruct ys as [|y [|y' ys]];
      try reflexivity; discriminate.
Qed.

Lemma broadcast_post {A B : Type} (g : A -> B) (f : R -> R -> A)
    (xs ys : list R) :
  broadcast (fun x y => g (f x y)) xs ys
  = option_map (map g) (broadcast f xs ys).
Proof.
  unfold broadcast. destruct (length xs =? length ys)%nat.
  - simpl. now rewrite map_map.
  - destruct xs as [|x [|x' xs]]; destruct ys as [|y [|y' ys]];
      simpl; rewrite ?map_map; reflexivity.
Qed.

(** The residuals the other way round are the opposite numbers. *)
Lemma residuals_swap (y_true y_pred : list R) :
  broadcast Rminus y_pred y_true
  = option_map (map Ropp) (broadcast Rminus y_true y_pred).
Proof.
  rewrite (broadcast_swap Rminus y_pred y_true), <- broadcast_post.
  unfold broadcast. destruct (length y_true =? length y_pred)%nat.
  - f_equal. apply map_ext. intros [a b]. simpl. lra.
  - destruct y_true as [|x [|x' xs]]; destruct y_pred as [|y [|y' ys]];
      try reflexivity; f_equal; simpl; f_equal; try lra;
      try (f_equal; try lra); apply map_ext; intro; lra.
Qed.

(** Whether a dictionary is returned depends on the residuals only. *)
Lemma calculate_metrics_of_residuals (y_true y_pred diff : list R) :
  broadcast Rminus y_true y_pred = Some diff ->
  exists m, calculate_metrics y_true y_pred = Some m.
Proof.
  intro Hd. destruct (calculate_metrics y_true y_pred) as [m|] eqn:E;
    [now exists m|].
  exfalso. apply calculate_metrics_none in E.
  assert (Hn : broadcast Rminus y_true y_pred <> None) by congruence.
  apply Hn, broadcast_none. unfold broadcastable. lia.
Qed.

Lemma squares_of_opposites (diff : list R) :
  map (fun d => d ^ 2) (map Ropp diff) = map (fun d => d ^ 2) diff.
Proof. rewrite map_map. apply map_ext. intro d. simpl. lra. Qed.

Lemma abs_of_opposites (diff : list R) :
  map Rabs (map Ropp diff) = map Rabs diff.
Proof. rewrite map_map. apply map_ext. intro d. apply Rabs_Ropp. Qed.

(** X9.  RMSE and MAE do not depend on which array is called the actual one:
    with the arguments exchanged, [calculate_metrics] raises in the same
    cases and returns the same RMSE and the same MAE. *)
Theorem errors_are_symmetric (y_true y_pred : list R) :
  option_map RMSE (calculate_metrics y_pred y_true)
  = option_map RMSE (calculate_metrics y_true y_pred) /\
  option_map MAE (calculate_metrics y_pred y_true)
  = option_map MAE (calculate_metrics y_true y_pred).
Proof.
  pose proof (residuals_swap y_true y_pred) as Hs.
  destruct (broadcast Rminus y_true y_pred) as [diff|] eqn:Hd.
  - simpl in Hs.
    destruct (calculate_metrics_of_residuals _ _ _ Hd) as [m Hm].
    destruct (calculate_metrics_of_residuals _ _ _ Hs) as [m' Hm'].
    rewrite Hm, Hm'. simpl.
    apply calculate_metrics_parts in Hm, Hm'.
    destruct Hm as (d1 & _ & H1 & _ & -> & -> & _).
    destruct Hm' as (d2 & _ & H2 & _ & -> & -> & _).
    rewrite Hd in H1. rewrite Hs in H2.
    injection H1 as <-. injection H2 as <-.
    now rewrite squares_of_opposites, abs_of_opposites.
  - simpl in Hs.
    assert (H1 : calculate_metrics y_true y_pred = None).
    { unfold calculate_metrics. now rewrite Hd. }
    assert (H2 : calculate_metrics y_pred y_true = None).
    { unfold calculate_metrics. now rewrite Hs. }
    now rewrite H1, H2.
Qed.


(** *** Adding a constant to both arrays *)

Lemma broadcast_ext {A : Type} (f g : R -> R -> A) (xs ys : list R) :
  (forall x y, f x y = g x y) -> broadcast f xs ys = broadcast g xs ys.
Proof.
  intro H. unfold broadcast. destruct (length xs =? length ys)%nat.
  - f_equal. apply map_ext. intros [x y]. apply H.
  - destruct xs as [|x [|x' xs]]; destruct ys as [|y [|y' ys]];
      try reflexivity; f_equal; simpl; rewrite ?H; f_equal;
      rewrite ?H; try reflexivity; f_equal; apply map_ext; intro; apply H.
Qed.

Lemma combine_map {A B : Type} (g : A -> B) (xs ys : list A) :
  combine (map g xs) (map g ys)
  = map (fun xy => (g (fst xy), g (snd xy))) (combine xs ys).
Proof.
  revert ys. induction xs as [|x xs IH]; intros [|y ys]; simpl;
    try reflexivity.
  now rewrite IH.
Qed.

Lemma broadcast_pre {A : Type} (g : R -> R) (f : R -> R -> A)
    (xs ys : list R) :
  broadcast f (map g xs) (map g ys)
  = broadcast (fun x y => f (g x) (g y)) xs ys.
Proof.
  unfold broadcast. rewrite !length_map.
  destruct (length xs =? length ys)%nat.
  - f_equal. rewrite combine_map, map_map. reflexivity.
  - destruct xs as [|x [|x' xs]]; destruct ys as [|y [|y' ys]];
      simpl; rewrite ?map_map; reflexivity.
Qed.

Lemma residuals_shifted (c : R) (y_true y_pred : list R) :
  broadcast Rminus (shifted c y_true) (shifted c y_pred)
  = broadcast Rminus y_true y_pred.
Proof.
  unfold shifted. rewrite broadcast_pre. apply broadcast_ext.
  intros x y. lra.
Qed.

Lemma np_sum_shifted (c : R) (ys : list R) :
  np_sum (shifted c ys) = np_sum ys + INR (length ys) * c.
Proof.
  induction ys as [|y ys IH]; [simpl; lra|].
  change (np_sum (shifted c (y :: ys)))
    with (y + c + np_sum (shifted c ys)).
  change (np_sum (y :: ys)) with (y + np_sum ys).
  change (length (y :: ys)) with (S (length ys)).
  rewrite IH, S_INR. lra.
Qed.

Lemma centered_shifted (c : R) (ys : list R) :
  centered (shifted c ys) = centered ys.
Proof.
  destruct ys as [|y ys]; [reflexivity|].
  unfold centered, np_mean.
  change (shifted c (y :: ys)) with (y + c :: shifted c ys) at 1.
  cbv iota.
  change (y + c :: shifted c ys) with (shifted c (y :: ys)).
  rewrite np_sum_shifted. unfold shifted. rewrite length_map, map_map.
  pose proof (length_positive y ys) as Hn.
  apply map_ext. intro v. field. lra.
Qed.

Lemma total_variance_shifted (c : R) (ys : list R) :
  total_variance (shifted c ys) = total_variance ys.
Proof. unfold total_variance. now rewrite centered_shifted. Qed.

(** X10.  Adding one constant to every actual and every predicted value
    changes neither RMSE nor MAE nor R2, and does not change whether
    [calculate_metrics] raises. *)
Theorem errors_ignore_a_common_shift (c : R) (y_true y_pred : list R) :
  let before := calculate_metrics y_true y_pred in
  let after := calculate_metrics (shifted c y_true) (shifted c y_pred) in
  option_map RMSE after = option_map RMSE before /\
  option_map MAE after = option_map MAE before /\
  option_map R2 after = option_map R2 before.
Proof.
  cbv zeta. pose proof (residuals_shifted c y_true y_pred) as Hs.
  destruct (broadcast Rminus y_true y_pred) as [diff|] eqn:Hd.
  - destruct (calculate_metrics_of_residuals _ _ _ Hd) as [m Hm].
    destruct (calculate_metrics_of_residuals _ _ _ Hs) as [m' Hm'].
    rewrite Hm, Hm'. simpl.
    apply calculate_metrics_parts in Hm, Hm'.
    destruct Hm as (d1 & _ & H1 & _ & -> & -> & _ & ->).
    destruct Hm' as (d2 & _ & H2 & _ & -> & -> & _ & ->).
    rewrite Hd in H1. rewrite Hs in H2.
    injection H1 as <-. injection H2 as <-.
    now rewrite total_variance_shifted.
  - assert (H1 : calculate_metrics y_true y_pred = None).
    { unfold calculate_metrics. now rewrite Hd. }
    assert (H2 : calculate_metrics (shifted c y_true) (shifted c y_pred)
                 = None).
    { unfold calculate_metrics. now rewrite Hs. }
    now rewrite H1, H2.
Qed.


(** *** Changing the unit of the prices *)

Lemma residuals_scaled (k : R) (y_true y_pred : list R) :
  broadcast Rminus (scaled k y_true) (scaled k y_pred)
  = option_map (scaled k) (broadcast Rminus y_true y_pred).
Proof.
  unfold scaled. rewrite broadcast_pre.
  rewrite (broadcast_ext _ (fun x y => k * (x - y)))
    by (intros x y; lra).
  apply (broadcast_post (fun d => k * d) Rminus).
Qed.

Lemma fdiv_scaled (k d y : R) : k <> 0 -> fdiv (k * d) (k * y) = fdiv d y.
Proof.
  intro Hk. unfold fdiv.
  destruct (Req_dec_T (k * y) 0) as [E|E], (Req_dec_T y 0) as [E'|E'].
  - reflexivity.
  - destruct (Rmult_integral _ _ E); contradiction.
  - subst y. rewrite Rmult_0_r in E. contradiction.
  - f_equal. field. split; assumption.
Qed.

Lemma ratios_scaled (k : R) (diff y_true : list R) :
  k <> 0 ->
  broadcast fdiv (scaled k diff) (scaled k y_true)
  = broadcast fdiv diff y_true.
Proof.
  intro Hk. unfold scaled. rewrite broadcast_pre. apply broadcast_ext.
  intros d y. now apply fdiv_scaled.
Qed.

Lemma np_sum_scaled (k : R) (xs : list R) :
  np_sum (scaled k xs) = k * np_sum xs.
Proof.
  induction xs as [|x xs IH]; [simpl; lra|].
  change (np_sum (scaled k (x :: xs))) with (k * x + np_sum (scaled k xs)).
  change (np_sum (x :: xs)) with (x + np_sum xs).
  rewrite IH. lra.
Qed.

Lemma np_mean_scaled (k : R) (xs : list R) :
  np_mean (scaled k xs) = times k (np_mean xs).
Proof.
  destruct xs as [|x xs]; [reflexivity|].
  unfold np_mean.
  change (scaled k (x :: xs)) with (k * x :: scaled k xs) at 1.
  cbv iota. change (k * x :: scaled k xs) with (scaled k (x :: xs)).
  rewrite np_sum_scaled. unfold scaled. rewrite length_map.
  unfold times, number_map. f_equal. unfold Rdiv. apply Rmult_assoc.
Qed.

Lemma squares_scaled (k : R) (diff : list R) :
  map (fun d => d ^ 2) (scaled k diff)
  = scaled (k ^ 2) (map (fun d => d ^ 2) diff).
Proof.
  unfold scaled. rewrite !map_map. apply map_ext. intro d. simpl. lra.
Qed.

Lemma abs_scaled (k : R) (diff : list R) :
  map Rabs (scaled k diff) = scaled (Rabs k) (map Rabs diff).
Proof.
  unfold scaled. rewrite !map_map. apply map_ext. intro d. apply Rabs_mult.
Qed.

Lemma sqrt_times_square (k : R) (x : number) :
  number_map sqrt (times (k ^ 2) x) = times (Rabs k) (number_map sqrt x).
Proof.
  destruct x as [v|]; [|reflexivity]. simpl. f_equal.
  change (k * (k * 1)) with (k ^ 2).
  rewrite sqrt_mult_alt by apply pow2_ge_0.
  now rewrite <- Rsqr_pow2, sqrt_Rsqr_abs.
Qed.

Lemma centered_scaled (k : R) (ys : list R) :
  centered (scaled k ys) = scaled k (centered ys).
Proof.
  unfold centered. rewrite np_mean_scaled.
  destruct (np_mean ys) as [v|]; [|reflexivity]. simpl.
  unfold scaled. rewrite !map_map. apply map_ext. intro y. lra.
Qed.

Lemma total_variance_scaled (k : R) (ys : list R) :
  total_variance (scaled k ys) = k ^ 2 * total_variance ys.
Proof.
  unfold total_variance.
  now rewrite centered_scaled, squares_scaled, np_sum_scaled.
Qed.

Lemma square_not_zero (k : R) : k <> 0 -> k ^ 2 <> 0.
Proof. intros Hk E. apply Hk. now apply (proj1 (square_is_zero k)). Qed.

(** X11.  Expressing every actual and every predicted value in another
    unit (multiplying both arrays by [k], not zero) multiplies RMSE and MAE
    by the absolute value of [k] and changes neither MAPE nor R2. *)
Theorem metrics_under_a_change_of_unit (k : R) (y_true y_pred : list R) :
  k <> 0 ->
  let before := calculate_metrics y_true y_pred in
  let after := calculate_metrics (scaled k y_true) (scaled k y_pred) in
  option_map RMSE after
  = option_map (fun m => times (Rabs k) (RMSE m)) before /\
  option_map MAE after
  = option_map (fun m => times (Rabs k) (MAE m)) before /\
  option_map MAPE after = option_map MAPE before /\
  option_map R2 after = option_map R2 before.
Proof.
  intro Hk. cbv zeta. pose proof (residuals_scaled k y_true y_pred) as Hs.
  destruct (broadcast Rminus y_true y_pred) as [diff|] eqn:Hd.
  - simpl in Hs.
    destruct (calculate_metrics_of_residuals _ _ _ Hd) as [m Hm].
    destruct (calculate_metrics_of_residuals _ _ _ Hs) as [m' Hm'].
    rewrite Hm, Hm'. simpl.
    apply calculate_metrics_parts in Hm, Hm'.
    destruct Hm as (d1 & r1 & H1 & Hr1 & -> & -> & -> & ->).
    destruct Hm' as (d2 & r2 & H2 & Hr2 & -> & -> & -> & ->).
    rewrite Hd in H1. rewrite Hs in H2.
    injection H1 as <-. injection H2 as <-.
    rewrite ratios_scaled in Hr2 by exact Hk.
    rewrite Hr1 in Hr2. injection Hr2 as <-.
    rewrite squares_scaled, abs_scaled, !np_mean_scaled, sqrt_times_square,
      total_variance_scaled, np_sum_scaled.
    repeat split; try reflexivity.
    f_equal. pose proof (square_not_zero k Hk) as Hk2.
    destruct (Req_dec_T (k ^ 2 * total_variance y_true) 0) as [E|E],
             (Req_dec_T (total_variance y_true) 0) as [E'|E'].
    + reflexivity.
    + destruct (Rmult_integral _ _ E); contradiction.
    + rewrite E', Rmult_0_r in E. contradiction.
    + field. split; assumption.
  - assert (H1 : calculate_metrics y_true y_pred = None).
    { unfold calculate_metrics. now rewrite Hd. }
    assert (H2 : calculate_metrics (scaled k y_true) (scaled k y_pred)
                 = None).
    { unfold calculate_metrics. now rewrite Hs. }
    now rewrite H1, H2.
Qed.

Lemma two_is_not_zero : 2 <> 0.
Proof. lra. Defined.

Lemma metrics_under_a_change_of_unit_sample :
  option_map MAPE (calculate_metrics (scaled 2 [1; 2]) (scaled 2 [1; 3]))
  = option_map MAPE (calculate_metrics [1; 2] [1; 3]) /\
  option_map R2 (calculate_metrics (scaled 2 [1; 2]) (scaled 2 [1; 3]))
  = option_map R2 (calculate_metrics [1; 2] [1; 3]).
Proof.
  pose proof (metrics_under_a_change_of_unit 2 [1; 2] [1; 3] two_is_not_zero)
    as (_ & _ & H3 & H4).
  split; assumption.
Defined.


(** *** MAE against RMSE *)

(** The squared distances of the absolute residuals to any value [mu]. *)
Lemma spread_of_abs (mu : R) (diff : list R) :
  np_sum (map (fun d => (Rabs d - mu) ^ 2) diff)
  = np_sum (map (fun d => d ^ 2) diff)
    - 2 * mu * np_sum (map Rabs diff)
    + INR (length diff) * mu ^ 2.
Proof.
  induction diff as [|d diff IH]; [simpl; lra|].
  change (np_sum (map (fun d => (Rabs d - mu) ^ 2) (d :: diff)))
    with ((Rabs d - mu) ^ 2 + np_sum (map (fun d => (Rabs d - mu) ^ 2) diff)).
  change (np_sum (map (fun d => d ^ 2) (d :: diff)))
    with (d ^ 2 + np_sum (map (fun d => d ^ 2) diff)).
  change (np_sum (map Rabs (d :: diff)))
    with (Rabs d + np_sum (map Rabs diff)).
  change (length (d :: diff)) with (S (length diff)).
  rewrite IH, S_INR. pose proof (pow2_abs d) as Hd. simpl in *. lra.
Qed.

(** The mean of the absolute values is at most the root of the mean of the
    squares. *)
Lemma mean_abs_le_root_mean_square (diff : list R) :
  diff <> [] ->
  np_sum (map Rabs diff) / INR (length diff)
  <= sqrt (np_sum (map (fun d => d ^ 2) diff) / INR (length diff)).
Proof.
  intro Hne.
  assert (Hn : 0 < INR (length diff)).
  { destruct diff as [|d diff]; [congruence|apply length_positive]. }
  set (n := INR (length diff)) in *.
  set (s1 := np_sum (map Rabs diff)).
  set (s2 := np_sum (map (fun d => d ^ 2) diff)).
  assert (Hs1 : 0 <= s1) by apply np_sum_nonneg, abs_nonneg.
  assert (Hmu : 0 <= s1 / n) by (unfold Rdiv; now apply Rle_mult_inv_pos).
  assert (Hspread : 0 <= s2 - 2 * (s1 / n) * s1 + n * (s1 / n) ^ 2).
  { unfold s1, s2, n. rewrite <- spread_of_abs.
    apply np_sum_nonneg, Forall_map, Forall_forall.
    intros d _. apply pow2_ge_0. }
  assert (Hsq : (s1 / n) ^ 2 <= s2 / n).
  { assert (E : s2 - 2 * (s1 / n) * s1 + n * (s1 / n) ^ 2
                = n * (s2 / n - (s1 / n) ^ 2)) by (field; lra).
    rewrite E in Hspread.
    assert (0 <= s2 / n - (s1 / n) ^ 2); [|lra].
    apply (Rmult_le_reg_l n); [exact Hn|]. now rewrite Rmult_0_r. }
  rewrite <- (sqrt_pow2 (s1 / n)) at 1 by exact Hmu.
  now apply sqrt_le_1_alt.
Qed.

(** X12.  Whenever both are numbers, the returned MAE is at most the
    returned RMSE. *)
Theorem mae_at_most_rmse (y_true y_pred : list R) (m : MetricsDict) :
  calculate_metrics y_true y_pred = Some m ->
  number_le (MAE m) (RMSE m).
Proof.
  intro H. apply calculate_metrics_parts in H.
  destruct H as (diff & _ & _ & _ & -> & -> & _).
  destruct diff as [|d diff]; [exact I|].
  pose proof (mean_abs_le_root_mean_square (d :: diff)) as Hle.
  unfold np_mean.
  change (map Rabs (d :: diff)) with (Rabs d :: map Rabs diff) at 1.
  change (map (fun d => d ^ 2) (d :: diff))
    with (d ^ 2 :: map (fun d => d ^ 2) diff) at 1.
  cbv iota. cbn [number_map number_le].
  change (Rabs d :: map Rabs diff) with (map Rabs (d :: diff)).
  change (d ^ 2 :: map (fun d => d ^ 2) diff)
    with (map (fun d => d ^ 2) (d :: diff)).
  rewrite !length_map. apply Hle. discriminate.
Qed.

Lemma mae_at_most_rmse_sample :
  exists m, calculate_metrics [1; 2; 5] [1; 3; 2] = Some m /\
            number_le (MAE m) (RMSE m).
Proof.
  eexists. split; [reflexivity|].
  exact (mae_at_most_rmse [1; 2; 5] [1; 3; 2] _ eq_refl).
Defined.

End MetricsMoreFacts.

(** ** Further properties of the harness *)

Module HarnessMoreFacts.
Import Metrics Harness HarnessSpec HarnessMore MetricsFacts HarnessFacts.

(** *** A RMSE that is not a number *)

(** [min] never replaces a running best whose key is [nan], and never
    moves to an item whose key is [nan]. *)
Lemma min_by_nonfinite {A : Type} (key : A -> number) (rest : list A) :
  forall best,
    (key best = nonfinite -> min_by key best rest = best) /\
    (key (min_by key best rest) = nonfinite -> min_by key best rest = best).
Proof.
  induction rest as [|x rest IH]; intro best; simpl; [auto|].
  destruct (number_lt (key x) (key best)) eqn:E.
  - destruct (key x) as [vx|] eqn:Ex; [|discriminate].
    destruct (key best) as [vb|] eqn:Eb; [|discriminate].
    split; [discriminate|]. intro H. apply (IH x) in H as H'.
    rewrite H' in H. congruence.
  - apply IH.
Qed.

Section Front.

Context {DataFrame : Type}.
Implicit Types (m : Model DataFrame) (models : list (Model DataFrame)).
Implicit Types (df : DataFrame).

Lemma survivors_app df models models' :
  survivors (models ++ models') df
  = survivors models df ++ survivors models' df.
Proof. unfold survivors. apply flat_map_app. Qed.

Lemma survivors_of_first df models m mt :
  first_survivor df models m mt ->
  exists rest, survivors models df = (m, mt) :: rest.
Proof.
  intros (earlier & later & -> & Hnone & Hout).
  exists (survivors later df).
  rewrite survivors_app, survivors_cons, Hout.
  now rewrite (proj2 (survivors_nil df earlier) Hnone).
Qed.

End Front.

(** X13.  The selected model has a RMSE that is not a number exactly when
    the first model the loop did not skip has one, and then that first
    model is the selected one, whatever the RMSE of the others: Python's
    [min] never moves off, and never moves to, a key that is [nan]. *)
Theorem nan_rmse_is_selected_only_in_front {DataFrame : Type}
    (models : list (Model DataFrame)) (df : DataFrame)
    (m best : Model DataFrame) (mt metrics : MetricsDict) (n : string)
    (all_metrics : dict MetricsDict) :
  NoDup (map name models) ->
  first_survivor df models m mt ->
  evaluate models df = Some (best, n, metrics, all_metrics) ->
  (RMSE metrics = nonfinite <-> RMSE mt = nonfinite) /\
  (RMSE mt = nonfinite -> best = m /\ metrics = mt).
Proof.
  intros Hnd Hfirst Heval.
  destruct (survivors_of_first df models m mt Hfirst) as [rest Hs].
  rewrite evaluate_survivors, Hs in Heval by exact Hnd. cbv zeta in Heval.
  destruct (min_by_nonfinite (fun a => RMSE (snd a)) rest (m, mt))
    as [Hstay Hback].
  injection Heval as <- _ <- _. split; [split|]; intro H.
  - rewrite (Hback H) in H. exact H.
  - rewrite (Hstay H). exact H.
  - rewrite (Hstay H). split; reflexivity.
Qed.


Lemma empty_segment_names : NoDup (map name empty_segment_in_front).
Proof. simpl. repeat constructor; simpl; intuition discriminate. Defined.

Lemma empty_segment_first :
  exists mt, first_survivor tt empty_segment_in_front
               (mkModel "B" (returning [] [])) mt /\
             RMSE mt = nonfinite.
Proof.
  eexists. split.
  - exists [mkModel "A" raising], [mkModel "C" (returning [1%R] [1%R])].
    split; [reflexivity|]. split; [|reflexivity].
    intros e [<-|[]]. reflexivity.
  - reflexivity.
Defined.

Lemma nan_rmse_is_selected_only_in_front_sample :
  exists best n metrics all_metrics,
    evaluate empty_segment_in_front tt
    = Some (best, n, metrics, all_metrics) /\
    best = mkModel "B" (returning [] []) /\ RMSE metrics = nonfinite.
Proof.
  destruct empty_segment_first as (mt & Hfirst & Hnan).
  destruct (evaluate empty_segment_in_front tt)
    as [[[[best n] metrics] all_metrics]|] eqn:E.
  - exists best, n, metrics, all_metrics. split; [reflexivity|].
    destruct (nan_rmse_is_selected_only_in_front _ _ _ _ _ _ _ _
                empty_segment_names Hfirst E) as [Hiff Hsel].
    split; [now apply Hsel|now apply Hiff].
  - exfalso. apply (evaluate_none tt _ empty_segment_names) in E.
    destruct (survivors_of_first _ _ _ _ Hfirst) as [rest Hs].
    rewrite Hs in E. discriminate.
Defined.

(** *** Reordering the list of models *)

Section Order.

Context {DataFrame : Type}.
Implicit Types (m : Model DataFrame) (models : list (Model DataFrame)).
Implicit Types (df : DataFrame).

(** The RMSE of a first minimum is at most that of every survivor. *)
Lemma first_minimum_le df models best rmse :
  first_minimum df models best rmse ->
  In best models /\
  forall m mt, In m models -> outcome df m = Some mt ->
               exists r, RMSE mt = fin r /\ (rmse <= r)%R.
Proof.
  intros (earlier & later & -> & (mt0 & Hout & Hr) & Hearlier & Hlater).
  split; [apply in_elt|].
  intros m mt Hin Hm. apply in_app_iff in Hin as [Hin|[<-|Hin]].
  - destruct (Hearlier m mt Hin Hm) as (r & Hr' & Hlt).
    exists r. split; [exact Hr'|lra].
  - rewrite Hout in Hm. injection Hm as <-. exists rmse. split; [exact Hr|lra].
  - now apply (Hlater m mt).
Qed.

Lemma outcome_trained df m mt : outcome df m = Some mt -> train m df <> None.
Proof. unfold outcome. intros H E. rewrite E in H. discriminate. Qed.

End Order.

(** X14.  When no two surviving models have the same RMSE, the selection
    does not depend on the order in which the models are listed: for any
    reordering of the list, [evaluate] selects the same model with the same
    metrics, or raises in both orders. *)
Theorem selection_ignores_order_without_ties {DataFrame : Type}
    (models models' : list (Model DataFrame)) (df : DataFrame) :
  Permutation models models' ->
  NoDup (map name models) ->
  (forall m, In m models -> well_trained df m) ->
  distinct_rmse df models ->
  same_selection (evaluate models df) (evaluate models' df).
Proof.
  intros Hperm Hnd Hwell Hdist.
  assert (Hnd' : NoDup (map name models')).
  { eapply Permutation_NoDup; [|exact Hnd]. now apply Permutation_map. }
  assert (Hin : forall m, In m models' -> In m models).
  { intros m Hm. eapply Permutation_in; [|exact Hm].
    now apply Permutation_sym. }
  assert (Hwell' : forall m, In m models' -> well_trained df m)
    by (intros m Hm; apply Hwell, Hin, Hm).
  destruct (survivors models df) as [|s rest] eqn:Hs.
  - assert (Hall : forall m, In m models -> outcome df m = None)
      by now apply survivors_nil.
    rewrite (proj2 (evaluate_none df models Hnd) Hs).
    rewrite (proj2 (evaluate_none df models' Hnd')); [exact I|].
    apply survivors_nil. intros m Hm. apply Hall, Hin, Hm.
  - assert (Hsin : In s (survivors models df)) by (rewrite Hs; now left).
    apply survivors_names in Hsin as [Hsm Hout].
    apply outcome_trained in Hout.
    destruct (evaluate_first_minimum df models Hnd Hwell)
      as (best & metrics & rmse & -> & Hb & Hr & Hfirst);
      [now exists (fst s)|].
    destruct (evaluate_first_minimum df models' Hnd' Hwell')
      as (best' & metrics' & rmse' & -> & Hb' & Hr' & Hfirst');
      [exists (fst s); split;
         [eapply Permutation_in; eassumption|assumption]|].
    apply first_minimum_le in Hfirst as [Hbin Hle].
    apply first_minimum_le in Hfirst' as [Hbin' Hle'].
    destruct (Hle best' metrics' (Hin _ Hbin') Hb') as (r & Hr1 & H1).
    destruct (Hle' best metrics (Permutation_in _ Hperm Hbin) Hb)
      as (r' & Hr2 & H2).
    rewrite Hr' in Hr1. injection Hr1 as <-.
    rewrite Hr in Hr2. injection Hr2 as <-.
    assert (Heq : rmse = rmse') by lra. subst rmse'.
    assert (Hbest : best = best').
    { apply (Hdist best best' metrics metrics'); try assumption;
        [now apply Hin|congruence]. }
    subst best'. simpl. repeat split. congruence.
Qed.

Lemma worse_then_better_distinct : distinct_rmse tt worse_then_better.
Proof.
  destruct (single_value_rmse 10 14) as (m1 & Hm1 & Hr1).
  destruct (single_value_rmse 10 12) as (m2 & Hm2 & Hr2).
  assert (Hne : RMSE m1 <> RMSE m2).
  { rewrite Hr1, Hr2. intro E. injection E as E.
    rewrite !Rabs_left in E by lra. lra. }
  intros m m' mt mt' [<-|[<-|[]]] [<-|[<-|[]]] H1 H2 HR;
    try reflexivity; exfalso; unfold outcome in H1, H2;
    cbn [train returning] in H1, H2; apply Hne; congruence.
Defined.

Lemma worse_then_better_names : NoDup (map name worse_then_better).
Proof. simpl. repeat constructor; simpl; intuition discriminate. Defined.

Lemma worse_then_better_trained :
  forall m, In m worse_then_better -> well_trained tt m.
Proof.
  intros m [<-|[<-|[]]];
    (apply returning_well_trained; [reflexivity|apply cons_not_nil]).
Defined.

Lemma selection_ignores_order_without_ties_sample :
  same_selection (evaluate worse_then_better tt)
    (evaluate better_then_worse tt).
Proof.
  apply selection_ignores_order_without_ties.
  - apply perm_swap.
  - exact worse_then_better_names.
  - exact worse_then_better_trained.
  - exact worse_then_better_distinct.
Defined.

End HarnessMoreFacts.

(** ** The train/test split shared by the [train] methods *)

Module SplitFacts.

(** The two slices at one index are a partition, whatever the index. *)
Lemma slice_partition {A : Type} (l : list A) (i : Z) :
  slice_to l i ++ slice_from l i = l.
Proof.
  unfold slice_to, slice_from. destruct (0 <=? i)%Z; apply firstn_skipn.
Qed.

Lemma slice_from_length {A B : Type} (l : list A) (l' : list B) (i : Z) :
  length l = length l' ->
  length (slice_from l i) = length (slice_from l' i).
Proof.
  intro E. unfold slice_from.
  destruct (0 <=? i)%Z; rewrite !length_skipn; congruence.
Qed.

(** With [test_size = 0.2] the split index is four fifths of the length,
    rounded down. *)
Lemma split_index_fifth (n : nat) :
  split_index n (1 # 5) = Z.of_nat (4 * n / 5).
Proof.
  unfold split_index, py_int.
  assert (E : (inject_Z (Z.of_nat n) * (1 - (1 # 5)) == (4 * Z.of_nat n) # 5)%Q).
  { unfold Qeq. cbn [Qmult Qminus Qplus Qopp Qnum Qden inject_Z].
    rewrite !Pos.mul_1_l. lia. }
  assert (Hpos : Qle_bool 0 (inject_Z (Z.of_nat n) * (1 - (1 # 5))) = true).
  { apply Qle_bool_iff. rewrite E. unfold Qle. cbn [Qnum Qden]. lia. }
  rewrite Hpos, (Qfloor_comp _ _ E). cbn [Qfloor].
  rewrite Nat2Z.inj_div, Nat2Z.inj_mul. reflexivity.
Qed.

Lemma slices_at_fifth {A : Type} (l : list A) :
  slice_to l (split_index (length l) (1 # 5)) = firstn (4 * length l / 5) l /\
  slice_from l (split_index (length l) (1 # 5)) = skipn (4 * length l / 5) l.
Proof.
  rewrite split_index_fifth. unfold slice_to, slice_from.
  assert (E : (0 <=? Z.of_nat (4 * length l / 5))%Z = true)
    by (apply Z.leb_le; lia).
  rewrite E, Nat2Z.id. split; reflexivity.
Qed.

(** Four fifths of a positive length, rounded down, is less than it. *)
Lemma four_fifths_less (n : nat) : 0 < n -> 4 * n / 5 < n.
Proof. intro Hn. apply Nat.Div0.div_lt_upper_bound. lia. Qed.

End SplitFacts.

(** ** Further properties of the ARIMA model *)

Module ArimaMoreFacts.
Import Arima ArimaSpec ArimaMore ArimaFacts SplitFacts.

Section Order.

Context {Price : Type} `{Statsmodels Price}.

Lemma order_after_cases (first : Order) (data : list Price) (steps : nat) :
  order_after first data steps = first \/
  order_after first data steps = (1, 1, 1)%nat.
Proof.
  unfold order_after.
  destruct (run_attempt (TryARIMA first) data steps); auto.
Qed.

Lemma order_after_minimal (data : list Price) (steps : nat) :
  order_after (1, 1, 1)%nat data steps = (1, 1, 1)%nat.
Proof.
  unfold order_after.
  now destruct (run_attempt (TryARIMA (1, 1, 1)%nat) data steps).
Qed.

Lemma after_call_order (self : ARIMAModel Price) (c : MethodCall) :
  exists data steps,
    order (after_call self c) = order_after (order self) data steps.
Proof.
  destruct c as [prices test_size|prices days]; cbn [after_call].
  - destruct (train_chain_run self prices test_size) as (self' & -> & Ho).
    cbn [fst]. eauto.
  - destruct (predict_chain_run self prices days) as (self' & -> & Ho).
    cbn [fst]. eauto.
Qed.

Lemma after_calls_minimal (calls : list MethodCall) :
  forall self : ARIMAModel Price,
    order self = (1, 1, 1)%nat ->
    order (after_calls self calls) = (1, 1, 1)%nat.
Proof.
  induction calls as [|c calls IH]; intros self Ho; [exact Ho|].
  cbn [after_calls fold_left]. apply IH.
  destruct (after_call_order self c) as (data & steps & ->).
  rewrite Ho. apply order_after_minimal.
Qed.

(** X15.  Over any sequence of [train] and [predict] calls on one object,
    returned or raised, the order the object holds is the one it started
    with or (1, 1, 1); and once it is (1, 1, 1) it stays so: no call
    restores the order the object was created with. *)
Theorem order_only_falls_back (self : ARIMAModel Price)
    (calls : list MethodCall) :
  (order (after_calls self calls) = order self \/
   order (after_calls self calls) = (1, 1, 1)%nat) /\
  (forall before later,
      calls = before ++ later ->
      order (after_calls self before) = (1, 1, 1)%nat ->
      order (after_calls self calls) = (1, 1, 1)%nat).
Proof.
  split.
  - revert self. induction calls as [|c calls IH]; intro self; [now left|].
    cbn [after_calls fold_left].
    destruct (after_call_order self c) as (data & steps & Ho).
    destruct (order_after_cases (order self) data steps) as [E|E];
      rewrite E in Ho.
    + destruct (IH (after_call self c)) as [H1|H1]; [left|right];
        unfold after_calls in H1; congruence.
    + right. now apply after_calls_minimal.
  - intros before later -> Ho. unfold after_calls. rewrite fold_left_app.
    now apply after_calls_minimal.
Qed.

End Order.


Section Stored.

Context {Price : Type} `{Statsmodels Price}.

(** A [try] block that got its forecast leaves the model, the order and the
    fit that gave it in the object. *)
Lemma fit_and_forecast_stored (self self' : ARIMAModel Price)
    (data : list Price) (steps : nat) (log : list Attempt)
    (forecast_values : list Price) :
  fit_and_forecast self data steps = (self', log, Some forecast_values) ->
  stored_fit_gives self' data steps forecast_values.
Proof.
  unfold fit_and_forecast.
  destruct (ARIMA data (order self)) as [m|] eqn:Em; [|discriminate].
  destruct (fit m) as [r|] eqn:Er; [|discriminate].
  intro E. injection E as <- _ Ef. exists m, r. cbn. auto.
Qed.

(** A [try] block that raised: the attempt with the order of the object
    gives no forecast. *)
Lemma fit_and_forecast_failed (self self' : ARIMAModel Price)
    (data : list Price) (steps : nat) (log : list Attempt) :
  fit_and_forecast self data steps = (self', log, None) ->
  order self' = order self /\
  run_attempt (TryARIMA (order self)) data steps = None.
Proof.
  destruct (fit_and_forecast_attempt self data steps) as (s & -> & Ho).
  intro E. injection E as <- _ Hr. auto.
Qed.

Lemma stored_fit_attempt (self : ARIMAModel Price) (data : list Price)
    (steps : nat) (forecast_values : list Price) :
  stored_fit_gives self data steps forecast_values ->
  run_attempt (TryARIMA (order self)) data steps = Some forecast_values.
Proof.
  intros (m & r & _ & _ & Hm & Hr & Hf). cbn [run_attempt].
  now rewrite Hm, Hr.
Qed.

(** X16.  When [train] returns, the object holds the model, the order and
    the fit that produced the returned predictions, on the training part of
    the prices.  When [predict] returns, either the same holds on all the
    prices, or the forecast came from exponential smoothing, the order is
    (1, 1, 1) and the object holds no fit that gives a forecast of these
    prices. *)
Theorem returned_forecast_and_stored_fit :
  (forall (self self' : ARIMAModel Price) (prices : list Price)
          (test_size : Q) (log : list Attempt) (y_test y_pred : list Price),
      train self prices test_size = (self', log, Returned (y_test, y_pred)) ->
      stored_fit_gives self'
        (slice_to prices (split_index (length prices) test_size))
        (length y_test) y_pred) /\
  (forall (self self' : ARIMAModel Price) (prices : list Price)
          (days : nat) (log : list Attempt) (forecast_values : list Price),
      predict self prices days = (self', log, Returned forecast_values) ->
      stored_fit_gives self' prices days forecast_values \/
      (order self' = (1, 1, 1)%nat /\
       ExponentialSmoothing prices (Some add) None days
       = Some forecast_values /\
       forall other, ~ stored_fit_gives self' prices days other)).
Proof.
  split.
  - intros self self' prices test_size log y_test y_pred. unfold train.
    set (train_data := slice_to prices _).
    set (test_data := slice_from prices _).
    destruct (fit_and_forecast self train_data (length test_data))
      as [[self1 log1] [f1|]] eqn:E1.
    + intro E. injection E as <- _ <- <-.
      now apply (fit_and_forecast_stored self _ _ _ log1).
    + destruct (fit_and_forecast (set_order self1 (1, 1, 1)%nat) train_data
                  (length test_data)) as [[self2 log2] [f2|]] eqn:E2;
        [|discriminate].
      intro E. injection E as <- _ <- <-.
      now apply (fit_and_forecast_stored _ _ _ _ log2) in E2.
  - intros self self' prices days log forecast_values. unfold predict.
    destruct (fit_and_forecast self prices days)
      as [[self1 log1] [f1|]] eqn:E1.
    + intro E. injection E as <- _ <-. left.
      now apply (fit_and_forecast_stored self _ _ _ log1).
    + destruct (fit_and_forecast (set_order self1 (1, 1, 1)%nat) prices days)
        as [[self2 log2] [f2|]] eqn:E2.
      * intro E. injection E as <- _ <-. left.
        now apply (fit_and_forecast_stored _ _ _ _ log2) in E2.
      * apply fit_and_forecast_failed in E2 as [Ho Hr].
        cbn [order set_order] in Ho, Hr.
        destruct (ExponentialSmoothing prices (Some add) None days)
          as [f3|] eqn:E3; [|discriminate].
        intro E. injection E as <- _ <-. right.
        split; [exact Ho|]. split; [reflexivity|].
        intros other Hs. apply stored_fit_attempt in Hs.
        rewrite Ho in Hs. congruence.
Qed.

End Stored.

Lemma returned_forecast_and_stored_fit_sample :
  stored_fit_gives (H := only_minimal_order)
    (@mkARIMA Z only_minimal_order (Some [1; 2; 3; 4; 5; 6; 7; 8]%Z)
       (1, 1, 1)%nat (Some [1; 2; 3; 4; 5; 6; 7; 8]%Z))
    (slice_to ten_prices (split_index (length ten_prices) (1 # 5)%Q))
    (length [9; 10]%Z) [8; 8]%Z.
Proof.
  exact (proj1 (returned_forecast_and_stored_fit (H := only_minimal_order))
           init _ ten_prices (1 # 5)%Q _ _ _ eq_refl).
Defined.


(** *** What [train] holds out *)

Section Split.

Context {Price : Type} `{Statsmodels Price}.

(** The first component of a returned pair is the slice after the split. *)
Lemma train_returns_test_data (self self' : ARIMAModel Price)
    (prices : list Price) (test_size : Q) (log : list Attempt)
    (y_test y_pred : list Price) :
  train self prices test_size = (self', log, Returned (y_test, y_pred)) ->
  y_test = slice_from prices (split_index (length prices) test_size).
Proof.
  unfold train.
  set (train_data := slice_to prices _).
  set (test_data := slice_from prices _).
  destruct (fit_and_forecast self train_data (length test_data))
    as [[self1 log1] [f1|]].
  - intro E. now injection E as _ _ <- _.
  - destruct (fit_and_forecast (set_order self1 (1, 1, 1)%nat) train_data
                (length test_data)) as [[self2 log2] [f2|]]; [|discriminate].
    intro E. now injection E as _ _ <- _.
Qed.

(** X17.  With the default [test_size] of 0.2, the values [train] returns
    as [y_test] are the last prices of the series, from position
    [4 * n / 5] (rounded down) on: [n - 4 * n / 5] values, at least one
    when the series is not empty; the prices before them are the training
    part, and the two parts together are the series. *)
Theorem train_holds_out_the_last_fifth (self self' : ARIMAModel Price)
    (prices : list Price) (log : list Attempt)
    (y_test y_pred : list Price) :
  train self prices (1 # 5) = (self', log, Returned (y_test, y_pred)) ->
  y_test = skipn (4 * length prices / 5) prices /\
  slice_to prices (split_index (length prices) (1 # 5)) ++ y_test = prices /\
  length y_test = length prices - 4 * length prices / 5 /\
  (prices <> [] -> y_test <> []).
Proof.
  intro E. apply train_returns_test_data in E.
  pose proof (slice_partition prices (split_index (length prices) (1 # 5)))
    as Hp.
  rewrite <- E in Hp. destruct (slices_at_fifth prices) as [_ Hfrom].
  rewrite Hfrom in E. subst y_test.
  split; [reflexivity|]. split; [exact Hp|].
  split; [apply length_skipn|].
  intros Hne Hnil. apply (f_equal (@length Price)) in Hnil.
  rewrite length_skipn in Hnil. cbn [length] in Hnil.
  assert (0 < length prices) by (destruct prices; [congruence|simpl; lia]).
  pose proof (four_fifths_less (length prices)). lia.
Qed.

(** X18.  The predictions [train] returns do not depend on the values it
    holds out: on two series of the same length with the same training
    part, [train] leaves the same object, makes the same attempts and
    returns the same predictions (or raises the same exception). *)
Theorem train_predictions_ignore_held_out_values (self : ARIMAModel Price)
    (prices prices' : list Price) (test_size : Q) :
  length prices = length prices' ->
  slice_to prices (split_index (length prices) test_size)
  = slice_to prices' (split_index (length prices') test_size) ->
  fst (train self prices test_size) = fst (train self prices' test_size) /\
  predictions_of (snd (train self prices test_size))
  = predictions_of (snd (train self prices' test_size)).
Proof.
  intros Hlen Hto. unfold train. rewrite <- Hto, <- Hlen.
  rewrite (slice_from_length prices prices' _ Hlen).
  set (train_data := slice_to prices _).
  set (steps := length (slice_from prices' _)).
  destruct (fit_and_forecast self train_data steps)
    as [[self1 log1] [f1|]]; [split; reflexivity|].
  destruct (fit_and_forecast (set_order self1 (1, 1, 1)%nat) train_data steps)
    as [[self2 log2] [f2|]]; split; reflexivity.
Qed.

End Split.

Lemma train_holds_out_the_last_fifth_sample :
  [9; 10]%Z = skipn (4 * length ten_prices / 5) ten_prices /\
  length [9; 10]%Z = length ten_prices - 4 * length ten_prices / 5.
Proof.
  pose proof (train_holds_out_the_last_fifth (H := only_minimal_order)
                init _ ten_prices _ _ _ eq_refl) as (H1 & _ & H3 & _).
  split; assumption.
Defined.

Lemma train_predictions_ignore_held_out_values_sample :
  predictions_of
    (snd (train (H := only_minimal_order) init ten_prices (1 # 5)))
  = predictions_of
      (snd (train (H := only_minimal_order) init ten_other_prices (1 # 5))).
Proof.
  exact (proj2 (train_predictions_ignore_held_out_values
                  (H := only_minimal_order) init ten_prices ten_other_prices
                  (1 # 5) eq_refl eq_refl)).
Defined.

End ArimaMoreFacts.

(** ** Further properties of the Random Forest model *)

Module RandomForestMoreFacts.
Import RandomForest RandomForestSpec RandomForestMore RandomForestFacts.
Import SplitFacts FeatureFacts.
Open Scope nat_scope.

(** *** The rows [create_features] keeps *)

(** The positions from [k] on give the list without its first [k]
    items. *)
Lemma positions_from {A : Type} (l : list A) :
  forall k,
    flat_map (fun t => match nth_error l t with
                       | Some x => [x]
                       | None => []
                       end) (seq k (length l - k))
    = skipn k l.
Proof.
  induction l as [|a l IH]; intro k.
  - simpl. now destruct k.
  - destruct k as [|k].
    + cbn [length Nat.sub seq flat_map nth_error skipn app].
      f_equal. rewrite <- seq_shift, flat_map_concat_map, map_map,
        <- flat_map_concat_map. cbn [nth_error].
      specialize (IH 0). rewrite Nat.sub_0_r, skipn_O in IH. exact IH.
    + cbn [length Nat.sub skipn]. rewrite <- seq_shift.
      rewrite flat_map_concat_map, map_map, <- flat_map_concat_map.
      cbn [nth_error]. apply IH.
Qed.

Section Frame.

Context {Date : Type}.

Lemma map_flat_map {A B C : Type} (g : B -> C) (f : A -> list B)
    (l : list A) :
  map g (flat_map f l) = flat_map (fun a => map g (f a)) l.
Proof.
  induction l as [|a l IH]; [reflexivity|]. simpl.
  now rewrite map_app, IH.
Qed.

Lemma frame_is_the_series_after_29_rows (df : list (Date * R)) :
  no_zero_price (map snd df) ->
  map fst (create_features Date df 10) = skipn 29 df /\
  length (create_features Date df 10) = length df - 29.
Proof.
  intro Hnz.
  assert (E : map fst (create_features Date df 10) = skipn 29 df).
  { rewrite create_features_rows by exact Hnz.
    rewrite map_flat_map, <- positions_from.
    apply flat_map_ext_on. intros t _. unfold data_row_at.
    now destruct (nth_error df t) as [[d p]|]. }
  split; [exact E|].
  transitivity (length (map fst (create_features Date df 10)));
    [symmetry; apply length_map|].
  rewrite E. apply length_skipn.
Qed.

(** X19.  On a series in which no price is zero, [create_features] drops
    exactly the first 29 rows: the ['Date'] and ['Price'] columns of the
    frame it returns are those of the series from the thirtieth row on, so
    a series of [n] rows gives [n - 29] rows and one of fewer than 30 rows
    gives none.  (Where a price and the price five days before it are both
    zero the rate of change is [NaN] and that row is dropped as well:
    [FeatureFacts.feature_row_of_zeros].) *)
Theorem create_features_drops_29_rows (df : list (Date * R)) :
  no_zero_price (map snd df) ->
  map fst (create_features Date df 10) = skipn 29 df /\
  length (create_features Date df 10) = length df - 29.
Proof. apply frame_is_the_series_after_29_rows. Qed.

End Frame.

Lemma create_features_drops_29_rows_sample :
  map fst (create_features nat thirty_two_days 10) = skipn 29 thirty_two_days
  /\ length (create_features nat thirty_two_days 10) = 3.
Proof.
  exact (create_features_drops_29_rows thirty_two_days
           thirty_two_days_no_zero).
Defined.


(** *** The target among the features *)

Section Target.

Context {Date : Type}.

(** A row of the frame stands at a position from the thirtieth on and
    has, but for the rate of change, the columns written out in
    [row_at]. *)
Lemma create_features_row (df : list (Date * R)) (row : DataRow Date) :
  In row (create_features Date df 10) ->
  exists t d p,
    29 <= t < length df /\ nth_error df t = Some (d, p) /\
    fst row = (d, p) /\
    lag (snd row) = lag (row_at (map snd df) t) /\
    momentum (snd row) = momentum (row_at (map snd df) t).
Proof.
  unfold create_features. intro Hin.
  apply in_flat_map in Hin as (t & _ & Hin).
  destruct (nth_error df t) as [[d p]|] eqn:E; [|contradiction].
  destruct (feature_row 10 (map snd df) t) as [f|] eqn:Ef; [|contradiction].
  destruct Hin as [<-|[]].
  assert (Ht : 29 <= t < length df).
  { destruct (Nat.lt_ge_cases t 29) as [Hlo|Hlo].
    - rewrite feature_row_undefined in Ef by (left; exact Hlo).
      discriminate.
    - split; [exact Hlo|]. apply nth_error_Some. now rewrite E. }
  rewrite feature_row_from_rate in Ef by (rewrite length_map; exact Ht).
  destruct (rate_of_change _ _) as [rate|]; [|discriminate].
  injection Ef as <-. exists t, d, p. cbn [fst snd lag momentum].
  repeat split; try reflexivity; try apply Ht. exact E.
Qed.

(** X20.  In every row of the frame [create_features] returns, the price
    is the sum of two feature columns: [Price = momentum + lag_5].  The
    feature matrix [X] that [train] builds from the frame therefore
    determines the target [y] exactly. *)
Theorem price_is_momentum_plus_lag_5 (df : list (Date * R)) :
  Forall (fun row =>
            price_of Date row
            = (momentum (features Date row)
               + get_lag 5 (features Date row))%R)
    (create_features Date df 10).
Proof.
  apply Forall_forall. intros row Hin.
  apply create_features_row in Hin
    as (t & d & p & Ht & Hnth & Hrow & Hlag & Hmom).
  unfold price_of, features, get_lag. rewrite Hrow, Hlag, Hmom.
  unfold row_at.
  cbn [fst snd momentum lag range Nat.sub seq map nth].
  apply (map_nth_error snd) in Hnth. cbn [snd] in Hnth.
  rewrite (nth_error_nth _ _ 0%R Hnth). lra.
Qed.

End Target.


(** *** What [train] holds out *)

Section HoldOut.

Context {Date : Type} `{Sklearn}.

Lemma train_returns_y_test (self self' : MLModel) (df : list (Date * R))
    (test_size : Q) (y_test y_pred : list R) :
  train Date self df test_size = (self', Returned (y_test, y_pred)) ->
  y_test
  = slice_from (map (price_of Date) (create_features Date df 10))
      (split_index (length (create_features Date df 10)) test_size).
Proof.
  unfold train. rewrite !length_map.
  destruct (scaler_fit _) as [s|]; [|discriminate].
  destruct (scaler_transform s _); [|discriminate].
  destruct (scaler_transform s _); [|discriminate].
  destruct (forest_fit _ _ _ _ _) as [forest|]; [|discriminate].
  destruct (forest_predict forest _); [|discriminate].
  intro E. now injection E as _ <- _.
Qed.

Lemma prices_of_frame (df : list (Date * R)) :
  no_zero_price (map snd df) ->
  map (price_of Date) (create_features Date df 10) = skipn 29 (map snd df).
Proof.
  intro Hnz. rewrite skipn_map.
  rewrite <- (proj1 (frame_is_the_series_after_29_rows df Hnz)), map_map.
  reflexivity.
Qed.

(** X21.  On a series in which no price is zero and with the default
    [test_size] of 0.2, the [y_test] that [train] returns is the tail of
    the price series: of the [n - 29] rows that have features the first
    four fifths (rounded down) are the training part, and [y_test] holds
    the prices from position [29 + 4 * (n - 29) / 5] on, at least one when
    the series has 30 rows or more. *)
Theorem train_holds_out_the_last_prices (self self' : MLModel)
    (df : list (Date * R)) (y_test y_pred : list R) :
  no_zero_price (map snd df) ->
  train Date self df (1 # 5) = (self', Returned (y_test, y_pred)) ->
  y_test = skipn (29 + 4 * (length df - 29) / 5) (map snd df) /\
  length y_test = length df - 29 - 4 * (length df - 29) / 5 /\
  (30 <= length df -> y_test <> []).
Proof.
  intros Hnz E. apply train_returns_y_test in E.
  assert (Hrows : length (create_features Date df 10) = length df - 29)
    by now apply frame_is_the_series_after_29_rows.
  assert (Hlen : length (map (price_of Date) (create_features Date df 10))
                 = length df - 29) by now rewrite length_map.
  rewrite Hrows, <- Hlen in E.
  rewrite (proj2 (slices_at_fifth _)), Hlen, prices_of_frame in E
    by exact Hnz.
  rewrite skipn_skipn, Nat.add_comm in E.
  assert (Hy : length y_test = length df - 29 - 4 * (length df - 29) / 5).
  { rewrite E, length_skipn, length_map. lia. }
  split; [exact E|]. split; [exact Hy|].
  intros Hn Hnil. rewrite Hnil in Hy. cbn [length] in Hy.
  pose proof (four_fifths_less (length df - 29)). lia.
Qed.

End HoldOut.


Lemma train_holds_out_the_last_prices_sample :
  exists self' y_test y_pred,
    train (H := recording) nat init thirty_two_days (1 # 5)
    = (self', Returned (y_test, y_pred)) /\
    y_test
    = skipn (29 + 4 * (length thirty_two_days - 29) / 5)
        (map snd thirty_two_days) /\
    length y_test = 1.
Proof.
  destruct (train (H := recording) nat init thirty_two_days (1 # 5))
    as [self' [[y_test y_pred]|e]] eqn:E.
  - exists self', y_test, y_pred. split; [reflexivity|].
    destruct (train_holds_out_the_last_prices (H := recording) _ _ _ _ _
                thirty_two_days_no_zero E) as (H1 & H2 & _).
    split; [exact H1|exact H2].
  - exfalso. unfold train in E. rewrite thirty_two_days_frame in E.
    vm_compute in E. discriminate.
Defined.

(** *** What [predict] reads of the series *)

Lemma row_at_skipn (prices : list R) (k t : nat) :
  29 <= t ->
  row_at prices (k + t) = row_at (skipn k prices) t.
Proof.
  intro Ht. unfold row_at. cbv zeta. rewrite !nth_skipn.
  replace (k + t - 5) with (k + (t - 5)) by lia.
  replace (k + t + 1 - 7) with (t + 1 - 7 + k) by lia.
  replace (k + t + 1 - 30) with (t + 1 - 30 + k) by lia.
  rewrite <- !skipn_skipn. f_equal.
  apply map_ext_in. intros i Hi. unfold range in Hi. apply in_seq in Hi.
  rewrite nth_skipn. f_equal. lia.
Qed.

Lemma last_rows_snoc {A : Type} (l : list A) (a : A) :
  last_rows (l ++ [a]) = [a].
Proof.
  rewrite (last_rows_last _ a) by (destruct l; discriminate).
  now rewrite last_last.
Qed.

(** From the thirtieth position on, the feature row reads the prices up to
    its position only through the thirty last of them. *)
Lemma feature_row_skipn (prices : list R) (k t : nat) :
  29 <= t -> k + t < length prices ->
  feature_row 10 prices (k + t) = feature_row 10 (skipn k prices) t.
Proof.
  intros Ht Hlen.
  rewrite (feature_row_from_rate prices) by lia.
  rewrite (feature_row_from_rate (skipn k prices))
    by (rewrite length_skipn; lia).
  rewrite row_at_skipn by exact Ht. rewrite !nth_skipn.
  replace (k + t - 5) with (k + (t - 5)) by lia. reflexivity.
Qed.

(** A last price that is not zero has a rate of change that is not
    [NaN], so the last row of the series is kept. *)
Lemma last_row_is_kept (prices : list R) :
  30 <= length prices ->
  nth (length prices - 1) prices 0%R <> 0%R ->
  exists f,
    feature_row 10 (skipn (length prices - 30) prices) 29 = Some f.
Proof.
  intros Hn Hlast.
  rewrite feature_row_from_rate by (rewrite length_skipn; lia).
  rewrite !nth_skipn.
  replace (length prices - 30 + 29) with (length prices - 1) by lia.
  unfold rate_of_change.
  destruct (Req_dec_T (nth (length prices - 30 + (29 - 5)) prices 0%R) 0)
    as [E|_]; [|eexists; reflexivity].
  rewrite E.
  destruct (Req_dec_T (nth (length prices - 1) prices 0%R - 0) 0) as [Z|_];
    [|eexists; reflexivity].
  exfalso. apply Hlast. lra.
Qed.

Section LastRow.

Context {Date : Type}.

(** The last row of the feature matrix is computed from the last thirty
    prices. *)
Lemma last_feature_row (df : list (Date * R)) (f : FeatureRow) :
  30 <= length df ->
  feature_row 10 (skipn (length df - 30) (map snd df)) 29 = Some f ->
  last_rows (map (features Date) (create_features Date df 10)) = [f].
Proof.
  intros Hn Hf. unfold create_features, range. rewrite Nat.sub_0_r.
  replace (length df) with (S (length df - 1)) at 1 by lia.
  rewrite seq_S, flat_map_app, map_app. cbn [flat_map Nat.add].
  rewrite app_nil_r.
  destruct (nth_error df (length df - 1)) as [[d p]|] eqn:E.
  - replace (length df - 1) with (length df - 30 + 29) by lia.
    rewrite feature_row_skipn by (rewrite ?length_map; lia).
    rewrite Hf. cbn [map features snd]. apply last_rows_snoc.
  - apply nth_error_None in E. lia.
Qed.

End LastRow.

Section Horizon.

Context {Date : Type} `{Sklearn}.

(** X22.  On a series of 30 rows or more whose last price is not zero (so
    that [dropna] keeps the last row), [predict] reads the last thirty
    prices only: two such series with the same last thirty prices give the
    same library calls and the same forecast, whatever their dates, their
    lengths and their earlier prices.  The means and the deviation are the
    real ones, rounding aside. *)
Theorem predict_reads_the_last_30_prices (self : MLModel)
    (df df' : list (Date * R)) (days : nat) :
  30 <= length df -> 30 <= length df' ->
  nth (length df - 1) (map snd df) 0%R <> 0%R ->
  skipn (length df - 30) (map snd df)
  = skipn (length df' - 30) (map snd df') ->
  predict Date self df days = predict Date self df' days.
Proof.
  intros Hn Hn' Hnz Hlast. unfold predict.
  destruct (last_row_is_kept (map snd df)) as [f Hf];
    [now rewrite length_map|now rewrite length_map|].
  rewrite length_map in Hf.
  rewrite (last_feature_row df f Hn Hf).
  rewrite Hlast in Hf. now rewrite (last_feature_row df' f Hn' Hf).
Qed.

(** The predictions of the loop extend the ones it started with, by one
    value and one library call per step. *)
Lemma rollout_extends (self : MLModel) (days : nat) :
  forall last_data predictions log forecast,
    rollout self days last_data predictions = (log, Returned forecast) ->
    exists new, forecast = predictions ++ new /\ length new = days /\
                length log = days.
Proof.
  induction days as [|days IH]; intros last_data predictions log forecast.
  - cbn [rollout]. intro E. injection E as <- <-. exists [].
    now rewrite app_nil_r.
  - cbn [rollout].
    destruct (scaler self) as [s|]; [|discriminate].
    destruct (scaler_transform s last_data) as [X_scaled|]; [|discriminate].
    destruct (model self) as [forest|]; [|discriminate].
    destruct (forest_predict forest X_scaled) as [[|next_price rest]|];
      try discriminate.
    destruct (rollout self days (map (update_lags next_price) last_data)
                (append predictions next_price)) as [log' out] eqn:E'.
    intro E. injection E as <- ->.
    destruct (IH _ _ _ _ E') as (new & -> & Hnew & Hlog).
    exists (next_price :: new). unfold append. rewrite <- app_assoc.
    cbn [app length]. auto.
Qed.

Lemma rollout_prefix (self : MLModel) (more days : nat) :
  forall last_data predictions log forecast,
    rollout self (days + more) last_data predictions
    = (log, Returned forecast) ->
    rollout self days last_data predictions
    = (firstn days log,
       Returned (firstn (length predictions + days) forecast)).
Proof.
  induction days as [|days IH]; intros last_data predictions log forecast.
  - intro E. apply rollout_extends in E as (new & -> & _ & _).
    cbn [rollout firstn]. rewrite Nat.add_0_r, firstn_app, Nat.sub_diag.
    cbn [firstn]. now rewrite firstn_all, app_nil_r.
  - cbn [Nat.add rollout].
    destruct (scaler self) as [s|]; [|discriminate].
    destruct (scaler_transform s last_data) as [X_scaled|]; [|discriminate].
    destruct (model self) as [forest|]; [|discriminate].
    destruct (forest_predict forest X_scaled) as [[|next_price rest]|];
      try discriminate.
    destruct (rollout self (days + more)
                (map (update_lags next_price) last_data)
                (append predictions next_price)) as [log' out] eqn:E'.
    intro E. injection E as <- ->.
    rewrite (IH _ _ _ _ E'). unfold append. rewrite length_app.
    cbn [length firstn]. do 3 f_equal. lia.
Qed.

(** X23.  A forecast that [predict] returns has exactly [days] values, one
    library call of the scaler each; and a shorter horizon gives the
    beginning of the longer forecast: when [predict] returns for
    [days + more] days, it returns for [days] days the first [days] values
    of that forecast, after the first [days] of its calls. *)
Theorem forecast_extends_with_the_horizon (self : MLModel)
    (df : list (Date * R)) (days more : nat) (log : list Call)
    (forecast_values : list R) :
  predict Date self df (days + more) = (log, Returned forecast_values) ->
  length forecast_values = days + more /\
  length log = days + more /\
  predict Date self df days
  = (firstn days log, Returned (firstn days forecast_values)).
Proof.
  unfold predict. intro E.
  pose proof (rollout_prefix self more days _ _ _ _ E) as Hp.
  apply rollout_extends in E as (new & -> & Hnew & Hlog).
  cbn [app length Nat.add] in *. auto.
Qed.

End Horizon.

Lemma thirty_three_days_end_alike :
  skipn (length thirty_two_days - 30) (map snd thirty_two_days)
  = skipn (length thirty_three_days - 30) (map snd thirty_three_days).
Proof. reflexivity. Defined.

Lemma thirty_two_days_long : 30 <= length thirty_two_days.
Proof. apply Nat.leb_le. reflexivity. Defined.

Lemma thirty_three_days_long : 30 <= length thirty_three_days.
Proof. apply Nat.leb_le. reflexivity. Defined.

Lemma thirty_two_days_last_price :
  nth (length thirty_two_days - 1) (map snd thirty_two_days) 0%R <> 0%R.
Proof.
  apply (no_zero_price_nth _ _ thirty_two_days_no_zero).
  apply Nat.ltb_lt. reflexivity.
Defined.

Lemma predict_reads_the_last_30_prices_sample :
  predict (H := recording) nat
    (fst (train (H := recording) nat init thirty_two_days (1 # 5)))
    thirty_two_days 5
  = predict (H := recording) nat
      (fst (train (H := recording) nat init thirty_two_days (1 # 5)))
      thirty_three_days 5.
Proof.
  apply (predict_reads_the_last_30_prices (H := recording)).
  - exact thirty_two_days_long.
  - exact thirty_three_days_long.
  - exact thirty_two_days_last_price.
  - exact thirty_three_days_end_alike.
Defined.

Lemma forecast_extends_with_the_horizon_sample :
  exists log forecast_values,
    predict (H := recording) nat
      (fst (train (H := recording) nat init thirty_two_days (1 # 5)))
      thirty_two_days (2 + 3)
    = (log, Returned forecast_values) /\
    length forecast_values = 2 + 3 /\
    predict (H := recording) nat
      (fst (train (H := recording) nat init thirty_two_days (1 # 5)))
      thirty_two_days 2
    = (firstn 2 log, Returned (firstn 2 forecast_values)).
Proof.
  destruct (predict (H := recording) nat
              (fst (train (H := recording) nat init thirty_two_days (1 # 5)))
              thirty_two_days (2 + 3)) as [log [forecast_values|e]] eqn:E.
  - exists log, forecast_values. split; [reflexivity|].
    destruct (forecast_extends_with_the_horizon (H := recording) _ _ _ _ _ _ E)
      as (H1 & _ & H3).
    split; [exact H1|exact H3].
  - exfalso. rewrite trained_on_thirty_two_days in E.
    unfold predict, training_rows in E.
    rewrite thirty_two_days_frame in E. vm_compute in E. discriminate.
Defined.

End RandomForestMoreFacts.

(** ** Properties of the LSTM model *)

Module LstmFacts.
Import Lstm LstmSpec SplitFacts.
Open Scope nat_scope.

(** *** The windows of [prepare_data] *)

Lemma prepare_fold (lookback : nat) (data : list R) (indices : list nat) :
  forall X y,
    fold_left (prepare_step lookback data) indices (X, y)
    = (X ++ map (fun i => slice data (i - lookback) i) indices,
       y ++ map (fun i => nth i data 0%R) indices).
Proof.
  induction indices as [|i indices IH]; intros X y; cbn [fold_left map].
  - now rewrite !app_nil_r.
  - unfold prepare_step at 2. unfold append. rewrite IH, <- !app_assoc.
    reflexivity.
Qed.

Lemma seq_from (a len : nat) : seq a len = map (fun k => k + a) (seq 0 len).
Proof.
  revert a. induction len as [|len IH]; intro a; [reflexivity|].
  cbn [seq map]. f_equal. rewrite (IH (S a)), (IH 1), map_map.
  apply map_ext. intro k. lia.
Qed.

(** The values at the positions from [k] on are the list without its
    first [k] values. *)
Lemma values_from (data : list R) (k : nat) :
  map (fun i => nth i data 0%R) (seq k (length data - k)) = skipn k data.
Proof.
  revert k. induction data as [|a data IH]; intro k.
  - simpl. now destruct k.
  - destruct k as [|k].
    + cbn [length Nat.sub seq map nth skipn]. f_equal.
      rewrite <- seq_shift, map_map. cbn [nth].
      specialize (IH 0). now rewrite Nat.sub_0_r, skipn_O in IH.
    + cbn [length Nat.sub skipn]. rewrite <- seq_shift, map_map.
      cbn [nth]. apply IH.
Qed.

Lemma slices_are_windows (lookback : nat) (data : list R) :
  map (fun i => slice data (i - lookback) i)
    (range lookback (length data))
  = windows lookback data.
Proof.
  unfold range, windows. rewrite seq_from, map_map. apply map_ext.
  intro k. unfold slice. f_equal; [lia|f_equal; lia].
Qed.

(** The loop of [prepare_data], in closed form. *)
Lemma prepare_data_closed (lookback : nat) (data : list R) :
  prepare_data lookback data
  = match windows lookback data with
    | [] => Raised IndexError
    | _ :: _ => Returned (windows lookback data, skipn lookback data)
    end.
Proof.
  unfold prepare_data. rewrite prepare_fold. cbn [app].
  rewrite slices_are_windows. unfold range. rewrite values_from.
  reflexivity.
Qed.

Lemma windows_length (lookback : nat) (data : list R) :
  length (windows lookback data) = length data - lookback.
Proof. unfold windows. now rewrite length_map, length_seq. Qed.

Lemma windows_nth (lookback : nat) (data : list R) (k : nat) :
  k < length data - lookback ->
  nth k (windows lookback data) [] = firstn lookback (skipn k data).
Proof.
  intro Hk. unfold windows.
  rewrite (nth_indep _ [] (firstn lookback (skipn 0 data)))
    by (rewrite length_map, length_seq; exact Hk).
  rewrite (map_nth (fun k => firstn lookback (skipn k data))
             (seq 0 (length data - lookback)) 0 k).
  rewrite seq_nth by exact Hk. reflexivity.
Qed.

Lemma prepare_data_returned (lookback : nat) (data : list R)
    (X : list (list R)) (y : list R) :
  prepare_data lookback data = Returned (X, y) ->
  lookback < length data /\
  X = windows lookback data /\ y = skipn lookback data.
Proof.
  rewrite prepare_data_closed. pose proof (windows_length lookback data) as Hl.
  destruct (windows lookback data) as [|w ws] eqn:E; [discriminate|].
  intro Hr. injection Hr as <- <-. cbn [length] in Hl.
  split; [lia|]. split; reflexivity.
Qed.

Lemma prepare_data_raised (lookback : nat) (data : list R) :
  length data <= lookback -> prepare_data lookback data = Raised IndexError.
Proof.
  intro Hn. rewrite prepare_data_closed.
  pose proof (windows_length lookback data) as Hl.
  destruct (windows lookback data) as [|w ws]; [reflexivity|].
  cbn [length] in Hl. lia.
Qed.

(** X24.  [prepare_data] raises [IndexError] exactly when the data has at
    most [lookback] values.  Otherwise it returns one window for each value
    that has [lookback] values before it: [len(data) - lookback] windows,
    the targets are the data without its first [lookback] values, and the
    k-th window followed by the k-th target is the run of [lookback + 1]
    consecutive values of the data that starts at position k. *)
Theorem prepare_data_gives_the_windows (lookback : nat) (data : list R) :
  (prepare_data lookback data = Raised IndexError <->
   length data <= lookback) /\
  (forall X y,
      prepare_data lookback data = Returned (X, y) ->
      length X = length data - lookback /\
      y = skipn lookback data /\
      forall k, k < length data - lookback ->
                nth k X [] ++ [nth k y 0%R]
                = slice data k (k + lookback + 1)).
Proof.
  split.
  - split; [|apply prepare_data_raised].
    intro E. destruct (Nat.le_gt_cases (length data) lookback) as [Hn|Hn];
      [exact Hn|].
    rewrite prepare_data_closed in E.
    pose proof (windows_length lookback data) as Hl.
    destruct (windows lookback data); [cbn [length] in Hl; lia|discriminate].
  - intros X y E. apply prepare_data_returned in E as (Hn & -> & ->).
    split; [apply windows_length|]. split; [reflexivity|].
    intros k Hk. rewrite windows_nth by exact Hk.
    rewrite nth_skipn, (Nat.add_comm lookback k).
    rewrite <- (nth_skipn k data lookback 0%R). unfold slice.
    replace (k + lookback + 1 - k) with (lookback + 1) by lia.
    set (rest := skipn k data).
    assert (Hrest : lookback < length rest)
      by (unfold rest; rewrite length_skipn; lia).
    clearbody rest. clear - Hrest. revert rest Hrest.
    induction lookback as [|n IH]; intros [|a rest] Hrest;
      cbn [length] in Hrest; try lia.
    + reflexivity.
    + cbn [Nat.add firstn nth app]. f_equal. apply IH. lia.
Qed.

Lemma prepare_data_gives_the_windows_sample :
  exists X y,
    prepare_data 2 six_prices = Returned (X, y) /\
    length X = 4 /\ y = [6; 8; 10; 12]%R /\
    (nth 1 X [] ++ [nth 1 y 0])%R = [4; 6; 8]%R.
Proof.
  destruct (prepare_data 2 six_prices) as [[X y]|e] eqn:E.
  - exists X, y. split; [reflexivity|].
    destruct (proj2 (prepare_data_gives_the_windows 2 six_prices) X y E)
      as (H1 & H2 & H3).
    split; [exact H1|]. split; [exact H2|].
    apply (H3 1). apply Nat.ltb_lt. reflexivity.
  - exfalso. vm_compute in E. discriminate.
Defined.


(** *** Series that are too short *)

Section Short.

Context `{Keras}.

(** X25.  On a series with at most [lookback] prices (60 for an object
    made by [LSTMModel()]) neither [train] nor [predict] returns: when the
    scaler returns as many values as it was given, the call ends with the
    exception of the scaler or with the [IndexError] of [prepare_data],
    before any network is built - [self.model] is left as it was. *)
Theorem short_series_never_trains (self : LSTMModel) (prices : list R)
    (test_size : Q) (days : nat) :
  scaling_keeps_length ->
  length prices <= lookback self ->
  (snd (train self prices test_size) = Raised LibraryError \/
   snd (train self prices test_size) = Raised IndexError) /\
  model (fst (train self prices test_size)) = model self /\
  (snd (predict self prices days) = Raised LibraryError \/
   snd (predict self prices days) = Raised IndexError) /\
  model (fst (fst (predict self prices days))) = model self.
Proof.
  intros Hlaw Hn. unfold train, predict.
  destruct (fit_transform prices) as [[fitted_scaler scaled_data]|] eqn:E.
  - apply Hlaw in E. cbn [lookback set_scaler].
    rewrite prepare_data_raised by lia. cbn. auto.
  - cbn. auto.
Qed.

End Short.

Lemma halving_keeps_length : scaling_keeps_length (H := halving).
Proof.
  intros prices fitted_scaler scaled_data E. cbn in E.
  injection E as _ <-. apply length_map.
Defined.

Lemma two_prices_are_short :
  length [2; 4]%R <= lookback (H := halving) two_day_model.
Proof. apply Nat.leb_le. reflexivity. Defined.

Lemma short_series_never_trains_sample :
  snd (train (H := halving) two_day_model [2; 4]%R (1 # 5))
  = Raised IndexError /\
  snd (predict (H := halving) two_day_model [2; 4]%R 3) = Raised IndexError.
Proof.
  destruct (short_series_never_trains (H := halving) two_day_model [2; 4]%R
              (1 # 5) 3 halving_keeps_length two_prices_are_short)
    as ([H1|H1] & _ & [H2|H2] & _).
  - exfalso. vm_compute in H1. discriminate.
  - exfalso. vm_compute in H1. discriminate.
  - split; [exact H1|]. exfalso. vm_compute in H2. discriminate.
  - split; assumption.
Defined.


(** *** The sliding window of [predict] *)

Lemma last_values_length {A : Type} (n : nat) (l : list A) :
  n <= length l -> length (last_values n l) = n.
Proof. intro Hn. unfold last_values. rewrite length_skipn. lia. Qed.

(** Dropping the oldest value and appending a new one gives the last
    values of the longer history. *)
Lemma last_values_snoc {A : Type} (n : nat) (l : list A) (a : A) :
  1 <= n <= length l ->
  skipn 1 (last_values n l) ++ [a] = last_values n (l ++ [a]).
Proof.
  intros [Hlo Hhi]. unfold last_values.
  rewrite skipn_skipn, length_app. cbn [length].
  replace (length l + 1 - n) with (1 + (length l - n)) by lia.
  rewrite skipn_app.
  replace (1 + (length l - n) - length l) with 0 by lia.
  reflexivity.
Qed.

Section Window.

Context `{Keras}.

(** The loop of [predict] slides a window over the scaled history and the
    values predicted so far. *)
Lemma rollout_slides (network : Sequential) (n : nat) :
  one_value_per_window -> 1 <= n ->
  forall days history predictions log values,
    n <= length history ->
    rollout network n days (last_values n history) predictions
    = (log, Returned values) ->
    exists raw,
      values = predictions ++ raw /\ length raw = days /\
      log = map (fun k => last_values n (history ++ firstn k raw))
              (seq 0 days).
Proof.
  intros Hone Hn.
  induction days as [|days IH]; intros history predictions log values Hh.
  - cbn [rollout]. intro E. injection E as <- <-. exists [].
    now rewrite app_nil_r.
  - cbn [rollout]. rewrite last_values_length by exact Hh.
    rewrite Nat.eqb_refl.
    destruct (network_predict network [last_values n history])
      as [[|value rest]|] eqn:Ep; try discriminate.
    apply Hone in Ep. destruct rest; [|discriminate Ep].
    rewrite last_values_snoc by lia.
    destruct (rollout network n days (last_values n (history ++ [value]))
                (append predictions value)) as [log' out] eqn:E'.
    intro E. injection E as <- ->.
    apply IH in E' as (raw & -> & Hraw & ->);
      [|rewrite length_app; cbn [length]; lia].
    exists (value :: raw). unfold append. rewrite <- app_assoc.
    split; [reflexivity|]. split; [cbn [length]; now f_equal|].
    cbn [seq map firstn]. rewrite app_nil_r. f_equal.
    rewrite <- seq_shift, map_map. apply map_ext. intro k.
    cbn [firstn]. now rewrite <- app_assoc.
Qed.

(** With a window of no value the first [reshape] raises. *)
Lemma rollout_without_window (network : Sequential) (days : nat)
    (last_sequence predictions : list R) :
  last_sequence <> [] ->
  rollout network 0 (S days) last_sequence predictions
  = ([], Raised ValueError).
Proof.
  intro Hne. cbn [rollout]. destruct last_sequence; [congruence|reflexivity].
Qed.

(** X26.  When the network answers one window with one value and
    [predict] returns a forecast for at least one day: the scaler and the
    network were fitted in this call, the network on the windows of the
    whole scaled series; [lookback] is at least 1 and less than the number
    of scaled prices; the network was asked [days] times, the k-th time
    with the last [lookback] values of the scaled series followed by the
    first k predictions; and the forecast is the inverse scaling of the
    [days] predictions. *)
Theorem predict_slides_a_window (self self' : LSTMModel) (prices : list R)
    (days : nat) (log : list (list R)) (forecast_values : list R) :
  one_value_per_window ->
  1 <= days ->
  predict self prices days = (self', log, Returned forecast_values) ->
  exists fitted_scaler scaled_data network trained raw,
    fit_transform prices = Some (fitted_scaler, scaled_data) /\
    1 <= lookback self < length scaled_data /\
    build_model (lookback self) = Some network /\
    network_fit network (windows (lookback self) scaled_data)
      (skipn (lookback self) scaled_data) = Some trained /\
    self' = mkLSTM (Some trained) (Some fitted_scaler) (lookback self) /\
    length raw = days /\
    log = map (fun k => last_values (lookback self)
                          (scaled_data ++ firstn k raw)) (seq 0 days) /\
    inverse_transform fitted_scaler raw = Some forecast_values.
Proof.
  intros Hone Hdays. unfold predict.
  destruct (fit_transform prices) as [[fitted_scaler scaled_data]|] eqn:Es;
    [|discriminate].
  cbn [lookback set_scaler set_model model scaler].
  destruct (prepare_data (lookback self) scaled_data) as [[X y]|e] eqn:Ep;
    [|discriminate].
  apply prepare_data_returned in Ep as (Hn & -> & ->).
  destruct (build_model (lookback self)) as [network|] eqn:Eb;
    [|discriminate].
  destruct (network_fit network _ _) as [trained|] eqn:Ef; [|discriminate].
  destruct (rollout trained (lookback self) days _ []) as [log' out] eqn:Er.
  destruct out as [raw|e]; [|discriminate].
  destruct (inverse_transform fitted_scaler raw) as [values|] eqn:Ei;
    [|discriminate].
  intro E. injection E as <- <- <-.
  assert (Hlook : 1 <= lookback self).
  { destruct (lookback self) as [|n] eqn:El; [|lia]. exfalso.
    destruct days as [|days]; [lia|].
    change (slice_from scaled_data (- Z.of_nat 0)) with scaled_data in Er.
    rewrite rollout_without_window in Er; [discriminate|].
    destruct scaled_data; [cbn [length] in Hn; lia|discriminate]. }
  assert (Hlast : slice_from scaled_data (- Z.of_nat (lookback self))
                  = last_values (lookback self) scaled_data).
  { unfold slice_from, last_values.
    destruct (Z.leb_spec 0 (- Z.of_nat (lookback self))) as [Hz|Hz]; [lia|].
    now rewrite Z.opp_involutive, Nat2Z.id. }
  rewrite Hlast in Er.
  apply (rollout_slides trained (lookback self) Hone Hlook) in Er
    as (raw' & Hraw & Hlen & Hlog); [|lia].
  cbn [app] in Hraw. subst raw'.
  exists fitted_scaler, scaled_data, network, trained, raw.
  repeat split; try assumption; lia.
Qed.

(** X27.  [predict] uses nothing of what [train] left in the object: on
    two objects with the same [lookback], whatever network and scaler they
    hold, [predict] asks the network the same questions and ends with the
    same forecast or the same exception. *)
Theorem predict_discards_the_trained_state (self other : LSTMModel)
    (prices : list R) (days : nat) :
  lookback self = lookback other ->
  snd (predict self prices days) = snd (predict other prices days) /\
  snd (fst (predict self prices days))
  = snd (fst (predict other prices days)).
Proof.
  intro Hl. unfold predict.
  destruct (fit_transform prices) as [[fitted_scaler scaled_data]|];
    [|repeat split].
  cbn [lookback set_scaler set_model model scaler]. rewrite <- Hl.
  destruct (prepare_data (lookback self) scaled_data) as [[X y]|e];
    [|repeat split].
  destruct (build_model (lookback self)) as [network|]; [|repeat split].
  destruct (network_fit network X y) as [trained|]; [|repeat split].
  destruct (rollout trained (lookback self) days _ []) as [log out].
  destruct out as [raw|e]; [|repeat split].
  destruct (inverse_transform fitted_scaler raw); repeat split.
Qed.

End Window.


Lemma halving_one_value : one_value_per_window (H := halving).
Proof.
  intros network window values E. cbn in E. injection E as <-. reflexivity.
Defined.

Lemma two_days_ahead : 1 <= 2.
Proof. apply Nat.leb_le. reflexivity. Defined.

Lemma predict_slides_a_window_sample :
  exists self' log forecast_values,
    predict (H := halving) two_day_model six_prices 2
    = (self', log, Returned forecast_values) /\
    length log = 2.
Proof.
  destruct (predict (H := halving) two_day_model six_prices 2)
    as [[self' log] [forecast_values|e]] eqn:E.
  - exists self', log, forecast_values. split; [reflexivity|].
    destruct (predict_slides_a_window (H := halving) _ _ _ _ _ _
                halving_one_value two_days_ahead E)
      as (s & d & n & t & raw & _ & _ & _ & _ & _ & _ & Hlog & _).
    rewrite Hlog, length_map, length_seq. reflexivity.
  - exfalso. vm_compute in E. discriminate.
Defined.

Lemma predict_discards_the_trained_state_sample :
  snd (predict (H := halving) two_day_model six_prices 2)
  = snd (predict (H := halving) two_day_model_fitted six_prices 2).
Proof.
  exact (proj1 (predict_discards_the_trained_state (H := halving)
                  two_day_model two_day_model_fitted six_prices 2 eq_refl)).
Defined.


(** *** What [train] holds out *)

Section HoldOut.

Context `{Keras}.

(** X28.  When [train] returns with the default [test_size] of 0.2: the
    scaler was fitted on all the prices, held-out ones included; of the
    [m = len(scaled) - lookback] windows the first [4 * m / 5] (rounded
    down) with their targets trained the network; the returned predictions
    are the inverse scaling of what the network gave for the other
    windows; and the returned actual values are the inverse scaling of the
    scaled prices from position [lookback + 4 * m / 5] on. *)
Theorem lstm_train_holds_out_the_last_windows (self self' : LSTMModel)
    (prices y_test_original y_pred : list R) :
  train self prices (1 # 5) = (self', Returned (y_test_original, y_pred)) ->
  exists fitted_scaler scaled_data network trained y_pred_scaled,
    fit_transform prices = Some (fitted_scaler, scaled_data) /\
    lookback self < length scaled_data /\
    build_model (lookback self) = Some network /\
    network_fit network
      (firstn (4 * (length scaled_data - lookback self) / 5)
         (windows (lookback self) scaled_data))
      (firstn (4 * (length scaled_data - lookback self) / 5)
         (skipn (lookback self) scaled_data)) = Some trained /\
    network_predict trained
      (skipn (4 * (length scaled_data - lookback self) / 5)
         (windows (lookback self) scaled_data)) = Some y_pred_scaled /\
    inverse_transform fitted_scaler y_pred_scaled = Some y_pred /\
    inverse_transform fitted_scaler
      (skipn (lookback self + 4 * (length scaled_data - lookback self) / 5)
         scaled_data) = Some y_test_original /\
    self' = mkLSTM (Some trained) (Some fitted_scaler) (lookback self).
Proof.
  unfold train.
  destruct (fit_transform prices) as [[fitted_scaler scaled_data]|] eqn:Es;
    [|discriminate].
  cbn [lookback set_scaler set_model model scaler].
  destruct (prepare_data (lookback self) scaled_data) as [[X y]|e] eqn:Ep;
    [|discriminate].
  apply prepare_data_returned in Ep as (Hn & -> & ->).
  set (X := windows (lookback self) scaled_data).
  set (y := skipn (lookback self) scaled_data).
  assert (HX : length X = length scaled_data - lookback self)
    by apply windows_length.
  assert (Hy : length y = length scaled_data - lookback self)
    by apply length_skipn.
  destruct (slices_at_fifth X) as [HXto HXfrom].
  destruct (slices_at_fifth y) as [Hyto Hyfrom].
  rewrite Hy, <- HX in Hyto, Hyfrom.
  rewrite HXto, HXfrom, Hyto, Hyfrom, HX.
  destruct (build_model (lookback self)) as [network|] eqn:Eb;
    [|discriminate].
  destruct (network_fit network _ _) as [trained|] eqn:Ef; [|discriminate].
  destruct (network_predict trained _) as [y_pred_scaled|] eqn:En;
    [|discriminate].
  destruct (inverse_transform fitted_scaler y_pred_scaled) as [yp|] eqn:Ei;
    [|discriminate].
  destruct (inverse_transform fitted_scaler (skipn _ y)) as [yt|] eqn:Et;
    [|discriminate].
  intro E. injection E as <- <- <-.
  exists fitted_scaler, scaled_data, network, trained, y_pred_scaled.
  unfold y in Et. rewrite skipn_skipn, Nat.add_comm in Et.
  repeat split; try assumption; reflexivity.
Qed.

End HoldOut.

Lemma lstm_train_holds_out_the_last_windows_sample :
  exists self' y_test_original y_pred,
    train (H := halving) two_day_model six_prices (1 # 5)
    = (self', Returned (y_test_original, y_pred)) /\
    inverse_transform (Keras := halving) tt
      (skipn 5 (map (fun p => (p / 2)%R) six_prices))
    = Some y_test_original.
Proof.
  destruct (train (H := halving) two_day_model six_prices (1 # 5))
    as [self' [[y_test_original y_pred]|e]] eqn:E.
  - exists self', y_test_original, y_pred. split; [reflexivity|].
    destruct (lstm_train_holds_out_the_last_windows (H := halving) _ _ _ _ _ E)
      as (s & d & n & t & ys & Hs & _ & _ & _ & _ & _ & Ht & _).
    cbn in Hs. injection Hs as _ <-. destruct s. exact Ht.
  - exfalso. vm_compute in E. discriminate.
Defined.

End LstmFacts.

(** ** Properties of the log file *)

Module LoggerFacts.
Import Logger.
Open Scope list_scope.

Section Log.

Context {Float : Type}.
Variable str : Z -> string.
Variable fixed2 : Float -> string.

(** On a file that exists every call appends its line, if it has one, and
    nothing else. *)
Lemma after_log_calls_existing (calls : list (LogCall Float)) :
  forall written,
    fold_left (after_log_call Float str fixed2) calls (Some written)
    = Some (written ++ entries Float str fixed2 calls).
Proof.
  induction calls as [|c calls IH]; intro written.
  - cbn. now rewrite app_nil_r.
  - cbn [fold_left]. destruct c; cbn [after_log_call].
    + unfold log_request. cbn [file_exists negb open_append].
      unfold append. rewrite IH, <- app_assoc. reflexivity.
    + unfold create_log_header_if_needed. cbn [file_exists negb].
      now rewrite IH.
Qed.

(** X29.  The log is only ever appended to.  Over any sequence of
    [log_request] and [create_log_header_if_needed] calls, a file that
    exists keeps what it holds and gains the lines of the requests, one
    each, in the order of the calls; a file that does not exist is created
    by the first call, which writes its heading first - the two-line one of
    [log_request] or the three-line one of
    [create_log_header_if_needed] - and no heading is written after
    that. *)
Theorem log_is_append_only (f : File) (calls : list (LogCall Float)) :
  after_log_calls Float str fixed2 f calls
  = match f, calls with
    | Some written, _ => Some (written ++ entries Float str fixed2 calls)
    | None, [] => None
    | None, first :: _ =>
        Some (heading Float first ++ entries Float str fixed2 calls)
    end.
Proof.
  unfold after_log_calls.
  destruct f as [written|]; [apply after_log_calls_existing|].
  destruct calls as [|c calls]; [reflexivity|].
  cbn [fold_left]. destruct c; cbn [after_log_call].
  - unfold log_request. cbn [file_exists negb open_append].
    unfold append. rewrite after_log_calls_existing.
    cbn [app heading entries flat_map]. reflexivity.
  - unfold create_log_header_if_needed, open_write.
    cbn [file_exists negb]. unfold append.
    rewrite after_log_calls_existing. reflexivity.
Qed.

End Log.

End LoggerFacts.
